(** * Metadata providers HEYZO and xslist: a shallow embedding

    The two providers of the repository, [provider/heyzo/heyzo.go] and the
    xslist actor provider, are embedded as Rocq functions.  Go strings are
    byte strings ([string]); the regular expressions of the source are
    written in a small abstract syntax and run by a backtracking matcher
    that enumerates matches in the order of priority of Go's [regexp]
    package (leftmost first, greedy or lazy repetition).  What the
    providers call and do not define (the colly collector and its query
    engine, the JSON decoder, the [parser] and [m3u8] helpers, [net/url]
    and most of [path]) is gathered in one interface, [Env]. *)

From Stdlib Require Import String Ascii List Bool Arith ZArith Lia.
Import ListNotations.
Open Scope string_scope.
Open Scope list_scope.

(* ================================================================= *)
(** ** Byte strings *)

Module Str.

Fixpoint all (p : ascii -> bool) (s : string) : bool :=
  match s with
  | "" => true
  | String c s' => p c && all p s'
  end.

Fixpoint rev_onto (s acc : string) : string :=
  match s with
  | "" => acc
  | String c s' => rev_onto s' (String c acc)
  end.

Definition rev (s : string) : string := rev_onto s "".

Fixpoint drop (n : nat) (s : string) : string :=
  match n, s with
  | S n', String _ s' => drop n' s'
  | _, _ => s
  end.

Fixpoint take (n : nat) (s : string) : string :=
  match n, s with
  | S n', String c s' => String c (take n' s')
  | _, _ => ""
  end.

(** [strings.HasSuffix] *)
Definition HasSuffix (s suf : string) : bool := prefix (rev suf) (rev s).

(** [strings.Contains]: [substr] occurs at some offset of [s]. *)
Fixpoint Contains (s substr : string) : bool :=
  prefix substr s
  || match s with
     | "" => false
     | String _ s' => Contains s' substr
     end.

(** [strings.SplitN(s, sep, 2)] for a non-empty separator: the text before
    the first occurrence of [sep] and the text after it, or [s] alone. *)
Fixpoint cut (s sep : string) : option (string * string) :=
  if prefix sep s then Some ("", drop (String.length sep) s)
  else match s with
       | "" => None
       | String c s' =>
           match cut s' sep with
           | Some (a, b) => Some (String c a, b)
           | None => None
           end
       end.

Definition SplitN2 (s sep : string) : list string :=
  match cut s sep with
  | Some (a, b) => [a; b]
  | None => [s]
  end.

(** [strings.ReplaceAll(s, old, new)] for a non-empty [old]. *)
Fixpoint replace_fuel (fuel : nat) (s old new : string) : string :=
  match fuel with
  | O => s
  | S fuel' =>
      match cut s old with
      | Some (a, b) => (a ++ new ++ replace_fuel fuel' b old new)%string
      | None => s
      end
  end.

Definition ReplaceAll (s old new : string) : string :=
  replace_fuel (String.length s) s old new.

(** [strings.TrimSuffix] *)
Definition TrimSuffix (s suf : string) : string :=
  if HasSuffix s suf then take (String.length s - String.length suf) s else s.

Definition in_cutset (cutset : string) (c : ascii) : bool :=
  Contains cutset (String c "").

Fixpoint trim_left_set (cutset s : string) : string :=
  match s with
  | "" => ""
  | String c s' => if in_cutset cutset c then trim_left_set cutset s' else s
  end.

(** [strings.TrimRight(s, cutset)] and [strings.Trim(s, cutset)] for a
    cutset of ASCII bytes. *)
Definition TrimRight (s cutset : string) : string :=
  rev (trim_left_set cutset (rev s)).

Definition Trim (s cutset : string) : string :=
  TrimRight (trim_left_set cutset s) cutset.

Definition bytes (l : list nat) : string :=
  string_of_list_ascii (map ascii_of_nat l).

(** The UTF-8 encodings of the code points for which [unicode.IsSpace]
    holds: the six ASCII ones, U+0085, U+00A0, U+1680, U+2000..U+200A,
    U+2028, U+2029, U+202F, U+205F and U+3000. *)
Definition space_runes : list string :=
  map bytes
    ([[9]; [10]; [11]; [12]; [13]; [32]; [194; 133]; [194; 160];
      [225; 154; 128]]
     ++ map (fun k => [226; 128; 128 + k]) (seq 0 11)
     ++ [[226; 128; 168]; [226; 128; 169]; [226; 128; 175];
         [226; 129; 159]; [227; 128; 128]]).

(** The length of the white-space rune that [s] starts with, if any. *)
Definition space_prefix (runes : list string) (s : string) : option nat :=
  match filter (fun r => prefix r s) runes with
  | r :: _ => Some (String.length r)
  | [] => None
  end.

Fixpoint trim_space_left (runes : list string) (fuel : nat) (s : string) : string :=
  match fuel with
  | O => s
  | S fuel' =>
      match space_prefix runes s with
      | Some n => trim_space_left runes fuel' (drop n s)
      | None => s
      end
  end.

(** [strings.TrimSpace] *)
Definition TrimSpace (s : string) : string :=
  let l := trim_space_left space_runes (String.length s) s in
  rev (trim_space_left (map rev space_runes) (String.length l) (rev l)).

(** [strings.Fields]: the maximal runs of non-space bytes, [cur] being the
    field under construction (reversed). *)
Fixpoint fields_fuel (fuel : nat) (cur : string) (s : string) : list string :=
  let flush := match cur with "" => [] | _ => [rev cur] end in
  match fuel with
  | O => flush
  | S fuel' =>
      match space_prefix space_runes s with
      | Some n => flush ++ fields_fuel fuel' "" (drop n s)
      | None =>
          match s with
          | "" => flush
          | String c s' => fields_fuel fuel' (String c cur) s'
          end
      end
  end.

Definition Fields (s : string) : list string :=
  fields_fuel (S (String.length s)) "" s.

Definition is_digit (c : ascii) : bool :=
  let n := nat_of_ascii c in ((48 <=? n) && (n <=? 57))%nat.

Definition is_upper (c : ascii) : bool :=
  let n := nat_of_ascii c in ((65 <=? n) && (n <=? 90))%nat.

Definition is_lower (c : ascii) : bool :=
  let n := nat_of_ascii c in ((97 <=? n) && (n <=? 122))%nat.

(** ASCII lower-casing of one byte. *)
Definition to_lower (c : ascii) : ascii :=
  if is_upper c then ascii_of_nat (nat_of_ascii c + 32) else c.

Fixpoint lower (s : string) : string :=
  match s with
  | "" => ""
  | String c s' => String (to_lower c) (lower s')
  end.

End Str.

(* ================================================================= *)
(** ** path *)

Module Path.

(** The offset of the last occurrence of the byte [c] in [s]. *)
Fixpoint last_index (c : ascii) (s : string) : option nat :=
  match s with
  | "" => None
  | String x s' =>
      match last_index c s' with
      | Some n => Some (S n)
      | None => if Ascii.eqb x c then Some O else None
      end
  end.

Definition slash : ascii := ascii_of_nat 47.

Definition period : ascii := ascii_of_nat 46.

(** The final element of [p]: what follows its last slash. *)
Definition final_element (p : string) : string :=
  match last_index slash p with
  | Some n => Str.drop (S n) p
  | None => p
  end.

(** [path.Ext]: the suffix that begins at the last dot of the final
    element of the path, empty when there is no dot. *)
Definition Ext (p : string) : string :=
  let b := final_element p in
  match last_index period b with
  | Some n => Str.drop n b
  | None => ""
  end.

End Path.

(* ================================================================= *)
(** ** Regular expressions *)

(** The patterns of the source only repeat single-byte classes and never
    put a capture under a repetition, so the syntax is restricted to that.
    Every pattern that is searched for without an anchor starts with an
    ASCII literal, and every class or [.] run is delimited by ASCII
    literals, so matching bytes gives the submatches Go finds on runes. *)
Module Regexp.

Inductive re : Type :=
| Byte (p : ascii -> bool)              (* one byte of a class *)
| Cat (r1 r2 : re)                      (* r1r2 *)
| Opt (r : re)                          (* (?:r)? *)
| Plus (greedy : bool) (p : ascii -> bool) (* [p]+ and [p]+? *)
| Star (p : ascii -> bool)              (* [p]* *)
| Cap (i : nat) (r : re)                (* capture group number i *)
| Bol                                   (* ^ *)
| Eol                                   (* $ *)
| Eps.

(** A match: the matched text, the rest of the input, the captures. *)
Definition result : Type := string * string * list (nat * string).

(** The non-empty prefixes of [s] inside the class [p], with the rest of
    [s]: longest first for a greedy repetition, shortest first for a lazy one. *)
Fixpoint spans (greedy : bool) (p : ascii -> bool) (s : string) : list (string * string) :=
  match s with
  | "" => []
  | String c s' =>
      if p c then
        let longer := map (fun mt => (String c (fst mt), snd mt)) (spans greedy p s') in
        if greedy then longer ++ [(String c "", s')]
        else (String c "", s') :: longer
      else []
  end.

Definition is_empty (s : string) : bool :=
  match s with "" => true | _ => false end.

(** All the matches of [r] at the head of [s], in the order a backtracking
    search tries them; [bot] tells whether [s] is the whole text. *)
Fixpoint run (r : re) (bot : bool) (s : string) : list result :=
  match r with
  | Byte p =>
      match s with
      | String c s' => if p c then [(String c "", s', [])] else []
      | "" => []
      end
  | Cat r1 r2 =>
      flat_map (fun x : result =>
                  let '(m1, s1, c1) := x in
                  map (fun y : result =>
                         let '(m2, s2, c2) := y in ((m1 ++ m2)%string, s2, c1 ++ c2))
                      (run r2 (bot && is_empty m1) s1))
               (run r1 bot s)
  | Opt r1 => run r1 bot s ++ [("", s, [])]
  | Plus greedy p => map (fun mt => (fst mt, snd mt, [])) (spans greedy p s)
  | Star p => map (fun mt => (fst mt, snd mt, [])) (spans true p s) ++ [("", s, [])]
  | Cap i r1 =>
      map (fun x : result => let '(m, s', c) := x in (m, s', (i, m) :: c))
          (run r1 bot s)
  | Bol => if bot then [("", s, [])] else []
  | Eol => if is_empty s then [("", s, [])] else []
  | Eps => [("", s, [])]
  end.

(** The leftmost match: the first match at the earliest offset. *)
Fixpoint search (r : re) (bot : bool) (s : string) : option result :=
  match run r bot s with
  | x :: _ => Some x
  | [] =>
      match s with
      | "" => None
      | String _ s' => search r false s'
      end
  end.

Fixpoint lookup (i : nat) (caps : list (nat * string)) : string :=
  match caps with
  | [] => ""
  | (j, m) :: caps' => if Nat.eqb i j then m else lookup i caps'
  end.

(** The slice Go returns for a match of a pattern with [n] groups. *)
Definition submatches (n : nat) (x : result) : list string :=
  let '(m, _, caps) := x in m :: map (fun i => lookup i caps) (seq 1 n).

(** [Regexp.FindStringSubmatch]: [nil] when there is no match. *)
Definition FindStringSubmatch (r : re) (n : nat) (s : string) : list string :=
  match search r true s with
  | Some x => submatches n x
  | None => []
  end.

(** [Regexp.FindAllStringSubmatch(s, -1)]: successive non-overlapping
    matches; after an empty match the search resumes one byte further. *)
Fixpoint find_all (fuel : nat) (r : re) (n : nat) (bot : bool) (s : string) : list (list string) :=
  match fuel with
  | O => []
  | S fuel' =>
      match search r bot s with
      | None => []
      | Some (m, rest, caps) =>
          submatches n (m, rest, caps)
          :: (if is_empty m
              then match rest with
                   | "" => []
                   | String _ rest' => find_all fuel' r n false rest'
                   end
              else find_all fuel' r n false rest)
      end
  end.

Definition FindAllStringSubmatch (r : re) (n : nat) (s : string) : list (list string) :=
  find_all (S (String.length s)) r n true s.

(** A literal, byte by byte. *)
Fixpoint lit (s : string) : re :=
  match s with
  | "" => Eps
  | String c s' => Cat (Byte (Ascii.eqb c)) (lit s')
  end.

(** A literal under [(?i)].  None of the literals used below contains a
    letter with a fold outside ASCII (k, s), so folding is ASCII folding. *)
Fixpoint liti (s : string) : re :=
  match s with
  | "" => Eps
  | String c s' =>
      Cat (Byte (fun x => Ascii.eqb (Str.to_lower x) (Str.to_lower c))) (liti s')
  end.

(** [\d] *)
Definition digit : ascii -> bool := Str.is_digit.

(** [\s]: tab, newline, form feed, carriage return, space. *)
Definition space (c : ascii) : bool :=
  let n := nat_of_ascii c in
  ((n =? 9) || (n =? 10) || (n =? 12) || (n =? 13) || (n =? 32))%nat.

(** [\w] *)
Definition word (c : ascii) : bool :=
  Str.is_digit c || Str.is_upper c || Str.is_lower c || (nat_of_ascii c =? 95)%nat.

(** [.]: any byte but a newline. *)
Definition dot (c : ascii) : bool := negb (nat_of_ascii c =? 10)%nat.

End Regexp.

Import Regexp.

(* ================================================================= *)
(** ** Collaborators *)

(** [html.NodeType] of golang.org/x/net/html. *)
Inductive NodeType : Type :=
| ErrorNode | TextNode | DocumentNode | ElementNode | CommentNode | DoctypeNode.

(** The part of an [html.Node] the providers read. *)
Record HtmlNode : Type := { Type_ : NodeType; Data : string }.

(** The anonymous struct the JSON-LD script is decoded into. *)
Record LdJson : Type := {
  ld_Name : string;
  ld_Image : string;
  ld_Description : string;
  ld_ReleasedEvent_StartDate : string;
  ld_Video_Duration : string;
  ld_Video_Actor : string;
  ld_Video_Provider : string;
  ld_AggregateRating_RatingValue : string
}.

(** What the providers use and do not define: Go's library, colly and its
    query engine, and the [parser] and [m3u8] packages.  [visit n u] is
    what the collector makes of the call [Visit(u)] that comes after [n]
    earlier calls of [Visit] by this run: an error (a URL the collector
    refuses, a failed request, a page that does not parse), or a response.
    [ChildNodes e] are the children of [e.DOM] when it is an [html.Node],
    and [None] when it is not (the node of an XML document). *)
Class Env : Type := {
  error : Type;
  time_Time : Type;
  time_zero : time_Time;
  Float : Type;
  zero_Float : Float;
  URL : Type;
  Element : Type;
  Response : Type;
  (* net/url and path *)
  url_Parse : string -> error + URL;
  url_Path : URL -> string;
  url_String : URL -> string;
  url_QueryEscape : string -> string;
  path_Base : string -> string;
  path_Dir : string -> string;
  (* time and common/parser *)
  time_Date : Z -> Z -> time_Time;
  ParseDate : string -> time_Time;
  ParseRuntime : string -> Z;
  ParseScore : string -> Float;
  ParseInt : string -> Z;
  (* encoding/json: [None] when Unmarshal returns an error *)
  json_Unmarshal_ld : string -> option LdJson;
  json_Unmarshal_full : string -> option string;
  (* common/m3u8: [None] when ParseMediaURI returns an error *)
  ParseMediaURI : string -> option string;
  (* colly *)
  visit : nat -> string -> error + Response;
  Body : Response -> string;
  Request_URL_String : Response -> string;
  selectNodes : Response -> string -> list Element;
  Text : Element -> string;
  Attr : Element -> string -> string;
  ChildText : Element -> string -> string;
  ChildTexts : Element -> string -> list string;
  ChildAttr : Element -> string -> string -> string;
  AbsoluteURL : Element -> string -> string;
  ChildNodes : Element -> option (list HtmlNode)
}.

(* ================================================================= *)
(** ** Effects: calls of Visit, and panics *)

(** A computation starts from the URLs [Visit] was called with so far, in
    order, and either ends with a value and the URLs [Visit] was called
    with by then, or panics. *)
Inductive outcome (A : Type) : Type :=
| Done (a : A) (requests : list string)
| Panicked.

Arguments Done {A} a requests.
Arguments Panicked {A}.

Definition M (A : Type) : Type := list string -> outcome A.

Definition ret {A : Type} (a : A) : M A := fun reqs => Done a reqs.

Definition bind {A B : Type} (m : M A) (k : A -> M B) : M B :=
  fun reqs =>
    match m reqs with
    | Done a reqs' => k a reqs'
    | Panicked => Panicked
    end.

Definition panic {A : Type} : M A := fun _ => Panicked.

Notation "x <- m ;; k" := (bind m (fun x => k))
  (at level 61, m at next level, right associativity).

Section Collector.
Context {E : Env}.
Variable T : Type.

(** An [OnXML] registration: the query and the callback, which works on
    the record its closure captured. *)
Definition callback : Type := string * (Element -> T -> M T).

Fixpoint each_node (f : Element -> T -> M T) (nodes : list Element) (info : T) : M T :=
  match nodes with
  | [] => ret info
  | e :: nodes' => info' <- f e info ;; each_node f nodes' info'
  end.

(** colly runs the callbacks in the order of their registration, each on
    all the nodes its query selects, in document order. *)
Fixpoint handleOnXML (cbs : list callback) (resp : Response) (info : T) : M T :=
  match cbs with
  | [] => ret info
  | (query, f) :: cbs' =>
      info' <- each_node f (selectNodes resp query) info ;;
      handleOnXML cbs' resp info'
  end.

(** [c.Visit(u)] of a collector whose callbacks are [cbs]: the record
    after the visit and the error [Visit] returns. *)
Definition Visit (cbs : list callback) (u : string) (info : T) : M (T * option error) :=
  fun reqs =>
    match visit (length reqs) u with
    | inl err => Done (info, Some err) (reqs ++ [u])
    | inr resp =>
        match handleOnXML cbs resp info (reqs ++ [u]) with
        | Done info' reqs' => Done (info', None) reqs'
        | Panicked => Panicked
        end
    end.

(** [d.Visit(u)] of a clone with one [OnResponse] callback, the error
    being dropped by the caller. *)
Definition Visit_OnResponse (f : Response -> T -> T) (u : string) (info : T) : M T :=
  fun reqs =>
    match visit (length reqs) u with
    | inl _ => Done info (reqs ++ [u])
    | inr resp => Done (f resp info) (reqs ++ [u])
    end.
End Collector.

Arguments each_node {E T} f nodes info.
Arguments handleOnXML {E T} cbs resp info.
Arguments Visit {E T} cbs u info.
Arguments Visit_OnResponse {E T} f u info.

Definition dq : string := Str.bytes [34].

(** [s] between double quotes. *)
Definition quoted (s : string) : string := (dq ++ s ++ dq)%string.

(** A sequence of patterns. *)
Definition cat (l : list re) : re := fold_right Cat Eps l.

Definition nonempty (s : string) : bool := negb (is_empty s).

(* ================================================================= *)
(** ** provider/heyzo *)

Module Heyzo.
Section Provider.
Context {E : Env}.
Local Open Scope string_scope.

(** The fields of [model.MovieInfo] the provider writes. *)
Record MovieInfo : Type := {
  ID : string;
  Number : string;
  Title : string;
  Summary : string;
  Provider : string;
  Homepage : string;
  Maker : string;
  Series : string;
  Actors : list string;
  PreviewImages : list string;
  Tags : list string;
  CoverURL : string;
  ThumbURL : string;
  ReleaseDate : time_Time;
  Runtime : Z;
  Score : Float;
  PreviewVideoURL : string;
  PreviewVideoHLSURL : string
}.

Definition set_Title (v : string) (i : MovieInfo) : MovieInfo :=
  {| ID := ID i; Number := Number i; Title := v; Summary := Summary i;
     Provider := Provider i; Homepage := Homepage i; Maker := Maker i;
     Series := Series i; Actors := Actors i;
     PreviewImages := PreviewImages i; Tags := Tags i;
     CoverURL := CoverURL i; ThumbURL := ThumbURL i;
     ReleaseDate := ReleaseDate i; Runtime := Runtime i; Score := Score i;
     PreviewVideoURL := PreviewVideoURL i;
     PreviewVideoHLSURL := PreviewVideoHLSURL i |}.

Definition set_Summary (v : string) (i : MovieInfo) : MovieInfo :=
  {| ID := ID i; Number := Number i; Title := Title i; Summary := v;
     Provider := Provider i; Homepage := Homepage i; Maker := Maker i;
     Series := Series i; Actors := Actors i;
     PreviewImages := PreviewImages i; Tags := Tags i;
     CoverURL := CoverURL i; ThumbURL := ThumbURL i;
     ReleaseDate := ReleaseDate i; Runtime := Runtime i; Score := Score i;
     PreviewVideoURL := PreviewVideoURL i;
     PreviewVideoHLSURL := PreviewVideoHLSURL i |}.

Definition set_Maker (v : string) (i : MovieInfo) : MovieInfo :=
  {| ID := ID i; Number := Number i; Title := Title i; Summary := Summary i;
     Provider := Provider i; Homepage := Homepage i; Maker := v;
     Series := Series i; Actors := Actors i;
     PreviewImages := PreviewImages i; Tags := Tags i;
     CoverURL := CoverURL i; ThumbURL := ThumbURL i;
     ReleaseDate := ReleaseDate i; Runtime := Runtime i; Score := Score i;
     PreviewVideoURL := PreviewVideoURL i;
     PreviewVideoHLSURL := PreviewVideoHLSURL i |}.

Definition set_Series (v : string) (i : MovieInfo) : MovieInfo :=
  {| ID := ID i; Number := Number i; Title := Title i; Summary := Summary i;
     Provider := Provider i; Homepage := Homepage i; Maker := Maker i;
     Series := v; Actors := Actors i; PreviewImages := PreviewImages i;
     Tags := Tags i; CoverURL := CoverURL i; ThumbURL := ThumbURL i;
     ReleaseDate := ReleaseDate i; Runtime := Runtime i; Score := Score i;
     PreviewVideoURL := PreviewVideoURL i;
     PreviewVideoHLSURL := PreviewVideoHLSURL i |}.

Definition set_Actors (v : list string) (i : MovieInfo) : MovieInfo :=
  {| ID := ID i; Number := Number i; Title := Title i; Summary := Summary i;
     Provider := Provider i; Homepage := Homepage i; Maker := Maker i;
     Series := Series i; Actors := v; PreviewImages := PreviewImages i;
     Tags := Tags i; CoverURL := CoverURL i; ThumbURL := ThumbURL i;
     ReleaseDate := ReleaseDate i; Runtime := Runtime i; Score := Score i;
     PreviewVideoURL := PreviewVideoURL i;
     PreviewVideoHLSURL := PreviewVideoHLSURL i |}.

Definition set_PreviewImages (v : list string) (i : MovieInfo) : MovieInfo :=
  {| ID := ID i; Number := Number i; Title := Title i; Summary := Summary i;
     Provider := Provider i; Homepage := Homepage i; Maker := Maker i;
     Series := Series i; Actors := Actors i; PreviewImages := v;
     Tags := Tags i; CoverURL := CoverURL i; ThumbURL := ThumbURL i;
     ReleaseDate := ReleaseDate i; Runtime := Runtime i; Score := Score i;
     PreviewVideoURL := PreviewVideoURL i;
     PreviewVideoHLSURL := PreviewVideoHLSURL i |}.

Definition set_Tags (v : list string) (i : MovieInfo) : MovieInfo :=
  {| ID := ID i; Number := Number i; Title := Title i; Summary := Summary i;
     Provider := Provider i; Homepage := Homepage i; Maker := Maker i;
     Series := Series i; Actors := Actors i;
     PreviewImages := PreviewImages i; Tags := v; CoverURL := CoverURL i;
     ThumbURL := ThumbURL i; ReleaseDate := ReleaseDate i;
     Runtime := Runtime i; Score := Score i;
     PreviewVideoURL := PreviewVideoURL i;
     PreviewVideoHLSURL := PreviewVideoHLSURL i |}.

Definition set_CoverURL (v : string) (i : MovieInfo) : MovieInfo :=
  {| ID := ID i; Number := Number i; Title := Title i; Summary := Summary i;
     Provider := Provider i; Homepage := Homepage i; Maker := Maker i;
     Series := Series i; Actors := Actors i;
     PreviewImages := PreviewImages i; Tags := Tags i; CoverURL := v;
     ThumbURL := ThumbURL i; ReleaseDate := ReleaseDate i;
     Runtime := Runtime i; Score := Score i;
     PreviewVideoURL := PreviewVideoURL i;
     PreviewVideoHLSURL := PreviewVideoHLSURL i |}.

Definition set_ThumbURL (v : string) (i : MovieInfo) : MovieInfo :=
  {| ID := ID i; Number := Number i; Title := Title i; Summary := Summary i;
     Provider := Provider i; Homepage := Homepage i; Maker := Maker i;
     Series := Series i; Actors := Actors i;
     PreviewImages := PreviewImages i; Tags := Tags i;
     CoverURL := CoverURL i; ThumbURL := v; ReleaseDate := ReleaseDate i;
     Runtime := Runtime i; Score := Score i;
     PreviewVideoURL := PreviewVideoURL i;
     PreviewVideoHLSURL := PreviewVideoHLSURL i |}.

Definition set_ReleaseDate (v : time_Time) (i : MovieInfo) : MovieInfo :=
  {| ID := ID i; Number := Number i; Title := Title i; Summary := Summary i;
     Provider := Provider i; Homepage := Homepage i; Maker := Maker i;
     Series := Series i; Actors := Actors i;
     PreviewImages := PreviewImages i; Tags := Tags i;
     CoverURL := CoverURL i; ThumbURL := ThumbURL i; ReleaseDate := v;
     Runtime := Runtime i; Score := Score i;
     PreviewVideoURL := PreviewVideoURL i;
     PreviewVideoHLSURL := PreviewVideoHLSURL i |}.

Definition set_Runtime (v : Z) (i : MovieInfo) : MovieInfo :=
  {| ID := ID i; Number := Number i; Title := Title i; Summary := Summary i;
     Provider := Provider i; Homepage := Homepage i; Maker := Maker i;
     Series := Series i; Actors := Actors i;
     PreviewImages := PreviewImages i; Tags := Tags i;
     CoverURL := CoverURL i; ThumbURL := ThumbURL i;
     ReleaseDate := ReleaseDate i; Runtime := v; Score := Score i;
     PreviewVideoURL := PreviewVideoURL i;
     PreviewVideoHLSURL := PreviewVideoHLSURL i |}.

Definition set_Score (v : Float) (i : MovieInfo) : MovieInfo :=
  {| ID := ID i; Number := Number i; Title := Title i; Summary := Summary i;
     Provider := Provider i; Homepage := Homepage i; Maker := Maker i;
     Series := Series i; Actors := Actors i;
     PreviewImages := PreviewImages i; Tags := Tags i;
     CoverURL := CoverURL i; ThumbURL := ThumbURL i;
     ReleaseDate := ReleaseDate i; Runtime := Runtime i; Score := v;
     PreviewVideoURL := PreviewVideoURL i;
     PreviewVideoHLSURL := PreviewVideoHLSURL i |}.

Definition set_PreviewVideoURL (v : string) (i : MovieInfo) : MovieInfo :=
  {| ID := ID i; Number := Number i; Title := Title i; Summary := Summary i;
     Provider := Provider i; Homepage := Homepage i; Maker := Maker i;
     Series := Series i; Actors := Actors i;
     PreviewImages := PreviewImages i; Tags := Tags i;
     CoverURL := CoverURL i; ThumbURL := ThumbURL i;
     ReleaseDate := ReleaseDate i; Runtime := Runtime i; Score := Score i;
     PreviewVideoURL := v; PreviewVideoHLSURL := PreviewVideoHLSURL i |}.

Definition set_PreviewVideoHLSURL (v : string) (i : MovieInfo) : MovieInfo :=
  {| ID := ID i; Number := Number i; Title := Title i; Summary := Summary i;
     Provider := Provider i; Homepage := Homepage i; Maker := Maker i;
     Series := Series i; Actors := Actors i;
     PreviewImages := PreviewImages i; Tags := Tags i;
     CoverURL := CoverURL i; ThumbURL := ThumbURL i;
     ReleaseDate := ReleaseDate i; Runtime := Runtime i; Score := Score i;
     PreviewVideoURL := PreviewVideoURL i; PreviewVideoHLSURL := v |}.

Definition Name : string := "HEYZO".

(** [fmt.Sprintf(sampleURL, a, b, c)] *)
Definition sampleURL (a b c : string) : string :=
  "https://www.heyzo.com/contents/" ++ a ++ "/" ++ b ++ "/" ++ c.

(** [^(?i)(?:heyzo-)?(\d+)$] *)
Definition re_id : re :=
  cat [Bol; Opt (liti "heyzo-"); Cap 1 (Plus true digit); Eol].

Definition NormalizeID (id : string) : string :=
  let ss := FindStringSubmatch re_id 1 id in
  if (length ss =? 2)%nat then nth 1 ss "" else "".

Definition ParseIDFromURL (rawURL : string) : error + string :=
  match url_Parse rawURL with
  | inl err => inl err
  | inr homepage => inr (path_Base (path_Dir (url_Path homepage)))
  end.

(** JSON *)
Definition onJSON (e : Element) (info : MovieInfo) : MovieInfo :=
  match json_Unmarshal_ld (Text e) with
  | Some data =>
      let info := set_Title (ld_Name data) info in
      let info := set_Summary (ld_Description data) info in
      let info := set_CoverURL (AbsoluteURL e (ld_Image data)) info in
      let info := set_ThumbURL (CoverURL info) info in
      let info := set_ReleaseDate (ParseDate (ld_ReleasedEvent_StartDate data)) info in
      let info := set_Runtime (ParseRuntime (ld_Video_Duration data)) info in
      let info := set_Score (ParseScore (ld_AggregateRating_RatingValue data)) info in
      let info :=
        if nonempty (ld_Video_Provider data)
        then set_Maker (ld_Video_Provider data) info else info in
      if nonempty (ld_Video_Actor data)
      then set_Actors [ld_Video_Actor data] info else info
  | None => info
  end.

(** Title: [strings.Fields(e.Text)[0]] panics when there is no field. *)
Definition onTitle (e : Element) (info : MovieInfo) : M MovieInfo :=
  if is_empty (Title info) then
    match Str.Fields (Text e) with
    | f :: _ => ret (set_Title f info)
    | [] => panic
    end
  else ret info.

(** Summary *)
Definition onSummary (e : Element) (info : MovieInfo) : MovieInfo :=
  if is_empty (Summary info)
  then set_Summary (Str.TrimSpace (Text e)) info
  else info.

(** Thumb+Cover (fallback) *)
Definition onImage (e : Element) (info : MovieInfo) : MovieInfo :=
  if is_empty (CoverURL info) then
    let info := set_CoverURL (AbsoluteURL e (Attr e "content")) info in
    set_ThumbURL (CoverURL info) info
  else info.

(** Fields *)
Definition onField (e : Element) (info : MovieInfo) : MovieInfo :=
  let label := ChildText e ".//td[1]" in
  if label =? "公開日" then
    set_ReleaseDate (ParseDate (ChildText e ".//td[2]")) info
  else if label =? "出演" then
    set_Actors (ChildTexts e ".//td[2]/a/span") info
  else if label =? "シリーズ" then
    set_Series (Str.Trim (ChildText e ".//td[2]") "-") info
  else if label =? "評価" then
    set_Score
      (ParseScore (ChildText e (".//span[@itemprop=" ++ quoted "ratingValue" ++ "]")))
      info
  else info.

(** Tags *)
Definition onTags (e : Element) (info : MovieInfo) : MovieInfo :=
  set_Tags (ChildTexts e ".//li/a") info.

(** [emvideo = "(.+?)";] *)
Definition re_emvideo : re :=
  cat [lit ("emvideo = " ++ dq); Cap 1 (Plus false dot); lit (dq ++ ";")].

(** [o = (\{.+?});] *)
Definition re_o : re :=
  cat [lit "o = "; Cap 1 (cat [lit "{"; Plus false dot; lit "}"]); lit ";"].

(** Video+Runtime *)
Definition onScript (e : Element) (info : MovieInfo) : MovieInfo :=
  let info :=
    if Str.Contains (Text e) "emvideo" then
      let sub := FindStringSubmatch re_emvideo 1 (Text e) in
      if (length sub =? 2)%nat
      then set_PreviewVideoURL (AbsoluteURL e (nth 1 sub "")) info
      else info
    else info in
  if Str.Contains (Text e) "o = {" then
    let sub := FindStringSubmatch re_o 1 (Text e) in
    if (length sub =? 2)%nat then
      match json_Unmarshal_full (nth 1 sub "") with
      | Some full => set_Runtime (ParseRuntime full) info
      | None => info
      end
    else info
  else info.

(** [movieId\s*=\s*'(\d+?)';] *)
Definition re_movieId : re :=
  cat [lit "movieId"; Star space; lit "="; Star space; lit "'";
       Cap 1 (Plus false digit); lit "';"].

(** [siteID\s*=\s*'(\d+?)';] *)
Definition re_siteID : re :=
  cat [lit "siteID"; Star space; lit "="; Star space; lit "'";
       Cap 1 (Plus false digit); lit "';"].

(** [stream\s*=\s*'(.+?)'\+siteID\+'(.+?)'\+movieId\+'(.+?)';] *)
Definition re_stream : re :=
  cat [lit "stream"; Star space; lit "="; Star space; lit "'";
       Cap 1 (Plus false dot); lit "'+siteID+'";
       Cap 2 (Plus false dot); lit "'+movieId+'";
       Cap 3 (Plus false dot); lit "';"].

(** [/sample/(\d+)/(\d+)/ts\.(.+?)\.m3u8] *)
Definition re_sample : re :=
  cat [lit "/sample/"; Cap 1 (Plus true digit); lit "/";
       Cap 2 (Plus true digit); lit "/ts."; Cap 3 (Plus false dot);
       lit ".m3u8"].

(** The [OnResponse] callback of the clone; the deferred write of the
    HLS URL comes last. *)
Definition onManifest (r : Response) (info : MovieInfo) : MovieInfo :=
  let info :=
    match ParseMediaURI (Body r) with
    | Some uri =>
        let ss := FindStringSubmatch re_sample 3 uri in
        if (length ss =? 4)%nat
        then set_PreviewVideoURL
               (sampleURL (nth 1 ss "") (nth 2 ss "") (nth 3 ss "")) info
        else info
    | None => info
    end in
  set_PreviewVideoHLSURL (Request_URL_String r) info.

(** Preview Video *)
Definition onPlayer (e : Element) (info : MovieInfo) : M MovieInfo :=
  if negb (Str.Contains (Text e) "movieId") then ret info else
  let movieID :=
    let sub := FindStringSubmatch re_movieId 1 (Text e) in
    if (length sub =? 2)%nat then nth 1 sub "" else "" in
  let siteID :=
    let sub := FindStringSubmatch re_siteID 1 (Text e) in
    if (length sub =? 2)%nat then nth 1 sub "" else "" in
  if is_empty movieID || is_empty siteID then ret info else
  let sub := FindStringSubmatch re_stream 3 (Text e) in
  if (length sub =? 4)%nat then
    let m3u8Link :=
      AbsoluteURL e
        (nth 1 sub "" ++ siteID ++ nth 2 sub "" ++ movieID ++ nth 3 sub "") in
    Visit_OnResponse onManifest m3u8Link info
  else ret info.

(** ["(/contents/.+/\d+?\.\w+?)"] *)
Definition re_image : re :=
  cat [lit dq;
       Cap 1 (cat [lit "/contents/"; Plus true dot; lit "/";
                   Plus false digit; lit "."; Plus false word]);
       lit dq].

(** Preview Images *)
Definition onImages (e : Element) (info : MovieInfo) : MovieInfo :=
  fold_left
    (fun info sub =>
       set_PreviewImages
         (PreviewImages info ++ [AbsoluteURL e (nth 1 sub "")])%list info)
    (FindAllStringSubmatch re_image 1 (Text e)) info.

Definition pure (f : Element -> MovieInfo -> MovieInfo) : Element -> MovieInfo -> M MovieInfo :=
  fun e info => ret (f e info).

(** The callbacks, in the order [GetMovieInfoByURL] registers them. *)
Definition callbacks : list (callback MovieInfo) :=
  [ ("//script[@type=" ++ quoted "application/ld+json" ++ "]", pure onJSON);
    ("//*[@id=" ++ quoted "movie" ++ "]/h1", onTitle);
    ("//p[@class=" ++ quoted "memo" ++ "]", pure onSummary);
    ("//meta[@property=" ++ quoted "og:image" ++ "]", pure onImage);
    ("//table[@class=" ++ quoted "movieInfo" ++ "]/tbody/tr", pure onField);
    ("//ul[@class=" ++ quoted "tag-keyword-list" ++ "]", pure onTags);
    ("//script[@type=" ++ quoted "text/javascript" ++ "]", pure onScript);
    ("//*[@id=" ++ quoted "playerContainer" ++ "]/script", onPlayer);
    ("//div[@class=" ++ quoted "sample-images yoxview" ++ "]/script", pure onImages) ].

(** The record before the visit. *)
Definition seed (id rawURL : string) : MovieInfo :=
  {| ID := id; Number := "HEYZO-" ++ id; Title := ""; Summary := "";
     Provider := Name; Homepage := rawURL; Maker := "HEYZO"; Series := "";
     Actors := []; PreviewImages := []; Tags := [];
     CoverURL := ""; ThumbURL := ""; ReleaseDate := time_zero;
     Runtime := 0%Z; Score := zero_Float;
     PreviewVideoURL := ""; PreviewVideoHLSURL := "" |}.

(** The two results of the Go function: [info] ([None] for nil) and
    [err] ([None] for nil). *)
Definition GetMovieInfoByURL (rawURL : string) : M (option MovieInfo * option error) :=
  match ParseIDFromURL rawURL with
  | inl err => ret (None, Some err)
  | inr id =>
      let info := seed id rawURL in
      r <- Visit callbacks (Homepage info) info ;;
      ret (Some (fst r), snd r)
  end.

End Provider.
End Heyzo.

Arguments Heyzo.Build_MovieInfo {E} & ID Number Title Summary Provider Homepage
  Maker Series Actors PreviewImages Tags CoverURL ThumbURL ReleaseDate Runtime
  Score PreviewVideoURL PreviewVideoHLSURL.

(* ================================================================= *)
(** ** The xslist actor provider *)

(** [model.ActorSearchResult] *)
Module ActorSearchResult.
Record t : Type := {
  ID : string;
  Name : string;
  Images : list string;
  Provider : string;
  Homepage : string
}.
End ActorSearchResult.

Module XsList.
Section Provider.
Context {E : Env}.
Local Open Scope string_scope.

(** The fields of [model.ActorInfo] the provider writes. *)
Record ActorInfo : Type := {
  ID : string;
  Name : string;
  Provider : string;
  Homepage : string;
  Aliases : list string;
  Images : list string;
  Birthday : time_Time;
  Measurements : string;
  CupSize : string;
  DebutDate : time_Time;
  BloodType : string;
  Height : Z;
  Nationality : string
}.

Definition set_Name (v : string) (i : ActorInfo) : ActorInfo :=
  {| ID := ID i; Name := v; Provider := Provider i; Homepage := Homepage i;
     Aliases := Aliases i; Images := Images i; Birthday := Birthday i;
     Measurements := Measurements i; CupSize := CupSize i;
     DebutDate := DebutDate i; BloodType := BloodType i; Height := Height i;
     Nationality := Nationality i |}.

Definition set_Aliases (v : list string) (i : ActorInfo) : ActorInfo :=
  {| ID := ID i; Name := Name i; Provider := Provider i;
     Homepage := Homepage i; Aliases := v; Images := Images i;
     Birthday := Birthday i; Measurements := Measurements i;
     CupSize := CupSize i; DebutDate := DebutDate i;
     BloodType := BloodType i; Height := Height i;
     Nationality := Nationality i |}.

Definition set_Images (v : list string) (i : ActorInfo) : ActorInfo :=
  {| ID := ID i; Name := Name i; Provider := Provider i;
     Homepage := Homepage i; Aliases := Aliases i; Images := v;
     Birthday := Birthday i; Measurements := Measurements i;
     CupSize := CupSize i; DebutDate := DebutDate i;
     BloodType := BloodType i; Height := Height i;
     Nationality := Nationality i |}.

Definition set_Birthday (v : time_Time) (i : ActorInfo) : ActorInfo :=
  {| ID := ID i; Name := Name i; Provider := Provider i;
     Homepage := Homepage i; Aliases := Aliases i; Images := Images i;
     Birthday := v; Measurements := Measurements i; CupSize := CupSize i;
     DebutDate := DebutDate i; BloodType := BloodType i; Height := Height i;
     Nationality := Nationality i |}.

Definition set_Measurements (v : string) (i : ActorInfo) : ActorInfo :=
  {| ID := ID i; Name := Name i; Provider := Provider i;
     Homepage := Homepage i; Aliases := Aliases i; Images := Images i;
     Birthday := Birthday i; Measurements := v; CupSize := CupSize i;
     DebutDate := DebutDate i; BloodType := BloodType i; Height := Height i;
     Nationality := Nationality i |}.

Definition set_CupSize (v : string) (i : ActorInfo) : ActorInfo :=
  {| ID := ID i; Name := Name i; Provider := Provider i;
     Homepage := Homepage i; Aliases := Aliases i; Images := Images i;
     Birthday := Birthday i; Measurements := Measurements i; CupSize := v;
     DebutDate := DebutDate i; BloodType := BloodType i; Height := Height i;
     Nationality := Nationality i |}.

Definition set_DebutDate (v : time_Time) (i : ActorInfo) : ActorInfo :=
  {| ID := ID i; Name := Name i; Provider := Provider i;
     Homepage := Homepage i; Aliases := Aliases i; Images := Images i;
     Birthday := Birthday i; Measurements := Measurements i;
     CupSize := CupSize i; DebutDate := v; BloodType := BloodType i;
     Height := Height i; Nationality := Nationality i |}.

Definition set_BloodType (v : string) (i : ActorInfo) : ActorInfo :=
  {| ID := ID i; Name := Name i; Provider := Provider i;
     Homepage := Homepage i; Aliases := Aliases i; Images := Images i;
     Birthday := Birthday i; Measurements := Measurements i;
     CupSize := CupSize i; DebutDate := DebutDate i; BloodType := v;
     Height := Height i; Nationality := Nationality i |}.

Definition set_Height (v : Z) (i : ActorInfo) : ActorInfo :=
  {| ID := ID i; Name := Name i; Provider := Provider i;
     Homepage := Homepage i; Aliases := Aliases i; Images := Images i;
     Birthday := Birthday i; Measurements := Measurements i;
     CupSize := CupSize i; DebutDate := DebutDate i;
     BloodType := BloodType i; Height := v; Nationality := Nationality i |}.

Definition set_Nationality (v : string) (i : ActorInfo) : ActorInfo :=
  {| ID := ID i; Name := Name i; Provider := Provider i;
     Homepage := Homepage i; Aliases := Aliases i; Images := Images i;
     Birthday := Birthday i; Measurements := Measurements i;
     CupSize := CupSize i; DebutDate := DebutDate i;
     BloodType := BloodType i; Height := Height i; Nationality := v |}.

Definition name : string := "xslist".

(** [s[:len(s)-len(ext)]], which panics on a negative bound. *)
Definition cut_ext (s ext : string) : option string :=
  if (String.length ext <=? String.length s)%nat
  then Some (Str.take (String.length s - String.length ext) s)
  else None.

(** [^([\s\d]+)年([\s\d]+)月$] *)
Definition re_debut : re :=
  let sd := fun c => space c || digit c in
  cat [Bol; Cap 1 (Plus true sd); lit "年"; Cap 2 (Plus true sd); lit "月"; Eol].

Definition parseDebutDate (s : string) : time_Time :=
  let ss := FindStringSubmatch re_debut 2 s in
  if (length ss =? 3)%nat
  then time_Date (ParseInt (nth 1 ss "")) (ParseInt (nth 2 ss ""))
  else ParseDate s.

(** Name *)
Definition onName (e : Element) (info : ActorInfo) : ActorInfo :=
  set_Name (Text e) info.

(** Aliases *)
Definition onAlias (e : Element) (info : ActorInfo) : ActorInfo :=
  set_Aliases (Aliases info ++ [Text e])%list info.

(** Images *)
Definition onGallery (e : Element) (info : ActorInfo) : ActorInfo :=
  if Attr e "class" =? "profile_img" then info else
  let width := ParseInt (Attr e "data-width") in
  let height := ParseInt (Attr e "data-height") in
  if (width =? 0)%Z || (height =? 0)%Z then info else
  set_Images (Images info ++ [Attr e "href"])%list info.

(** One turn of the loop over the children of the profile paragraph. *)
Definition onTextNode (info : ActorInfo) (n : HtmlNode) : ActorInfo :=
  match Type_ n with
  | TextNode =>
      match Str.SplitN2 (Str.TrimSpace (Data n)) ":" with
      | [label; v] =>
          let v := Str.TrimSpace v in
          if is_empty v || (v =? "n/a") then info
          else if label =? "出生" then set_Birthday (ParseDate v) info
          else if label =? "三围" then set_Measurements (Str.ReplaceAll v " " "") info
          else if label =? "罩杯" then set_CupSize (Str.TrimSpace (Str.TrimSuffix v "Cup")) info
          else if label =? "出道日期" then set_DebutDate (parseDebutDate v) info
          else if label =? "血型" then set_BloodType v info
          else if label =? "身高" then set_Height (ParseInt (Str.TrimRight v "cm")) info
          else if label =? "国籍" then set_Nationality v info
          else info
      | _ => info
      end
  | _ => info
  end.

(** Fields: the type assertion [e.DOM.(html.Node)] panics on a node that
    is not an [html.Node]; the loop then runs over its children. *)
Definition onProfile (e : Element) (info : ActorInfo) : M ActorInfo :=
  match ChildNodes e with
  | Some children => ret (fold_left onTextNode children info)
  | None => panic
  end.

(** Height *)
Definition onHeight (e : Element) (info : ActorInfo) : ActorInfo :=
  set_Height (ParseInt (Str.TrimRight (Text e) "cm")) info.

(** Nationality *)
Definition onNationality (e : Element) (info : ActorInfo) : ActorInfo :=
  set_Nationality (Str.ReplaceAll (Text e) "n/a" "") info.

Definition pure {T : Type} (f : Element -> T -> T) : Element -> T -> M T :=
  fun e info => ret (f e info).

(** The callbacks, in the order [GetActorInfoByURL] registers them. *)
Definition callbacks : list (callback ActorInfo) :=
  [ ("//*[@id=" ++ quoted "sss1" ++ "]/header/h1/span", pure onName);
    ("//*[@id=" ++ quoted "sss1" ++ "]/p/span", pure onAlias);
    ("//*[@id=" ++ quoted "gallery" ++ "]/a", pure onGallery);
    ("//*[@id=" ++ quoted "layout" ++ "]/div/p[1]", onProfile);
    ("//span[@itemprop=" ++ quoted "height" ++ "]", pure onHeight);
    ("//span[@itemprop=" ++ quoted "nationality" ++ "]", pure onNationality) ].

(** The record before the visit. *)
Definition seed (id : string) (homepage : URL) : ActorInfo :=
  {| ID := id; Name := ""; Provider := name; Homepage := url_String homepage;
     Aliases := []; Images := []; Birthday := time_zero; Measurements := "";
     CupSize := ""; DebutDate := time_zero; BloodType := ""; Height := 0%Z;
     Nationality := "" |}.

Definition GetActorInfoByURL (u : string) : M (option ActorInfo * option error) :=
  match url_Parse u with
  | inl err => ret (None, Some err)
  | inr homepage =>
      let ext := Path.Ext (url_Path homepage) in
      match (if nonempty ext
             then option_map path_Base (cut_ext (url_Path homepage) ext)
             else Some "") with
      | None => panic
      | Some id =>
          let info := seed id homepage in
          r <- Visit callbacks (Homepage info) info ;;
          ret (Some (fst r), snd r)
      end
  end.

(** [fmt.Sprintf(actorURL, id)] *)
Definition actorURL (id : string) : string :=
  "https://xslist.org/zh/model/" ++ id ++ ".html".

Definition GetActorInfoByID (id : string) : M (option ActorInfo * option error) :=
  GetActorInfoByURL (actorURL id).

(** The callback of [SearchActor].  [url.Parse] returns a nil URL with
    its error, and reading [homepage.Path] then panics.  The local
    [name] hides the constant of the package from its declaration on. *)
Definition onListing (e : Element) (results : list ActorSearchResult.t)
  : M (list ActorSearchResult.t) :=
  match url_Parse (ChildAttr e ".//h3/a" "href") with
  | inl _ => panic
  | inr homepage =>
      let id := path_Base (url_Path homepage) in
      let ext := Path.Ext id in
      match (if nonempty ext then cut_ext id ext else Some id) with
      | None => panic
      | Some id =>
          (* Name *)
          let name := ChildAttr e ".//h3/a" "title" in
          let name :=
            match Str.SplitN2 name "-" with
            | [_; after] => Str.TrimSpace after
            | _ => name
            end in
          (* Images *)
          let img := ChildAttr e ".//div[1]/img" "src" in
          let images := if nonempty img then [AbsoluteURL e img] else [] in
          ret (results ++
               [ {| ActorSearchResult.ID := id;
                    ActorSearchResult.Name := name;
                    ActorSearchResult.Images := images;
                    ActorSearchResult.Provider := name;
                    ActorSearchResult.Homepage := url_String homepage |} ])%list
      end
  end.

(** [fmt.Sprintf(searchURL, q)] *)
Definition searchURL (q : string) : string :=
  "https://xslist.org/search?query=" ++ q ++ "&lg=zh".

Definition SearchActor (keyword : string)
  : M (list ActorSearchResult.t * option error) :=
  Visit [("//ul/li", onListing)] (searchURL (url_QueryEscape keyword)) [].

End Provider.
End XsList.

Arguments XsList.Build_ActorInfo {E} & ID Name Provider Homepage Aliases Images
  Birthday Measurements CupSize DebutDate BloodType Height Nationality.

(* ================================================================= *)
(** ** A document source for concrete runs *)

(** A small implementation of the collaborators, used to run the
    providers on concrete pages: documents are tables from queries to
    nodes, dates and scores are kept as their text, numbers are read in
    decimal, and JSON texts are parsed and decoded by the names of the
    fields, nested as the structs are. *)
Module Double.
Local Open Scope string_scope.

Record element : Type := {
  text : string;
  attrs : list (string * string);
  child_texts : list (string * list string);
  child_attrs : list (string * string * string);
  children : option (list HtmlNode);
  base : string
}.

Record response : Type := {
  body : string;
  url : string;
  nodes : list (string * list element)
}.

Fixpoint assoc {A : Type} (d : A) (k : string) (l : list (string * A)) : A :=
  match l with
  | [] => d
  | (k', v) :: l' => if k' =? k then v else assoc d k l'
  end.

Definition base_of (p : string) : string :=
  match Path.last_index Path.slash p with
  | Some n => Str.drop (S n) p
  | None => p
  end.

Definition dir_of (p : string) : string :=
  match Path.last_index Path.slash p with
  | Some n => Str.take n p
  | None => "."
  end.

(** The path of an absolute https URL, or the text itself. *)
Definition path_of (u : string) : string :=
  if prefix "https://" u then
    let r := Str.drop 8 u in
    match Str.cut r "/" with
    | Some (_, p) => "/" ++ p
    | None => ""
    end
  else u.

Fixpoint decimal (acc : Z) (s : string) : Z :=
  match s with
  | "" => acc
  | String c s' => decimal (10 * acc + Z.of_nat (nat_of_ascii c - 48)) s'
  end.

Definition parse_int (s : string) : Z :=
  if nonempty s && Str.all Str.is_digit s then decimal 0 s else 0%Z.

Unset Elimination Schemes.

(** JSON values, as far as the decoder tells them apart. *)
Inductive json : Type :=
| JString (s : string)
| JObject (members : list (string * json))
| JArray (items : list json)
| JOther (token : string).

Set Elimination Schemes.

Definition is_char (n : nat) (c : ascii) : bool := Ascii.eqb c (ascii_of_nat n).

Definition is_ws (c : ascii) : bool :=
  is_char 32 c || is_char 9 c || is_char 10 c || is_char 13 c.

Fixpoint skip_ws (s : string) : string :=
  match s with
  | String c s' => if is_ws c then skip_ws s' else s
  | "" => ""
  end.

(** The text of a string up to its closing quote, and what follows it;
    a backslash keeps the byte after it. *)
Fixpoint parse_string (s : string) : option (string * string) :=
  match s with
  | "" => None
  | String c s' =>
      if is_char 34 c then Some ("", s')
      else if is_char 92 c then
        match s' with
        | String d s'' =>
            match parse_string s'' with
            | Some (t, r) => Some (String d t, r)
            | None => None
            end
        | "" => None
        end
      else match parse_string s' with
           | Some (t, r) => Some (String c t, r)
           | None => None
           end
  end.

(** A number, [true], [false] or [null]: the bytes up to a delimiter. *)
Fixpoint parse_token (s : string) : string * string :=
  match s with
  | "" => ("", "")
  | String c s' =>
      if is_ws c || is_char 44 c || is_char 93 c || is_char 125 c then ("", s)
      else let (t, r) := parse_token s' in (String c t, r)
  end.

Fixpoint parse_value (fuel : nat) (s : string) : option (json * string) :=
  match fuel with
  | O => None
  | S fuel' =>
      match skip_ws s with
      | "" => None
      | String c s' =>
          if is_char 34 c then
            match parse_string s' with
            | Some (t, r) => Some (JString t, r)
            | None => None
            end
          else if is_char 123 c then
            match skip_ws s' with
            | String d r =>
                if is_char 125 d then Some (JObject [], r)
                else parse_members fuel' [] (String d r)
            | "" => None
            end
          else if is_char 91 c then
            match skip_ws s' with
            | String d r =>
                if is_char 93 d then Some (JArray [], r)
                else parse_items fuel' [] (String d r)
            | "" => None
            end
          else
            match parse_token (String c s') with
            | ("", _) => None
            | (t, r) => Some (JOther t, r)
            end
      end
  end
with parse_members (fuel : nat) (acc : list (string * json)) (s : string)
  : option (json * string) :=
  match fuel with
  | O => None
  | S fuel' =>
      match skip_ws s with
      | String c s' =>
          if is_char 34 c then
            match parse_string s' with
            | Some (k, r1) =>
                match skip_ws r1 with
                | String d r2 =>
                    if is_char 58 d then
                      match parse_value fuel' r2 with
                      | Some (v, r3) =>
                          match skip_ws r3 with
                          | String x r4 =>
                              if is_char 44 x
                              then parse_members fuel' ((k, v) :: acc) r4
                              else if is_char 125 x
                              then Some (JObject (rev ((k, v) :: acc)), r4)
                              else None
                          | "" => None
                          end
                      | None => None
                      end
                    else None
                | "" => None
                end
            | None => None
            end
          else None
      | "" => None
      end
  end
with parse_items (fuel : nat) (acc : list json) (s : string)
  : option (json * string) :=
  match fuel with
  | O => None
  | S fuel' =>
      match parse_value fuel' s with
      | Some (v, r) =>
          match skip_ws r with
          | String x r' =>
              if is_char 44 x then parse_items fuel' (v :: acc) r'
              else if is_char 93 x then Some (JArray (rev (v :: acc)), r')
              else None
          | "" => None
          end
      | None => None
      end
  end.

(** The members of the object a JSON text consists of. *)
Definition parse_object (js : string) : option (list (string * json)) :=
  match parse_value (S (String.length js)) js with
  | Some (JObject ms, r) => if is_empty (skip_ws r) then Some ms else None
  | _ => None
  end.

(** The value of the last member whose key is [k]. *)
Fixpoint find_member (k : string) (ms : list (string * json)) : option json :=
  match ms with
  | [] => None
  | (k', v) :: ms' =>
      match find_member k ms' with
      | Some w => Some w
      | None => if k' =? k then Some v else None
      end
  end.

(** A field of type string: the string of the member, nothing for a
    member that is absent or [null], an error for any other value. *)
Definition string_field (k : string) (ms : list (string * json)) : option string :=
  match find_member k ms with
  | None => Some ""
  | Some (JString t) => Some t
  | Some (JOther t) => if t =? "null" then Some "" else None
  | Some _ => None
  end.

(** A field of type struct: the members of the member. *)
Definition struct_field (k : string) (ms : list (string * json))
  : option (list (string * json)) :=
  match find_member k ms with
  | None => Some []
  | Some (JObject ms') => Some ms'
  | Some (JOther t) => if t =? "null" then Some [] else None
  | Some _ => None
  end.

Definition and_then {A B : Type} (x : option A) (f : A -> option B) : option B :=
  match x with
  | Some a => f a
  | None => None
  end.

(** The decoder of the JSON-LD struct, by the tags of its fields. *)
Definition unmarshal_ld (js : string) : option LdJson :=
  and_then (parse_object js) (fun ms =>
  and_then (string_field "name" ms) (fun name =>
  and_then (string_field "image" ms) (fun image =>
  and_then (string_field "description" ms) (fun description =>
  and_then (struct_field "releasedEvent" ms) (fun released =>
  and_then (string_field "startDate" released) (fun startDate =>
  and_then (struct_field "video" ms) (fun video =>
  and_then (string_field "duration" video) (fun duration =>
  and_then (string_field "actor" video) (fun actor =>
  and_then (string_field "provider" video) (fun provider =>
  and_then (struct_field "aggregateRating" ms) (fun rating =>
  and_then (string_field "ratingValue" rating) (fun ratingValue =>
  Some {| ld_Name := name;
          ld_Image := image;
          ld_Description := description;
          ld_ReleasedEvent_StartDate := startDate;
          ld_Video_Duration := duration;
          ld_Video_Actor := actor;
          ld_Video_Provider := provider;
          ld_AggregateRating_RatingValue := ratingValue |})))))))))))).

(** The decoder of the struct with the one field [full]. *)
Definition unmarshal_full (js : string) : option string :=
  and_then (parse_object js) (string_field "full").

Definition newline : string := Str.bytes [10].

(** The last line of a playlist that starts with the [#EXTM3U] tag. *)
Definition media_uri (b : string) : option string :=
  if prefix "#EXTM3U" b
  then match Path.last_index (ascii_of_nat 10) b with
       | Some n => Some (Str.drop (S n) b)
       | None => None
       end
  else None.

Definition env (world : nat -> string -> string + response) : Env :=
  {| error := string;
     time_Time := string;
     time_zero := "";
     Float := string;
     zero_Float := "";
     URL := string;
     Element := element;
     Response := response;
     url_Parse := fun u => if prefix ":" u then inl "missing protocol scheme" else inr u;
     url_Path := path_of;
     url_String := fun u => u;
     url_QueryEscape := fun s => s;
     path_Base := base_of;
     path_Dir := dir_of;
     time_Date := fun y m => "";
     ParseDate := fun s => s;
     ParseRuntime := parse_int;
     ParseScore := fun s => s;
     ParseInt := parse_int;
     json_Unmarshal_ld := unmarshal_ld;
     json_Unmarshal_full := unmarshal_full;
     ParseMediaURI := media_uri;
     visit := world;
     Body := body;
     Request_URL_String := url;
     selectNodes := fun r q => assoc [] q (nodes r);
     Text := text;
     Attr := fun e k => assoc "" k (attrs e);
     ChildText := fun e q => hd "" (assoc [] q (child_texts e));
     ChildTexts := fun e q => assoc [] q (child_texts e);
     ChildAttr := fun e q k =>
       assoc "" k (map (fun x => (snd (fst x), snd x))
                       (filter (fun x => fst (fst x) =? q) (child_attrs e)));
     AbsoluteURL := fun e u => if prefix "https://" u then u else base e ++ u;
     ChildNodes := children |}.

(** A node with text only. *)
Definition node (t : string) : element :=
  {| text := t; attrs := []; child_texts := []; child_attrs := [];
     children := Some []; base := "https://www.heyzo.com" |}.

(** A row of the details table. *)
Definition row (label value : string) : element :=
  {| text := label ++ value; attrs := [];
     child_texts := [(".//td[1]", [label]); (".//td[2]", [value])];
     child_attrs := []; children := Some []; base := "https://www.heyzo.com" |}.

(** A page: its nodes by query. *)
Definition page (u : string) (l : list (string * list element)) : response :=
  {| body := ""; url := u; nodes := l |}.

End Double.

(* ================================================================= *)
(** ** Concrete pages *)

Module Scenario.
Import Double.
Local Open Scope string_scope.

Definition movie_url : string :=
  "https://www.heyzo.com/moviepages/1234/index.html".

(** The JSON-LD script of the movie page. *)
Definition ld_script : element :=
  node ("{" ++ quoted "name" ++ ":" ++ quoted "Structured Title" ++ ","
        ++ quoted "image" ++ ":" ++ quoted "/cover.jpg" ++ ","
        ++ quoted "releasedEvent" ++ ":{"
        ++ quoted "startDate" ++ ":" ++ quoted "2020-01-01" ++ "}}").

(** The script of the player. *)
Definition player_script : element :=
  node "var movieId = '55'; var siteID = '9'; var stream = '/x/'+siteID+'/y/'+movieId+'/z';".

Definition movie_page : response :=
  page movie_url
    [ ("//script[@type=" ++ quoted "application/ld+json" ++ "]", [ld_script]);
      ("//*[@id=" ++ quoted "movie" ++ "]/h1", [node "Heading Title"]);
      ("//table[@class=" ++ quoted "movieInfo" ++ "]/tbody/tr",
       [row "公開日" "2021-01-02"]);
      ("//ul[@class=" ++ quoted "tag-keyword-list" ++ "]",
       [ {| text := "AB"; attrs := []; child_texts := [(".//li/a", ["A"; "B"])];
            child_attrs := []; children := Some []; base := "https://www.heyzo.com" |} ]);
      ("//*[@id=" ++ quoted "playerContainer" ++ "]/script", [player_script]) ].

Definition manifest_url : string := "https://www.heyzo.com/x/9/y/55/z".

Definition manifest : response :=
  {| body := "#EXTM3U" ++ newline ++ "/sample/7/8/ts.foo.m3u8";
     url := manifest_url; nodes := [] |}.

(** The site answers for the page and for the manifest. *)
Definition site_up (n : nat) (u : string) : string + response :=
  if u =? movie_url then inr movie_page
  else if u =? manifest_url then inr manifest
  else inl "404 Not Found".

(** The site answers the first request only. *)
Definition manifest_down (n : nat) (u : string) : string + response :=
  match n with
  | O => if u =? movie_url then inr movie_page else inl "404 Not Found"
  | S _ => inl "timeout"
  end.

(** The site does not answer. *)
Definition site_down (n : nat) (u : string) : string + response :=
  inl "connection refused".

Definition actor_url : string := "https://xslist.org/zh/model/1.html".

(** The profile paragraph: two lines of free text around a break. *)
Definition profile : element :=
  {| text := ""; attrs := []; child_texts := []; child_attrs := [];
     children := Some [ {| Type_ := TextNode; Data := "身高: 160cm" |};
                        {| Type_ := ElementNode; Data := "br" |};
                        {| Type_ := TextNode; Data := "国籍: 日本" |} ];
     base := "https://xslist.org" |}.

Definition actor_page : response :=
  page actor_url
    [ ("//*[@id=" ++ quoted "layout" ++ "]/div/p[1]", [profile]);
      ("//span[@itemprop=" ++ quoted "height" ++ "]", [node "150cm"]) ].

Definition actor_site (n : nat) (u : string) : string + response :=
  if u =? actor_url then inr actor_page else inl "404 Not Found".

Definition search_url : string := "https://xslist.org/search?query=jane&lg=zh".

(** A listing of the search page. *)
Definition listing : element :=
  {| text := ""; attrs := []; child_texts := [];
     child_attrs := [ (".//h3/a", "href", "https://xslist.org/zh/model/1.html");
                      (".//h3/a", "title", "1 - Jane Doe") ];
     children := Some []; base := "https://xslist.org" |}.

Definition search_site (n : nat) (u : string) : string + response :=
  if u =? search_url then inr (page search_url [("//ul/li", [listing])])
  else inl "404 Not Found".

(** The record assembled from [movie_page] when the site is up. *)
Definition movie_record : @Heyzo.MovieInfo (env site_up) :=
  {| Heyzo.ID := "1234"; Heyzo.Number := "HEYZO-1234";
     Heyzo.Title := "Structured Title"; Heyzo.Summary := "";
     Heyzo.Provider := "HEYZO"; Heyzo.Homepage := movie_url;
     Heyzo.Maker := "HEYZO"; Heyzo.Series := ""; Heyzo.Actors := [];
     Heyzo.PreviewImages := []; Heyzo.Tags := ["A"; "B"];
     Heyzo.CoverURL := "https://www.heyzo.com/cover.jpg";
     Heyzo.ThumbURL := "https://www.heyzo.com/cover.jpg";
     Heyzo.ReleaseDate := "2021-01-02"; Heyzo.Runtime := 0%Z;
     Heyzo.Score := "";
     Heyzo.PreviewVideoURL := "https://www.heyzo.com/contents/7/8/foo";
     Heyzo.PreviewVideoHLSURL := manifest_url |}.

(** The record assembled from [movie_page] when the manifest is out of reach. *)
Definition movie_record_no_manifest : @Heyzo.MovieInfo (env manifest_down) :=
  {| Heyzo.ID := "1234"; Heyzo.Number := "HEYZO-1234";
     Heyzo.Title := "Structured Title"; Heyzo.Summary := "";
     Heyzo.Provider := "HEYZO"; Heyzo.Homepage := movie_url;
     Heyzo.Maker := "HEYZO"; Heyzo.Series := ""; Heyzo.Actors := [];
     Heyzo.PreviewImages := []; Heyzo.Tags := ["A"; "B"];
     Heyzo.CoverURL := "https://www.heyzo.com/cover.jpg";
     Heyzo.ThumbURL := "https://www.heyzo.com/cover.jpg";
     Heyzo.ReleaseDate := "2021-01-02"; Heyzo.Runtime := 0%Z;
     Heyzo.Score := "";
     Heyzo.PreviewVideoURL := ""; Heyzo.PreviewVideoHLSURL := "" |}.

(** The record assembled from [actor_page]. *)
Definition actor_record : @XsList.ActorInfo (env actor_site) :=
  {| XsList.ID := "1"; XsList.Name := ""; XsList.Provider := "xslist";
     XsList.Homepage := actor_url; XsList.Aliases := []; XsList.Images := [];
     XsList.Birthday := ""; XsList.Measurements := ""; XsList.CupSize := "";
     XsList.DebutDate := ""; XsList.BloodType := ""; XsList.Height := 150%Z;
     XsList.Nationality := "日本" |}.

(** The result built from [listing]. *)
Definition search_result : ActorSearchResult.t :=
  {| ActorSearchResult.ID := "1";
     ActorSearchResult.Name := "Jane Doe";
     ActorSearchResult.Images := [];
     ActorSearchResult.Provider := "Jane Doe";
     ActorSearchResult.Homepage := "https://xslist.org/zh/model/1.html" |}.

End Scenario.

(* ================================================================= *)
(** ** More concrete pages *)

Module Pages.
Import Double.
Import Scenario.
Local Open Scope string_scope.

(** A movie page whose only node is a heading of white space. *)
Definition blank_heading_page : response :=
  page movie_url [ ("//*[@id=" ++ quoted "movie" ++ "]/h1", [node "  "]) ].

Definition blank_heading_site (n : nat) (u : string) : string + response :=
  if u =? movie_url then inr blank_heading_page else inl "404 Not Found".

(** A movie page without any node. *)
Definition empty_page : response := page movie_url [].

Definition empty_site (n : nat) (u : string) : string + response :=
  if u =? movie_url then inr empty_page else inl "404 Not Found".

(** The script of the sample images: one quoted path on each line. *)
Definition images_script : element :=
  node ("var images = [" ++ newline
        ++ quoted "/contents/3000/1234/gallery/001.jpg" ++ "," ++ newline
        ++ quoted "/contents/3000/1234/gallery/002.jpg" ++ newline ++ "];").

Definition images_page : response :=
  page movie_url
    [ ("//*[@id=" ++ quoted "movie" ++ "]/h1", [node "Heading  Title"]);
      ("//div[@class=" ++ quoted "sample-images yoxview" ++ "]/script",
       [images_script]) ].

Definition images_site (n : nat) (u : string) : string + response :=
  if u =? movie_url then inr images_page else inl "404 Not Found".

(** The record assembled from [images_page]. *)
Definition images_record : @Heyzo.MovieInfo (env images_site) :=
  {| Heyzo.ID := "1234"; Heyzo.Number := "HEYZO-1234";
     Heyzo.Title := "Heading"; Heyzo.Summary := "";
     Heyzo.Provider := "HEYZO"; Heyzo.Homepage := movie_url;
     Heyzo.Maker := "HEYZO"; Heyzo.Series := ""; Heyzo.Actors := [];
     Heyzo.PreviewImages :=
       [ "https://www.heyzo.com/contents/3000/1234/gallery/001.jpg";
         "https://www.heyzo.com/contents/3000/1234/gallery/002.jpg" ];
     Heyzo.Tags := [];
     Heyzo.CoverURL := ""; Heyzo.ThumbURL := "";
     Heyzo.ReleaseDate := ""; Heyzo.Runtime := 0%Z; Heyzo.Score := "";
     Heyzo.PreviewVideoURL := ""; Heyzo.PreviewVideoHLSURL := "" |}.

(** A link of the gallery. *)
Definition gallery_link (class width height href : string) : element :=
  {| text := "";
     attrs := [ ("class", class); ("data-width", width);
                ("data-height", height); ("href", href) ];
     child_texts := []; child_attrs := []; children := Some [];
     base := "https://xslist.org" |}.

(** An actor page with two aliases and a gallery of three links. *)
Definition gallery_page : response :=
  page actor_url
    [ ("//*[@id=" ++ quoted "sss1" ++ "]/p/span", [node "Jane"; node "J. Doe"]);
      ("//*[@id=" ++ quoted "gallery" ++ "]/a",
       [ gallery_link "profile_img" "100" "100" "/img/profile.jpg";
         gallery_link "" "800" "1200" "/img/1.jpg";
         gallery_link "" "0" "1200" "/img/2.jpg" ]) ].

Definition gallery_site (n : nat) (u : string) : string + response :=
  if u =? actor_url then inr gallery_page else inl "404 Not Found".

(** The record assembled from [gallery_page]. *)
Definition gallery_record : @XsList.ActorInfo (env gallery_site) :=
  {| XsList.ID := "1"; XsList.Name := ""; XsList.Provider := "xslist";
     XsList.Homepage := actor_url; XsList.Aliases := ["Jane"; "J. Doe"];
     XsList.Images := ["/img/1.jpg"];
     XsList.Birthday := ""; XsList.Measurements := ""; XsList.CupSize := "";
     XsList.DebutDate := ""; XsList.BloodType := ""; XsList.Height := 0%Z;
     XsList.Nationality := "" |}.

(** A listing whose link does not parse. *)
Definition broken_listing : element :=
  {| text := ""; attrs := []; child_texts := [];
     child_attrs := [ (".//h3/a", "href", ":broken");
                      (".//h3/a", "title", "2 - John Doe") ];
     children := Some []; base := "https://xslist.org" |}.

Definition broken_search_page : response :=
  page search_url [("//ul/li", [listing; broken_listing])].

Definition broken_search_site (n : nat) (u : string) : string + response :=
  if u =? search_url then inr broken_search_page else inl "404 Not Found".

(** The profile paragraph of a page that was served and parsed as XML:
    its node is not an HTML node. *)
Definition xml_paragraph : element :=
  {| text := "身高: 160cm"; attrs := []; child_texts := []; child_attrs := [];
     children := None; base := "https://xslist.org" |}.

Definition xml_actor_page : response :=
  page actor_url
    [ ("//*[@id=" ++ quoted "layout" ++ "]/div/p[1]", [xml_paragraph]) ].

Definition xml_actor_site (n : nat) (u : string) : string + response :=
  if u =? actor_url then inr xml_actor_page else inl "404 Not Found".

End Pages.

(* ================================================================= *)
(** ** Vocabulary of the statements *)

(** A text made of bytes of the class, and not empty. *)
Definition run_of (p : ascii -> bool) (t : string) : bool :=
  nonempty t && Str.all p t.

(** [s] starts with [w] up to the case of ASCII letters. *)
Definition has_prefix_fold (w s : string) : bool :=
  (Str.lower (Str.take (String.length w) s) =? Str.lower w)%string.

(** The grammar of identifiers: an optional prefix that is [heyzo-] in any
    case, then a non-empty string of digits, the numeric suffix. *)
Inductive ID_grammar : string -> string -> Prop :=
| ID_bare (d : string) :
    run_of digit d = true -> ID_grammar d d
| ID_prefixed (p d : string) :
    Str.lower p = "heyzo-" -> run_of digit d = true ->
    ID_grammar (p ++ d)%string d.
(** A media URI that contains [/sample/a/b/ts.c.m3u8], [a] and [b] being
    digit strings and [c] a non-empty fragment without a newline. *)
Definition sample_shape (uri a b c : string) : Prop :=
  exists pre post,
    uri = (pre ++ "/sample/" ++ a ++ "/" ++ b ++ "/ts." ++ c ++ ".m3u8" ++ post)%string
    /\ run_of digit a = true /\ run_of digit b = true /\ run_of dot c = true.
(** A callback keeps [P] when every run of it that returns does. *)
Definition keeps {E : Env} {T : Type} (P : T -> Prop) (f : Element -> T -> M T) : Prop :=
  forall e i reqs i' reqs', P i -> f e i reqs = Done i' reqs' -> P i'.
(** The thumbnail is the cover. *)
Definition thumb_is_cover {E : Env} (i : Heyzo.MovieInfo) : Prop :=
  Heyzo.ThumbURL i = Heyzo.CoverURL i.

(** The fields that identify a movie record. *)
Definition movie_identity {E : Env} (i : Heyzo.MovieInfo)
  : string * string * string * string :=
  (Heyzo.ID i, Heyzo.Number i, Heyzo.Provider i, Heyzo.Homepage i).

(** A callback keeps [Q], a property of the record and of the calls of
    [Visit] so far, on the nodes [nodes] when every run of it on one of
    them that returns does. *)
Definition keeps_on {E : Env} {T : Type} (Q : T -> list string -> Prop)
  (nodes : list Element) (f : Element -> T -> M T) : Prop :=
  forall e i reqs i' reqs',
    In e nodes -> Q i reqs -> f e i reqs = Done i' reqs' -> Q i' reqs'.

(** Where a preview-video URL [u] that is not empty comes from, [resp]
    being the page, [before] the number of calls of [Visit] before that
    for the page, and [calls] all the calls of [Visit] at the end of the
    run.  Either a script of the page of type [text/javascript] contains
    [emvideo], the pattern [re_emvideo] matches its text, and [u] is its
    submatch resolved against the page; or a call of [Visit] after that
    for the page was answered by a manifest whose media URI contains
    [/sample/a/b/ts.c.m3u8], and [u] is the sample URL of [a], [b] and
    [c]. *)
Definition video_url_shape {E : Env} (resp : Response) (before : nat)
  (calls : list string) (u : string) : Prop :=
  (exists e,
      In e (selectNodes resp ("//script[@type=" ++ quoted "text/javascript" ++ "]")%string)
      /\ Str.Contains (Text e) "emvideo" = true
      /\ length (FindStringSubmatch Heyzo.re_emvideo 1 (Text e)) = 2
      /\ u = AbsoluteURL e (nth 1 (FindStringSubmatch Heyzo.re_emvideo 1 (Text e)) ""))
  \/ (exists n m r uri a b c,
        before < n
        /\ nth_error calls n = Some m
        /\ visit n m = inr r
        /\ ParseMediaURI (Body r) = Some uri
        /\ sample_shape uri a b c
        /\ u = Heyzo.sampleURL a b c).

(** The links of the gallery that are taken as images: not the profile
    image, and with a width and a height that are not zero. *)
Definition gallery_kept {E : Env} (e : Element) : bool :=
  negb (Attr e "class" =? "profile_img")%string
  && negb ((ParseInt (Attr e "data-width") =? 0)%Z
           || (ParseInt (Attr e "data-height") =? 0)%Z).

(** The identifier of the actor page at the path [p]: the base name of the
    path without its extension, and nothing when it has no extension. *)
Definition actor_id_of {E : Env} (p : string) : string :=
  if nonempty (Path.Ext p)
  then path_Base (Str.take (String.length p - String.length (Path.Ext p)) p)
  else "".

(** What a listing of the search page gives as a result: the parsed link
    as homepage, its base name without extension as identifier, the title
    of the link, or what follows its first hyphen, trimmed, as display
    name, and the image of the listing, if any, as only image. *)
Definition listing_gives {E : Env} (e : Element) (r : ActorSearchResult.t) : Prop :=
  exists homepage,
    url_Parse (ChildAttr e ".//h3/a" "href") = inr homepage
    /\ ActorSearchResult.Homepage r = url_String homepage
    /\ (ActorSearchResult.ID r ++ Path.Ext (path_Base (url_Path homepage)))%string
       = path_Base (url_Path homepage)
    /\ (Str.cut (ChildAttr e ".//h3/a" "title") "-" = None ->
        ActorSearchResult.Name r = ChildAttr e ".//h3/a" "title")
    /\ (forall a b, Str.cut (ChildAttr e ".//h3/a" "title") "-" = Some (a, b) ->
        ActorSearchResult.Name r = Str.TrimSpace b)
    /\ ActorSearchResult.Images r
       = (if nonempty (ChildAttr e ".//div[1]/img" "src")
          then [AbsoluteURL e (ChildAttr e ".//div[1]/img" "src")]
          else []).

(** [[\s\d]] *)
Definition space_or_digit (c : ascii) : bool := space c || digit c.

(** The children of the paragraphs, in document order; nothing when one
    of the paragraphs is not an HTML node. *)
Definition all_children {E : Env} (nodes : list Element) : option (list HtmlNode) :=
  fold_right (fun e rest =>
                match ChildNodes e, rest with
                | Some ns, Some rest' => Some (ns ++ rest')
                | _, _ => None
                end) (Some []) nodes.

(** The preview images one script of the sample images gives. *)
Definition script_images {E : Env} (e : Element) : list string :=
  map (fun sub => AbsoluteURL e (nth 1 sub ""))
      (FindAllStringSubmatch Heyzo.re_image 1 (Text e)).

(** The JSON-LD scripts that decode, decoded, in document order. *)
Definition decoded_scripts {E : Env} (nodes : list Element) : list LdJson :=
  flat_map (fun e => match json_Unmarshal_ld (Text e) with
                     | Some data => [data]
                     | None => []
                     end) nodes.

(** The covers of the JSON-LD scripts that decode: the image of each,
    resolved against the page, in document order. *)
Definition decoded_covers {E : Env} (nodes : list Element) : list string :=
  flat_map (fun e => match json_Unmarshal_ld (Text e) with
                     | Some data => [AbsoluteURL e (ld_Image data)]
                     | None => []
                     end) nodes.

(** The runtimes the scripts give, in document order: for each script
    that contains [o = {], where the pattern [re_o] matches and the object
    it assigns decodes, the runtime read off its member [full]. *)
Definition script_runtimes {E : Env} (nodes : list Element) : list Z :=
  flat_map (fun e =>
              if Str.Contains (Text e) "o = {" then
                let sub := FindStringSubmatch Heyzo.re_o 1 (Text e) in
                if (length sub =? 2)%nat then
                  match json_Unmarshal_full (nth 1 sub ""%string) with
                  | Some full => [ParseRuntime full]
                  | None => []
                  end
                else []
              else []) nodes.

(** The first string of a list that is not empty, and the empty string
    when there is none. *)
Definition first_nonempty (l : list string) : string := hd ""%string (filter nonempty l).

(** The rows of the details table whose first cell is [label]. *)
Definition rows_labelled {E : Env} (label : string) (rows : list Element)
  : list Element :=
  filter (fun e => (ChildText e ".//td[1]" =? label)%string) rows.

(** The entry a child of the profile paragraph holds: the label and the
    trimmed value of a text node [label:value] whose value is neither empty
    nor [n/a]. *)
Definition profile_entry (n : HtmlNode) : option (string * string) :=
  match Type_ n with
  | TextNode =>
      match Str.SplitN2 (Str.TrimSpace (Data n)) ":" with
      | [label; v] =>
          let v := Str.TrimSpace v in
          if is_empty v || (v =? "n/a")%string then None else Some (label, v)
      | _ => None
      end
  | _ => None
  end.

(** The values of the entries labelled [label], in document order. *)
Definition entry_values (label : string) (ns : list HtmlNode) : list string :=
  flat_map (fun n => match profile_entry n with
                     | Some (l, v) => if (l =? label)%string then [v] else []
                     | None => []
                     end) ns.


(* ================================================================= *)
(** ** Runs of the string functions *)

Example search_lazy :
  FindStringSubmatch
    (Cat (lit "a = '") (Cat (Cap 1 (Plus false dot)) (lit "';"))) 1
    "x; a = 'u';b';" = ["a = 'u';"; "u"].
Proof. reflexivity. Qed.

Example trim_space_ex : Str.TrimSpace "  Jane Doe	 " = "Jane Doe".
Proof. reflexivity. Qed.

Example fields_ex : Str.Fields " ab  c " = ["ab"; "c"].
Proof. reflexivity. Qed.

Example normalize_upper : Heyzo.NormalizeID "HEYZO-0001" = "0001".
Proof. reflexivity. Qed.

Example normalize_bare : Heyzo.NormalizeID "1234" = "1234".
Proof. reflexivity. Qed.

Example normalize_trailing : Heyzo.NormalizeID "heyzo-12a" = "".
Proof. reflexivity. Qed.

Example normalize_no_digits : Heyzo.NormalizeID "heyzo-" = "".
Proof. reflexivity. Qed.

Example stream_template :
  FindStringSubmatch Heyzo.re_stream 3
    "var stream = '/x/'+siteID+'/y/'+movieId+'/z';"
  = ["stream = '/x/'+siteID+'/y/'+movieId+'/z';"; "/x/"; "/y/"; "/z"].
Proof. reflexivity. Qed.

Example ext_of_page : Path.Ext "/zh/model/1.html" = ".html".
Proof. reflexivity. Qed.

Example ext_of_dir : Path.Ext "/a.b/c" = "".
Proof. reflexivity. Qed.

(* ================================================================= *)
(** ** Facts about byte strings *)

Section StrFacts.
Local Open Scope string_scope.

Lemma append_empty_r (s : string) : s ++ "" = s.
Proof. induction s as [|c s IH]; simpl; [reflexivity | now rewrite IH]. Qed.

Lemma append_assoc (a b c : string) : (a ++ b) ++ c = a ++ (b ++ c).
Proof. induction a as [|x a IH]; simpl; [reflexivity | now rewrite IH]. Qed.

Lemma take_drop (n : nat) (s : string) : Str.take n s ++ Str.drop n s = s.
Proof.
  revert s; induction n as [|n IH]; intros [|c s]; simpl; try reflexivity.
  now rewrite IH.
Qed.

Lemma take_app (a b : string) : Str.take (String.length a) (a ++ b) = a.
Proof. induction a as [|x a IH]; simpl; [now destruct b | now rewrite IH]. Qed.

Lemma drop_app (a b : string) : Str.drop (String.length a) (a ++ b) = b.
Proof. induction a as [|x a IH]; simpl; [now destruct b | exact IH]. Qed.

Lemma lower_length (s : string) : String.length (Str.lower s) = String.length s.
Proof. induction s as [|c s IH]; simpl; [reflexivity | now rewrite IH]. Qed.

Lemma digit_lower (c : ascii) : Str.is_digit c = true -> Str.to_lower c = c.
Proof.
  destruct c as [[] [] [] [] [] [] [] []]; try discriminate; reflexivity.
Qed.

Lemma digit_not_h (c : ascii) :
  Str.is_digit c = true -> Ascii.eqb c "h"%char = false.
Proof.
  destruct c as [[] [] [] [] [] [] [] []]; try discriminate; reflexivity.
Qed.
End StrFacts.

(* ================================================================= *)
(** ** Facts about the matcher *)

Section RegexpFacts.
Local Open Scope string_scope.

Lemma flat_map_none {A B : Type} (f : A -> list B) (l : list A) :
  Forall (fun x => f x = []%list) l -> flat_map f l = []%list.
Proof.
  induction 1 as [|x l Hx _ IH]; simpl; [reflexivity | now rewrite Hx, IH].
Qed.

(** The greedy repetition tries the whole text first when the whole text
    is in the class; every other attempt leaves a rest. *)
Lemma spans_greedy_shape (p : ascii -> bool) (t : string) :
  exists l,
    spans true p t = ((if run_of p t then [(t, "")] else []) ++ l)%list
    /\ Forall (fun x => snd x <> "") l.
Proof.
  induction t as [|c t IH]; simpl.
  - exists []%list. split; [reflexivity | constructor].
  - unfold run_of; simpl. destruct (p c) eqn:Hc; simpl.
    + destruct IH as [l [Hl Hrest]]. rewrite Hl.
      unfold run_of. destruct t as [|d t].
      * simpl in *. destruct l; [|discriminate].
        exists []%list. split; [reflexivity | constructor].
      * simpl (nonempty _). cbv iota beta. simpl (true && _).
        destruct (Str.all p (String d t)); simpl.
        -- eexists. split; [reflexivity|].
           apply Forall_app. split.
           ++ apply Forall_map. eapply Forall_impl; [|exact Hrest]. now simpl.
           ++ constructor; [discriminate | constructor].
        -- eexists. split; [reflexivity|].
           apply Forall_app. split.
           ++ apply Forall_map. eapply Forall_impl; [|exact Hrest]. now simpl.
           ++ constructor; [discriminate | constructor].
    + exists []%list. split; [reflexivity | constructor].
Qed.

(** A literal under [(?i)] matches the head of the text that equals it
    up to the case of ASCII letters. *)
Lemma to_lower_eqb (x c : ascii) (a b : string) :
  (String (Str.to_lower x) a =? String (Str.to_lower c) b)
  = Ascii.eqb (Str.to_lower x) (Str.to_lower c) && (a =? b).
Proof. reflexivity. Qed.

Lemma run_liti (w : string) : forall (b : bool) (s : string),
  run (liti w) b s
  = if has_prefix_fold w s
    then [(Str.take (String.length w) s, Str.drop (String.length w) s, [])]
    else [].
Proof.
  unfold has_prefix_fold.
  induction w as [|c w IH]; intros b s.
  - now destruct s.
  - destruct s as [|x s]; [reflexivity|].
    change (run (liti (String c w)) b (String x s))
      with (flat_map (fun x0 : result =>
                let '(m1, s1, c1) := x0 in
                map (fun y : result =>
                       let '(m2, s2, c2) := y in ((m1 ++ m2)%string, s2, (c1 ++ c2)%list))
                    (run (liti w) (b && is_empty m1) s1))
             (if Ascii.eqb (Str.to_lower x) (Str.to_lower c)
              then [(String x "", s, [])] else [])).
    simpl String.length. simpl Str.take. simpl Str.drop. simpl Str.lower.
    rewrite to_lower_eqb.
    destruct (Ascii.eqb (Str.to_lower x) (Str.to_lower c)); simpl; [|reflexivity].
    rewrite IH.
    destruct (Str.lower (Str.take (String.length w) s) =? Str.lower w); reflexivity.
Qed.

(** [(\d+)$]: the whole rest of the text, when it is a digit string. *)
Lemma run_digits_eol (i : nat) (p : ascii -> bool) (b : bool) (t : string) :
  run (Cat (Cap i (Plus true p)) (Cat Eol Eps)) b t
  = if run_of p t then [(t, "", [(i, t)])] else [].
Proof.
  simpl. destruct (spans_greedy_shape p t) as [l [Hl Hrest]]. rewrite Hl.
  rewrite !map_app, flat_map_app.
  rewrite (flat_map_none _ (map _ (map _ l))).
  - destruct (run_of p t); simpl; [|reflexivity].
    now rewrite !append_empty_r.
  - rewrite !Forall_map. eapply Forall_impl; [|exact Hrest].
    intros [m r] Hr; simpl in *. destruct r; [congruence | reflexivity].
Qed.

Lemma search_bol_inside (r : re) (s : string) :
  search (Cat Bol r) false s = None.
Proof. induction s as [|c s IH]; simpl; [reflexivity | exact IH]. Qed.
End RegexpFacts.

(* ================================================================= *)
(** ** The identifier normalizer *)

Section NormalizeID.
Local Open Scope string_scope.
Import Heyzo.

Lemma run_re_id (id : string) :
  run re_id true id
  = ((if has_prefix_fold "heyzo-" id && run_of digit (Str.drop 6 id)
      then [((Str.take 6 id ++ Str.drop 6 id)%string, "", [(1, Str.drop 6 id)])]
      else [])
     ++ (if run_of digit id then [(id, "", [(1, id)])] else []))%list.
Proof.
  change re_id
    with (Cat Bol (Cat (Opt (liti "heyzo-"))
                       (Cat (Cap 1 (Plus true digit)) (Cat Eol Eps)))).
  set (R := Cat (Cap 1 (Plus true digit)) (Cat Eol Eps)).
  change (run (Cat Bol (Cat (Opt (liti "heyzo-")) R)) true id)
    with (flat_map (fun x : result =>
                let '(m1, s1, c1) := x in
                map (fun y : result =>
                       let '(m2, s2, c2) := y in ((m1 ++ m2)%string, s2, (c1 ++ c2)%list))
                    (run (Cat (Opt (liti "heyzo-")) R) (true && is_empty m1) s1))
             [("", id, [])]).
  cbn [flat_map]. rewrite app_nil_r.
  change (run (Cat (Opt (liti "heyzo-")) R) (true && is_empty "") id)
    with (flat_map (fun x : result =>
                let '(m1, s1, c1) := x in
                map (fun y : result =>
                       let '(m2, s2, c2) := y in ((m1 ++ m2)%string, s2, (c1 ++ c2)%list))
                    (run R (true && is_empty m1) s1))
             (run (liti "heyzo-") true id ++ [("", id, [])])).
  rewrite flat_map_app, run_liti. cbn [flat_map]. rewrite app_nil_r.
  change (String.length "heyzo-") with 6.
  unfold R. rewrite !run_digits_eol.
  destruct (has_prefix_fold "heyzo-" id); cbn [flat_map andb].
  - rewrite run_digits_eol, app_nil_r.
    destruct (run_of digit (Str.drop 6 id)), (run_of digit id); reflexivity.
  - destruct (run_of digit id); reflexivity.
Qed.

(** What the normalizer computes, without the matcher. *)
Lemma NormalizeID_eq (id : string) :
  NormalizeID id
  = if has_prefix_fold "heyzo-" id && run_of digit (Str.drop 6 id)
    then Str.drop 6 id
    else if run_of digit id then id else "".
Proof.
  unfold NormalizeID, FindStringSubmatch.
  assert (Hs : search re_id true id
               = match run re_id true id with
                 | x :: _ => Some x
                 | [] => None
                 end).
  { destruct id as [|c id]; [reflexivity|].
    cbn [search]. destruct (run re_id true (String c id)); [|reflexivity].
    apply search_bol_inside. }
  rewrite Hs, run_re_id.
  destruct (has_prefix_fold "heyzo-" id && run_of digit (Str.drop 6 id));
    [reflexivity|].
  destruct (run_of digit id); reflexivity.
Qed.
End NormalizeID.

Section NormalizeIDSpec.
Local Open Scope string_scope.
Import Heyzo.

Lemma digits_no_prefix (d : string) :
  run_of digit d = true -> has_prefix_fold "heyzo-" d = false.
Proof.
  destruct d as [|c d]; [discriminate|].
  unfold run_of; simpl. intros H.
  apply andb_prop in H as [Hc _].
  unfold has_prefix_fold. simpl.
  fold (Str.is_digit c) in Hc.
  rewrite (digit_lower c Hc).
  change (Str.to_lower "h") with "h"%char.
  now rewrite (digit_not_h c Hc).
Qed.

Lemma prefix_fold_app (p d : string) :
  Str.lower p = "heyzo-" ->
  has_prefix_fold "heyzo-" (p ++ d) = true /\ Str.drop 6 (p ++ d) = d.
Proof.
  intros Hp.
  assert (Hlen : String.length p = 6)
    by (rewrite <- lower_length, Hp; reflexivity).
  unfold has_prefix_fold. change (String.length "heyzo-") with 6.
  rewrite <- Hlen, take_app, drop_app, Hp. split; reflexivity.
Qed.

Lemma NormalizeID_match (id d : string) :
  ID_grammar id d -> NormalizeID id = d.
Proof.
  intros H. rewrite NormalizeID_eq. destruct H as [d Hd | p d Hp Hd].
  - now rewrite (digits_no_prefix d Hd), Hd.
  - destruct (prefix_fold_app p d Hp) as [H1 H2]. now rewrite H1, H2, Hd.
Qed.

Lemma NormalizeID_sound (id : string) :
  NormalizeID id <> "" -> ID_grammar id (NormalizeID id).
Proof.
  rewrite NormalizeID_eq.
  destruct (has_prefix_fold "heyzo-" id) eqn:Hp; cbn [andb].
  - destruct (run_of digit (Str.drop 6 id)) eqn:Hd.
    + intros _. rewrite <- (take_drop 6 id) at 1.
      apply ID_prefixed; [|exact Hd].
      unfold has_prefix_fold in Hp. now apply String.eqb_eq in Hp.
    + destruct (run_of digit id) eqn:Hi; [|congruence].
      intros _. now apply ID_bare.
  - destruct (run_of digit id) eqn:Hi; [|congruence].
    intros _. now apply ID_bare.
Qed.

Lemma NormalizeID_digits (id : string) :
  NormalizeID id = "" \/ run_of digit (NormalizeID id) = true.
Proof.
  rewrite NormalizeID_eq.
  destruct (has_prefix_fold "heyzo-" id && run_of digit (Str.drop 6 id)) eqn:H.
  - right. now apply andb_prop in H.
  - destruct (run_of digit id) eqn:Hi; [now right | now left].
Qed.

(** C7: the normalizer returns the numeric suffix of an identifier of the
    grammar (an optional [heyzo-] prefix in any case, then digits, and
    nothing else), returns the empty string for every other input, never
    faults, being a total function, and maps [heyzo-1234] to [1234]. *)
Theorem NormalizeID_grammar (id : string) :
  (forall d, ID_grammar id d -> NormalizeID id = d)
  /\ ((forall d, ~ ID_grammar id d) -> NormalizeID id = "")
  /\ (NormalizeID id <> "" -> ID_grammar id (NormalizeID id))
  /\ NormalizeID "heyzo-1234" = "1234".
Proof.
  split; [|split; [|split]].
  - intros d. apply NormalizeID_match.
  - intros Hno. destruct (string_dec (NormalizeID id) "") as [H|H]; [exact H|].
    exfalso. exact (Hno _ (NormalizeID_sound id H)).
  - apply NormalizeID_sound.
  - reflexivity.
Qed.

Lemma NormalizeID_grammar_witness :
  ID_grammar "HeyZo-0042" "0042" /\ NormalizeID "HeyZo-0042" = "0042".
Proof.
  assert (H : ID_grammar "HeyZo-0042" "0042")
    by (apply (ID_prefixed "HeyZo-" "0042"); reflexivity).
  split; [exact H|].
  exact (proj1 (NormalizeID_grammar "HeyZo-0042") "0042" H).
Defined.

(** C8: normalizing twice is normalizing once, and the result is a
    function of the input. *)
Theorem NormalizeID_idempotent :
  (forall x, NormalizeID (NormalizeID x) = NormalizeID x)
  /\ (forall x y, x = y -> NormalizeID x = NormalizeID y).
Proof.
  split.
  - intros x. destruct (NormalizeID_digits x) as [H|H].
    + rewrite H. reflexivity.
    + apply NormalizeID_match, ID_bare, H.
  - intros x y H. now rewrite H.
Qed.

Lemma NormalizeID_idempotent_witness :
  NormalizeID (NormalizeID "heyzo-77") = NormalizeID "heyzo-77"
  /\ NormalizeID "heyzo-77" = NormalizeID "heyzo-77".
Proof.
  split.
  - exact (proj1 NormalizeID_idempotent "heyzo-77").
  - exact (proj2 NormalizeID_idempotent "heyzo-77" "heyzo-77" eq_refl).
Defined.
End NormalizeIDSpec.

(* ================================================================= *)
(** ** Which matches the matcher enumerates *)

Section RunMembership.
Local Open Scope string_scope.

Lemma in_run_Byte p b s m rest caps :
  In (m, rest, caps) (run (Byte p) b s)
  <-> exists x, s = String x rest /\ p x = true /\ m = String x "" /\ caps = []%list.
Proof.
  simpl. destruct s as [|x s]; [|destruct (p x) eqn:Hx]; simpl; split.
  - intros [].
  - intros [x [H _]]. discriminate.
  - intros [H|[]]. inversion H; subst. now exists x.
  - intros [y [H [_ [-> ->]]]]. inversion H; subst. now left.
  - intros [].
  - intros [y [H [Hy _]]]. inversion H; subst. congruence.
Qed.

Lemma in_run_Cat r1 r2 b s m rest caps :
  In (m, rest, caps) (run (Cat r1 r2) b s)
  <-> exists m1 s1 c1 m2 c2,
        In (m1, s1, c1) (run r1 b s)
        /\ In (m2, rest, c2) (run r2 (b && is_empty m1) s1)
        /\ m = m1 ++ m2 /\ caps = (c1 ++ c2)%list.
Proof.
  simpl. rewrite in_flat_map. split.
  - intros [[[m1 s1] c1] [H1 H2]]. apply in_map_iff in H2.
    destruct H2 as [[[m2 s2] c2] [Heq H2]]. inversion Heq; subst.
    now exists m1, s1, c1, m2, c2.
  - intros (m1 & s1 & c1 & m2 & c2 & H1 & H2 & -> & ->).
    exists (m1, s1, c1). split; [exact H1|].
    apply in_map_iff. now exists (m2, rest, c2).
Qed.

Lemma in_run_Cap i r b s m rest caps :
  In (m, rest, caps) (run (Cap i r) b s)
  <-> exists c, In (m, rest, c) (run r b s) /\ caps = ((i, m) :: c)%list.
Proof.
  simpl. rewrite in_map_iff. split.
  - intros [[[m' s'] c] [Heq H]]. inversion Heq; subst. now exists c.
  - intros [c [H ->]]. now exists (m, rest, c).
Qed.

Lemma in_spans g p s m rest :
  In (m, rest) (spans g p s) <-> run_of p m = true /\ s = m ++ rest.
Proof.
  revert m rest. induction s as [|c s IH]; intros m rest.
  - simpl. split; [intros [] | intros [Hm Hs]].
    destruct m; [discriminate Hm | discriminate Hs].
  - cbn [spans]. destruct (p c) eqn:Hc.
    + assert (Hlong : forall l,
                In (m, rest) (map (fun mt : string * string =>
                                     (String c (fst mt), snd mt)) l)
                <-> exists m', m = String c m' /\ In (m', rest) l).
      { intros l. rewrite in_map_iff. split.
        - intros [[m' r'] [Heq H]]. inversion Heq; subst. now exists m'.
        - intros [m' [-> H]]. now exists (m', rest). }
      assert (Hgoal : (In (m, rest) [(String c "", s)]
                       \/ exists m', m = String c m' /\ In (m', rest) (spans g p s))
                      <-> run_of p m = true /\ String c s = m ++ rest).
      { split.
        - intros [[H|[]] | [m' [-> H]]].
          + inversion H; subst. unfold run_of; simpl. now rewrite Hc.
          + apply IH in H as [Hm ->]. unfold run_of in *; simpl.
            rewrite Hc. apply andb_prop in Hm as [_ Hm]. now rewrite Hm.
        - intros [Hm Hs]. destruct m as [|x m]; [discriminate Hm|].
          inversion Hs; subst. destruct m as [|y m].
          + left. now left.
          + right. exists (String y m). split; [reflexivity|].
            apply IH. split; [|reflexivity].
            unfold run_of in *; simpl in *. now rewrite Hc in Hm. }
      destruct g.
      * rewrite in_app_iff, Hlong. rewrite <- Hgoal. tauto.
      * cbn [In]. rewrite Hlong. rewrite <- Hgoal. cbn [In]. tauto.
    + simpl. split; [intros [] | intros [Hm Hs]].
      destruct m as [|x m]; [discriminate Hm|].
      inversion Hs; subst. unfold run_of in Hm; simpl in Hm.
      rewrite Hc in Hm. discriminate.
Qed.

Lemma in_run_Plus g p b s m rest caps :
  In (m, rest, caps) (run (Plus g p) b s)
  <-> run_of p m = true /\ s = m ++ rest /\ caps = []%list.
Proof.
  simpl. rewrite in_map_iff. split.
  - intros [[m' r'] [Heq H]]. inversion Heq; subst.
    apply in_spans in H. tauto.
  - intros (Hm & Hs & ->). exists (m, rest). split; [reflexivity|].
    now apply in_spans.
Qed.

Lemma in_run_Eps b s m rest caps :
  In (m, rest, caps) (run Eps b s) <-> m = "" /\ rest = s /\ caps = []%list.
Proof.
  simpl. split.
  - intros [H|[]]. now inversion H.
  - intros (-> & -> & ->). now left.
Qed.

Lemma in_run_lit w : forall b s m rest caps,
  In (m, rest, caps) (run (lit w) b s)
  <-> m = w /\ s = w ++ rest /\ caps = []%list.
Proof.
  induction w as [|c w IH]; intros b s m rest caps.
  - cbn [lit]. rewrite in_run_Eps. simpl. intuition congruence.
  - cbn [lit]. rewrite in_run_Cat. split.
    + intros (m1 & s1 & c1 & m2 & c2 & H1 & H2 & -> & ->).
      apply in_run_Byte in H1 as (x & -> & Hx & -> & ->).
      apply IH in H2 as (-> & -> & ->).
      apply Ascii.eqb_eq in Hx. subst x. now simpl.
    + intros (-> & -> & ->).
      exists (String c ""), (w ++ rest), []%list, w, []%list.
      split; [|split; [|now split]].
      * apply in_run_Byte. exists c. now rewrite Ascii.eqb_refl.
      * now apply IH.
Qed.

(** A successful search found a match of the pattern at some offset. *)
Lemma search_some r : forall b s x,
  search r b s = Some x ->
  exists pre t b', s = pre ++ t /\ In x (run r b' t).
Proof.
  intros b s; revert b. induction s as [|c s IH]; intros b x; cbn [search].
  - destruct (run r b "") as [|y l] eqn:Hrun; [discriminate|].
    intros H; inversion H; subst. exists "", "", b. rewrite Hrun. now split; [|left].
  - destruct (run r b (String c s)) as [|y l] eqn:Hrun.
    + intros H. apply IH in H as (pre & t & b' & -> & Hin).
      now exists (String c pre), t, b'.
    + intros H; inversion H; subst. exists "", (String c s), b.
      rewrite Hrun. now split; [|left].
Qed.

(** A failed search means no match at any offset. *)
Lemma search_none r : forall b s,
  search r b s = None ->
  forall pre t, s = pre ++ t -> run r (b && is_empty pre) t = []%list.
Proof.
  intros b s; revert b. induction s as [|c s IH]; intros b; cbn [search].
  - destruct (run r b "") eqn:Hrun; [|discriminate].
    intros _ pre t H. destruct pre; [|discriminate]. simpl in H. subst t.
    now rewrite andb_true_r.
  - destruct (run r b (String c s)) eqn:Hrun; [|discriminate].
    intros H pre t Hs. destruct pre as [|x pre].
    + simpl in Hs. subst t. now rewrite andb_true_r.
    + inversion Hs; subst. rewrite andb_false_r.
      exact (IH false H pre t eq_refl).
Qed.

Lemma FindStringSubmatch_length r n s :
  FindStringSubmatch r n s = []%list
  \/ length (FindStringSubmatch r n s) = S n.
Proof.
  unfold FindStringSubmatch. destruct (search r true s) as [[[m t] c]|].
  - right. simpl. now rewrite length_map, length_seq.
  - now left.
Qed.
End RunMembership.

(* ================================================================= *)
(** ** The pattern of the sample URI *)

Section SamplePattern.
Local Open Scope string_scope.
Import Heyzo.

Ltac split_atom H :=
  lazymatch type of H with
  | In _ (run (lit _) _ _) =>
      apply in_run_lit in H; destruct H as (? & ? & ?); subst
  | In _ (run (Plus _ _) _ _) =>
      apply in_run_Plus in H; destruct H as (? & ? & ?); subst
  | In _ (run Eps _ _) =>
      apply in_run_Eps in H; destruct H as (? & ? & ?); subst
  | In _ (run (Cap _ _) _ _) =>
      let c := fresh "c" in
      apply in_run_Cap in H; destruct H as (c & H & ?); subst; split_atom H
  | In _ (run (Cat _ _) _ _) =>
      let H1 := fresh "H" in
      apply in_run_Cat in H;
      destruct H as (? & ? & ? & ? & ? & H1 & H & ? & ?); subst;
      split_atom H1; split_atom H
  end.

Lemma re_sample_sound bot t m rest caps :
  In (m, rest, caps) (run re_sample bot t) ->
  exists a b c,
    run_of digit a = true /\ run_of digit b = true /\ run_of dot c = true
    /\ t = "/sample/" ++ a ++ "/" ++ b ++ "/ts." ++ c ++ ".m3u8" ++ rest
    /\ caps = [(1, a); (2, b); (3, c)]%list.
Proof.
  unfold re_sample, cat. cbn [fold_right]. intros H. split_atom H.
  match goal with
  | Ha : run_of digit ?a = true, Hb : run_of digit ?b = true,
    Hc : run_of dot ?c = true |- _ => exists a, b, c
  end.
  repeat split; assumption || reflexivity.
Qed.

Ltac build_atom :=
  lazymatch goal with
  | |- In _ (run (lit _) _ _) =>
      apply in_run_lit; repeat split; reflexivity
  | |- In _ (run (Plus _ _) _ _) =>
      apply in_run_Plus; refine (conj _ (conj eq_refl eq_refl)); assumption
  | |- In _ (run Eps _ _) =>
      apply in_run_Eps; repeat split; reflexivity
  | |- In _ (run (Cap _ _) _ _) =>
      apply in_run_Cap; eexists; split; [build_atom | reflexivity]
  | |- In _ (run (Cat _ _) _ _) =>
      apply in_run_Cat; do 5 eexists;
      split; [build_atom | split; [build_atom | split; reflexivity]]
  end.

Lemma re_sample_complete bot a b c rest :
  run_of digit a = true -> run_of digit b = true -> run_of dot c = true ->
  exists m caps,
    In (m, rest, caps)
       (run re_sample bot
          ("/sample/" ++ a ++ "/" ++ b ++ "/ts." ++ c ++ ".m3u8" ++ rest)).
Proof.
  intros Ha Hb Hc. unfold re_sample, cat. cbn [fold_right].
  do 2 eexists. build_atom.
Qed.

(** The submatches are those of one decomposition of the URI. *)
Lemma find_sample_sound (uri : string) :
  length (FindStringSubmatch re_sample 3 uri) = 4 ->
  sample_shape uri (nth 1 (FindStringSubmatch re_sample 3 uri) "")
                   (nth 2 (FindStringSubmatch re_sample 3 uri) "")
                   (nth 3 (FindStringSubmatch re_sample 3 uri) "").
Proof.
  unfold FindStringSubmatch.
  destruct (search re_sample true uri) as [[[m rest] caps]|] eqn:Hs;
    [intros _ | discriminate].
  apply search_some in Hs as (pre & t & b' & -> & Hin).
  apply re_sample_sound in Hin as (a & b & c & Ha & Hb & Hc & -> & ->).
  exists pre, rest. now repeat split.
Qed.

(** A URI of the shape is matched. *)
Lemma find_sample_complete (uri a b c : string) :
  sample_shape uri a b c ->
  length (FindStringSubmatch re_sample 3 uri) = 4.
Proof.
  intros (pre & post & -> & Ha & Hb & Hc).
  destruct (FindStringSubmatch_length re_sample 3
              (pre ++ "/sample/" ++ a ++ "/" ++ b ++ "/ts." ++ c ++ ".m3u8" ++ post))
    as [Hnil | Hlen]; [exfalso | exact Hlen].
  unfold FindStringSubmatch in Hnil.
  destruct (search re_sample true _) as [[[m t] caps]|] eqn:Hs;
    [discriminate Hnil|].
  pose proof (search_none _ _ _ Hs pre _ eq_refl) as Hrun.
  destruct (re_sample_complete (true && is_empty pre) a b c post Ha Hb Hc)
    as (m & caps & Hin).
  rewrite Hrun in Hin. exact Hin.
Qed.
End SamplePattern.

(* ================================================================= *)
(** ** Facts about the collector *)

Section CollectorFacts.
Context {E : Env} {T : Type}.

Lemma each_node_pure (f : Element -> T -> T) nodes info reqs :
  each_node (fun e i => ret (f e i)) nodes info reqs
  = Done (fold_left (fun i e => f e i) nodes info) reqs.
Proof.
  revert info. induction nodes as [|e nodes IH]; intros info; simpl.
  - reflexivity.
  - unfold bind, ret at 1. apply IH.
Qed.

Lemma fold_left_frame {A : Type} (proj : T -> A) (f : Element -> T -> T) :
  (forall e i, proj (f e i) = proj i) ->
  forall nodes info, proj (fold_left (fun i e => f e i) nodes info) = proj info.
Proof.
  intros Hf nodes. induction nodes as [|e nodes IH]; intros info; simpl.
  - reflexivity.
  - now rewrite IH, Hf.
Qed.

Variable P : T -> Prop.

Lemma each_node_keeps f : keeps P f ->
  forall nodes i reqs i' reqs',
    P i -> each_node f nodes i reqs = Done i' reqs' -> P i'.
Proof.
  intros Hf nodes. induction nodes as [|e nodes IH]; intros i reqs i' reqs' Hi; simpl.
  - unfold ret. intros H; inversion H; subst. exact Hi.
  - unfold bind. destruct (f e i reqs) as [i1 reqs1|] eqn:H1; [|discriminate].
    apply IH. exact (Hf _ _ _ _ _ Hi H1).
Qed.

Lemma handleOnXML_keeps (cbs : list (callback T)) :
  Forall (fun cb => keeps P (snd cb)) cbs ->
  forall resp i reqs i' reqs',
    P i -> handleOnXML cbs resp i reqs = Done i' reqs' -> P i'.
Proof.
  induction 1 as [|[q f] cbs Hf _ IH]; intros resp i reqs i' reqs' Hi; simpl.
  - unfold ret. intros H; inversion H; subst. exact Hi.
  - unfold bind.
    destruct (each_node f (selectNodes resp q) i reqs) as [i1 reqs1|] eqn:H1;
      [|discriminate].
    apply IH. exact (each_node_keeps f Hf _ _ _ _ _ Hi H1).
Qed.

Lemma Visit_keeps (cbs : list (callback T)) :
  Forall (fun cb => keeps P (snd cb)) cbs ->
  forall u i reqs i' err reqs',
    P i -> Visit cbs u i reqs = Done (i', err) reqs' -> P i'.
Proof.
  intros Hcbs u i reqs i' err reqs' Hi. unfold Visit.
  destruct (visit (length reqs) u) as [e|resp].
  - intros H; inversion H; subst. exact Hi.
  - destruct (handleOnXML cbs resp i (reqs ++ [u])) as [i1 reqs1|] eqn:H1;
      [|discriminate].
    intros H; inversion H; subst.
    exact (handleOnXML_keeps cbs Hcbs _ _ _ _ _ Hi H1).
Qed.

Lemma keeps_pure (f : Element -> T -> T) :
  (forall e i, P i -> P (f e i)) -> keeps P (fun e i => ret (f e i)).
Proof.
  intros Hf e i reqs i' reqs' Hi H. unfold ret in H. inversion H; subst.
  now apply Hf.
Qed.

Variable Q : T -> list string -> Prop.

Lemma each_node_keeps_on f nodes : keeps_on Q nodes f ->
  forall i reqs i' reqs',
    Q i reqs -> each_node f nodes i reqs = Done i' reqs' -> Q i' reqs'.
Proof.
  induction nodes as [|e nodes IH]; intros Hf i reqs i' reqs' Hi; simpl.
  - unfold ret. intros H; injection H as <- <-. exact Hi.
  - unfold bind. destruct (f e i reqs) as [i1 reqs1|] eqn:H1; [|discriminate].
    apply IH.
    + intros e0 j r j' r' Hin. apply Hf. now right.
    + exact (Hf e i reqs i1 reqs1 (or_introl eq_refl) Hi H1).
Qed.

Lemma handleOnXML_keeps_on (cbs : list (callback T)) resp :
  Forall (fun cb => keeps_on Q (selectNodes resp (fst cb)) (snd cb)) cbs ->
  forall i reqs i' reqs',
    Q i reqs -> handleOnXML cbs resp i reqs = Done i' reqs' -> Q i' reqs'.
Proof.
  induction 1 as [|[q f] cbs Hf _ IH]; intros i reqs i' reqs' Hi; simpl.
  - unfold ret. intros H; injection H as <- <-. exact Hi.
  - unfold bind.
    destruct (each_node f (selectNodes resp q) i reqs) as [i1 reqs1|] eqn:H1;
      [|discriminate].
    apply IH. exact (each_node_keeps_on f _ Hf _ _ _ _ Hi H1).
Qed.

Lemma keeps_on_pure nodes (f : Element -> T -> T) :
  (forall e i reqs, In e nodes -> Q i reqs -> Q (f e i) reqs) ->
  keeps_on Q nodes (fun e i => ret (f e i)).
Proof.
  intros Hf e i reqs i' reqs' Hin Hi H. unfold ret in H.
  injection H as <- <-. now apply Hf.
Qed.
End CollectorFacts.

(* ================================================================= *)
(** ** The movie record: thumbnail and cover *)

Section ThumbCover.
Context {E : Env}.
Import Heyzo.
Local Open Scope string_scope.

Lemma onJSON_thumb e i : thumb_is_cover i -> thumb_is_cover (onJSON e i).
Proof.
  unfold thumb_is_cover, onJSON. intros H.
  destruct (json_Unmarshal_ld (Text e)) as [data|]; [|exact H].
  destruct (nonempty (ld_Video_Provider data)), (nonempty (ld_Video_Actor data));
    reflexivity.
Qed.

Lemma onTitle_thumb : keeps thumb_is_cover onTitle.
Proof.
  intros e i reqs i' reqs' H. unfold onTitle.
  destruct (is_empty (Title i)).
  - destruct (Str.Fields (Text e)); [discriminate|].
    intros Heq; inversion Heq; subst. exact H.
  - intros Heq; inversion Heq; subst. exact H.
Qed.

Lemma onSummary_thumb e i : thumb_is_cover i -> thumb_is_cover (onSummary e i).
Proof. unfold onSummary. now destruct (is_empty (Summary i)). Qed.

Lemma onImage_thumb e i : thumb_is_cover i -> thumb_is_cover (onImage e i).
Proof. unfold onImage. now destruct (is_empty (CoverURL i)). Qed.

Lemma onField_thumb e i : thumb_is_cover i -> thumb_is_cover (onField e i).
Proof.
  unfold onField. intros H.
  repeat match goal with |- context [if ?b then _ else _] => destruct b end;
    exact H.
Qed.

Lemma onTags_thumb e i : thumb_is_cover i -> thumb_is_cover (onTags e i).
Proof. now unfold onTags. Qed.

Lemma onScript_thumb e i : thumb_is_cover i -> thumb_is_cover (onScript e i).
Proof.
  unfold onScript. intros H.
  repeat match goal with
         | |- context [if ?b then _ else _] => destruct b
         | |- context [match json_Unmarshal_full ?x with _ => _ end] =>
             destruct (json_Unmarshal_full x)
         end; exact H.
Qed.

Lemma onManifest_thumb r i : thumb_is_cover i -> thumb_is_cover (onManifest r i).
Proof.
  unfold onManifest. intros H.
  destruct (ParseMediaURI (Body r)) as [uri|]; [|exact H].
  now destruct (length (FindStringSubmatch re_sample 3 uri) =? 4)%nat.
Qed.

(** The player callback leaves the record and issues no request, or
    visits one manifest link. *)
Lemma onPlayer_cases e (i : MovieInfo) reqs :
  onPlayer e i reqs = Done i reqs
  \/ exists u, onPlayer e i reqs = Visit_OnResponse onManifest u i reqs.
Proof.
  unfold onPlayer, ret.
  repeat match goal with
         | |- context [if ?b then _ else _] => destruct b
         end;
    first [ now left | right; eexists; reflexivity ].
Qed.

Lemma onPlayer_thumb : keeps thumb_is_cover onPlayer.
Proof.
  intros e i reqs i' reqs' H.
  destruct (onPlayer_cases e i reqs) as [-> | [u ->]].
  - intros Heq; inversion Heq; subst. exact H.
  - unfold Visit_OnResponse. destruct (visit (length reqs) u);
      intros Heq; inversion Heq; subst; [exact H | now apply onManifest_thumb].
Qed.

Lemma onImages_thumb e i : thumb_is_cover i -> thumb_is_cover (onImages e i).
Proof.
  unfold onImages. generalize (FindAllStringSubmatch re_image 1 (Text e)).
  intros l; revert i. induction l as [|sub l IH]; intros i H; simpl.
  - exact H.
  - apply IH. exact H.
Qed.

Lemma callbacks_thumb : Forall (fun cb => keeps thumb_is_cover (snd cb)) callbacks.
Proof.
  unfold callbacks, pure.
  repeat constructor; simpl;
    try (apply keeps_pure;
         first [ exact onJSON_thumb | exact onSummary_thumb | exact onImage_thumb
               | exact onField_thumb | exact onTags_thumb | exact onScript_thumb
               | exact onImages_thumb ]).
  - exact onTitle_thumb.
  - exact onPlayer_thumb.
Qed.

(** C10: in every record [GetMovieInfoByURL] returns, with or without an
    error, the thumbnail URL is the cover URL. *)
Theorem thumb_equals_cover (rawURL : string) (reqs reqs' : list string)
    (info : MovieInfo) (err : option error) :
  GetMovieInfoByURL rawURL reqs = Done (Some info, err) reqs' ->
  ThumbURL info = CoverURL info.
Proof.
  unfold GetMovieInfoByURL.
  destruct (ParseIDFromURL rawURL) as [e|id]; [discriminate|].
  unfold bind.
  destruct (Visit callbacks (Homepage (seed id rawURL)) (seed id rawURL) reqs)
    as [[i1 e1] reqs1|] eqn:HV; [|discriminate].
  unfold ret. intros H; inversion H; subst.
  refine (Visit_keeps thumb_is_cover callbacks callbacks_thumb _ _ _ _ _ _ _ HV).
  reflexivity.
Qed.
End ThumbCover.

(* ================================================================= *)
(** ** Nested resolution of the preview video *)

Section NestedResolution.
Context {E : Env}.
Import Heyzo.
Local Open Scope string_scope.

Lemma find_sample_example :
  FindStringSubmatch re_sample 3 "/sample/7/8/ts.foo.m3u8"
  = ["/sample/7/8/ts.foo.m3u8"; "7"; "8"; "foo"]%list.
Proof. vm_compute. reflexivity. Qed.

(** What the response callback does to the preview-video URL. *)
Lemma onManifest_video (r : Response) (info : MovieInfo) :
  PreviewVideoURL (onManifest r info)
  = match ParseMediaURI (Body r) with
    | Some uri =>
        let ss := FindStringSubmatch re_sample 3 uri in
        if (length ss =? 4)%nat
        then sampleURL (nth 1 ss "") (nth 2 ss "") (nth 3 ss "")
        else PreviewVideoURL info
    | None => PreviewVideoURL info
    end.
Proof.
  unfold onManifest. destruct (ParseMediaURI (Body r)) as [uri|]; [|reflexivity].
  cbv zeta. now destruct (length (FindStringSubmatch re_sample 3 uri) =? 4)%nat.
Qed.

(** C4: when the media URI of the manifest contains
    [/sample/<digits>/<digits>/ts.<fragment>.m3u8], the preview-video URL
    becomes the sample URL template filled with the two digit groups and
    the fragment of such an occurrence ([/sample/7/8/ts.foo.m3u8] gives
    7, 8 and foo); when it does not, the preview-video URL is kept. *)
Theorem manifest_sample_url (r : Response) (info : MovieInfo) (uri : string) :
  ParseMediaURI (Body r) = Some uri ->
  ((exists a b c, sample_shape uri a b c) ->
   exists a b c,
     sample_shape uri a b c
     /\ PreviewVideoURL (onManifest r info)
        = "https://www.heyzo.com/contents/" ++ a ++ "/" ++ b ++ "/" ++ c)
  /\ ((forall a b c, ~ sample_shape uri a b c) ->
      PreviewVideoURL (onManifest r info) = PreviewVideoURL info)
  /\ (uri = "/sample/7/8/ts.foo.m3u8" ->
      PreviewVideoURL (onManifest r info)
      = "https://www.heyzo.com/contents/7/8/foo").
Proof.
  intros Huri. rewrite onManifest_video, Huri. cbv zeta.
  split; [|split].
  - intros (a & b & c & Hshape).
    pose proof (find_sample_complete _ _ _ _ Hshape) as Hlen.
    rewrite Hlen. simpl (4 =? 4)%nat. cbv iota.
    exists (nth 1 (FindStringSubmatch re_sample 3 uri) ""),
           (nth 2 (FindStringSubmatch re_sample 3 uri) ""),
           (nth 3 (FindStringSubmatch re_sample 3 uri) "").
    split; [now apply find_sample_sound | reflexivity].
  - intros Hno.
    destruct (length (FindStringSubmatch re_sample 3 uri) =? 4)%nat eqn:Hlen;
      [|reflexivity].
    apply Nat.eqb_eq in Hlen. exfalso.
    exact (Hno _ _ _ (find_sample_sound uri Hlen)).
  - intros ->. rewrite find_sample_example. reflexivity.
Qed.

(** C5: whenever the fetch of the manifest is answered, the URL of that
    request becomes the HLS URL of the record, whatever the body of the
    answer is. *)
Theorem manifest_url_recorded :
  (forall (r : Response) (info : MovieInfo),
      PreviewVideoHLSURL (onManifest r info) = Request_URL_String r)
  /\ (forall (e : Element) (info info' : MovieInfo) (reqs : list string)
             (u : string) (r : Response),
         onPlayer e info reqs = Done info' (reqs ++ [u]) ->
         visit (length reqs) u = inr r ->
         PreviewVideoHLSURL info' = Request_URL_String r).
Proof.
  split.
  - intros r info. reflexivity.
  - intros e info info' reqs u r Hrun Hvisit.
    destruct (onPlayer_cases e info reqs) as [H | [u' H]]; rewrite H in Hrun.
    + inversion Hrun as [[Hi Hreqs]]. exfalso.
      apply (f_equal (@length string)) in Hreqs.
      rewrite length_app in Hreqs. simpl in Hreqs. lia.
    + unfold Visit_OnResponse in Hrun.
      assert (Hu : u' = u).
      { destruct (visit (length reqs) u'); inversion Hrun as [[Hi Hreqs]];
          apply app_inv_head in Hreqs; now inversion Hreqs. }
      subst u'. rewrite Hvisit in Hrun. inversion Hrun; subst. reflexivity.
Qed.

(** C9: when the script lacks the movie-id token, the site-id token or the
    stream template, the player callback returns the record as it was, and
    the list of requests as it was. *)
Theorem player_noop_without_tokens (e : Element) (info : MovieInfo) (reqs : list string) :
  Str.Contains (Text e) "movieId" = false
  \/ FindStringSubmatch re_movieId 1 (Text e) = []%list
  \/ FindStringSubmatch re_siteID 1 (Text e) = []%list
  \/ FindStringSubmatch re_stream 3 (Text e) = []%list ->
  onPlayer e info reqs = Done info reqs.
Proof.
  unfold onPlayer, ret.
  intros [H | [H | [H | H]]]; rewrite H; simpl.
  - reflexivity.
  - now destruct (Str.Contains (Text e) "movieId").
  - destruct (Str.Contains (Text e) "movieId"); simpl; [|reflexivity].
    now rewrite orb_true_r.
  - destruct (Str.Contains (Text e) "movieId"); simpl; [|reflexivity].
    now destruct (_ || _).
Qed.

(** A failed fetch of the manifest leaves the record as it was. *)
Lemma onPlayer_fetch_fails (e : Element) (info : MovieInfo) (reqs : list string) :
  (forall u, exists err, visit (length reqs) u = inl err) ->
  exists reqs',
    onPlayer e info reqs = Done info reqs'
    /\ (length reqs <= length reqs')%nat.
Proof.
  intros Hdown. destruct (onPlayer_cases e info reqs) as [H | [u H]]; rewrite H.
  - now exists reqs.
  - unfold Visit_OnResponse. destruct (Hdown u) as [err ->].
    exists (reqs ++ [u])%list. split; [reflexivity|].
    rewrite length_app. lia.
Qed.
End NestedResolution.

(* ================================================================= *)
(** ** Assembly when the manifest cannot be fetched *)

Section ManifestDown.
Context {E : Env}.
Import Heyzo.
Local Open Scope string_scope.

Lemma handleOnXML_app {T : Type} (cbs1 cbs2 : list (callback T)) resp i reqs :
  handleOnXML (cbs1 ++ cbs2) resp i reqs
  = match handleOnXML cbs1 resp i reqs with
    | Done i1 reqs1 => handleOnXML cbs2 resp i1 reqs1
    | Panicked => Panicked
    end.
Proof.
  revert i reqs. induction cbs1 as [|[q f] cbs1 IH]; intros i reqs; simpl.
  - reflexivity.
  - unfold bind. destruct (each_node f (selectNodes resp q) i reqs); [apply IH | reflexivity].
Qed.

Ltac frame :=
  intros;
  repeat match goal with
         | |- context [if ?b then _ else _] => destruct b
         | |- context [match json_Unmarshal_ld ?x with _ => _ end] =>
             destruct (json_Unmarshal_ld x)
         | |- context [match json_Unmarshal_full ?x with _ => _ end] =>
             destruct (json_Unmarshal_full x)
         end;
  reflexivity.

Lemma onJSON_media e i :
  PreviewVideoURL (onJSON e i) = PreviewVideoURL i
  /\ PreviewVideoHLSURL (onJSON e i) = PreviewVideoHLSURL i.
Proof. unfold onJSON. split; frame. Qed.

Lemma onSummary_media e i :
  PreviewVideoURL (onSummary e i) = PreviewVideoURL i
  /\ PreviewVideoHLSURL (onSummary e i) = PreviewVideoHLSURL i.
Proof. unfold onSummary. split; frame. Qed.

Lemma onImage_media e i :
  PreviewVideoURL (onImage e i) = PreviewVideoURL i
  /\ PreviewVideoHLSURL (onImage e i) = PreviewVideoHLSURL i.
Proof. unfold onImage. split; frame. Qed.

Lemma onField_media e i :
  PreviewVideoURL (onField e i) = PreviewVideoURL i
  /\ PreviewVideoHLSURL (onField e i) = PreviewVideoHLSURL i.
Proof. unfold onField. split; frame. Qed.

Lemma onTags_media e i :
  PreviewVideoURL (onTags e i) = PreviewVideoURL i
  /\ PreviewVideoHLSURL (onTags e i) = PreviewVideoHLSURL i.
Proof. unfold onTags. split; frame. Qed.

Lemma onScript_hls e i :
  PreviewVideoHLSURL (onScript e i) = PreviewVideoHLSURL i.
Proof. unfold onScript. frame. Qed.

Lemma onImages_media e i :
  PreviewVideoURL (onImages e i) = PreviewVideoURL i
  /\ PreviewVideoHLSURL (onImages e i) = PreviewVideoHLSURL i.
Proof.
  unfold onImages. generalize (FindAllStringSubmatch re_image 1 (Text e)).
  intros l; revert i. induction l as [|sub l IH]; intros i; simpl.
  - now split.
  - destruct (IH (set_PreviewImages
                    (PreviewImages i ++ [AbsoluteURL e (nth 1 sub "")])%list i))
      as [H1 H2].
    rewrite H1, H2. now split.
Qed.

(** The title callback returns on a heading that has a field. *)
Lemma each_node_onTitle nodes :
  Forall (fun e => Str.Fields (Text e) <> []%list) nodes ->
  forall i reqs,
  exists i',
    each_node onTitle nodes i reqs = Done i' reqs
    /\ PreviewVideoHLSURL i' = PreviewVideoHLSURL i.
Proof.
  induction 1 as [|e nodes He _ IH]; intros i reqs; simpl.
  - now exists i.
  - unfold bind, onTitle at 1.
    destruct (is_empty (Title i)).
    + destruct (Str.Fields (Text e)) as [|f fs]; [congruence|].
      unfold ret at 1.
      destruct (IH (set_Title f i) reqs) as [i' [H1 H2]].
      exists i'. now split.
    + unfold ret at 1. apply IH.
Qed.

Lemma each_node_onPlayer_down nodes : forall i reqs,
  (forall n u, (length reqs <= n)%nat -> exists err, visit n u = inl err) ->
  exists reqs',
    each_node onPlayer nodes i reqs = Done i reqs'
    /\ (length reqs <= length reqs')%nat.
Proof.
  induction nodes as [|e nodes IH]; intros i reqs Hdown; simpl.
  - now exists reqs.
  - unfold bind.
    destruct (onPlayer_fetch_fails e i reqs) as [reqs1 [H1 Hlen1]].
    { intros u. now apply Hdown. }
    rewrite H1.
    destruct (IH i reqs1) as [reqs2 [H2 Hlen2]].
    { intros n u Hn. apply Hdown. lia. }
    exists reqs2. split; [exact H2 | lia].
Qed.
End ManifestDown.

Section ManifestDownAssembly.
Context {E : Env}.
Import Heyzo.
Local Open Scope string_scope.

(** The callbacks registered before the player callback return, and do
    not write the HLS URL. *)
Lemma before_player_returns resp i reqs :
  Forall (fun e => Str.Fields (Text e) <> []%list)
         (selectNodes resp ("//*[@id=" ++ quoted "movie" ++ "]/h1")) ->
  exists before,
    handleOnXML (firstn 7 callbacks) resp i reqs = Done before reqs
    /\ PreviewVideoHLSURL before = PreviewVideoHLSURL i.
Proof.
  intros Htitle. unfold callbacks, pure. cbn [firstn handleOnXML]. unfold bind.
  rewrite each_node_pure.
  match goal with
  | |- context [each_node onTitle ?nodes ?i1 reqs] =>
      destruct (each_node_onTitle nodes Htitle i1 reqs) as [i2 [-> H2]]
  end.
  rewrite !each_node_pure. unfold ret.
  eexists. split; [reflexivity|].
  rewrite (fold_left_frame PreviewVideoHLSURL onScript onScript_hls).
  rewrite (fold_left_frame PreviewVideoHLSURL onTags (fun e i => proj2 (onTags_media e i))).
  rewrite (fold_left_frame PreviewVideoHLSURL onField (fun e i => proj2 (onField_media e i))).
  rewrite (fold_left_frame PreviewVideoHLSURL onImage (fun e i => proj2 (onImage_media e i))).
  rewrite (fold_left_frame PreviewVideoHLSURL onSummary (fun e i => proj2 (onSummary_media e i))).
  rewrite H2.
  apply (fold_left_frame PreviewVideoHLSURL onJSON (fun e i => proj2 (onJSON_media e i))).
Qed.

(** From the player callback on, with the manifest out of reach. *)
Lemma from_player_down resp before reqs :
  (forall n u, (length reqs <= n)%nat -> exists err, visit n u = inl err) ->
  exists info reqs',
    handleOnXML (skipn 7 callbacks) resp before reqs = Done info reqs'
    /\ PreviewVideoURL info = PreviewVideoURL before
    /\ PreviewVideoHLSURL info = PreviewVideoHLSURL before.
Proof.
  intros Hdown. unfold callbacks, pure. cbn [skipn handleOnXML]. unfold bind.
  match goal with
  | |- context [each_node onPlayer ?nodes before reqs] =>
      destruct (each_node_onPlayer_down nodes before reqs Hdown)
        as [reqs1 [-> _]]
  end.
  rewrite each_node_pure. unfold ret.
  do 2 eexists. split; [reflexivity | split].
  - apply (fold_left_frame PreviewVideoURL onImages (fun e i => proj1 (onImages_media e i))).
  - apply (fold_left_frame PreviewVideoHLSURL onImages (fun e i => proj2 (onImages_media e i))).
Qed.

(** C6: when the fetch of the manifest fails, the player callback returns
    the record as it was, so the preview-video URL keeps its value, and
    the assembly returns the record and no error: the record has the
    preview-video URL the earlier callbacks left, and no HLS URL.  (The
    title callback panics on a heading without a field, whatever the
    manifest does, hence the condition on the headings.) *)
Theorem assembly_survives_manifest_failure (rawURL id : string) (resp : Response) :
  ParseIDFromURL rawURL = inr id ->
  visit 0 rawURL = inr resp ->
  (forall n u, (1 <= n)%nat -> exists err, visit n u = inl err) ->
  Forall (fun e => Str.Fields (Text e) <> []%list)
         (selectNodes resp ("//*[@id=" ++ quoted "movie" ++ "]/h1")) ->
  (forall e i reqs, (1 <= length reqs)%nat ->
     exists reqs', onPlayer e i reqs = Done i reqs')
  /\ exists before info reqs,
       handleOnXML (firstn 7 callbacks) resp (seed id rawURL) [rawURL]
       = Done before [rawURL]
       /\ GetMovieInfoByURL rawURL [] = Done (Some info, None) reqs
       /\ PreviewVideoURL info = PreviewVideoURL before
       /\ PreviewVideoHLSURL info = "".
Proof.
  intros Hid Hvisit Hdown Htitle. split.
  - intros e i reqs Hlen.
    destruct (onPlayer_fetch_fails e i reqs) as [reqs' [H _]].
    + intros u. apply Hdown. exact Hlen.
    + now exists reqs'.
  - destruct (before_player_returns resp (seed id rawURL) [rawURL] Htitle)
      as [before [Hbefore Hhls]].
    destruct (from_player_down resp before [rawURL])
      as (info & reqs & Hafter & Hvideo & Hhls').
    { intros n u Hn. apply Hdown. exact Hn. }
    exists before, info, reqs.
    split; [exact Hbefore | split; [|split]].
    + unfold GetMovieInfoByURL. rewrite Hid. unfold bind, Visit.
      cbn [length Homepage seed]. rewrite Hvisit.
      replace callbacks with (firstn 7 callbacks ++ skipn 7 callbacks)%list
        by reflexivity.
      rewrite handleOnXML_app. cbn [app]. rewrite Hbefore, Hafter.
      reflexivity.
    + exact Hvideo.
    + rewrite Hhls', Hhls. reflexivity.
Qed.
End ManifestDownAssembly.

(* ================================================================= *)
(** ** Assembly when the page cannot be fetched *)

Section FetchError.
Context {E : Env}.
Local Open Scope string_scope.

Lemma drop_length_le (n : nat) (s : string) :
  (String.length (Str.drop n s) <= String.length s)%nat.
Proof.
  revert s. induction n as [|n IH]; intros [|c s]; simpl; try lia.
  specialize (IH s). lia.
Qed.

Lemma Ext_length_le (p : string) :
  (String.length (Path.Ext p) <= String.length p)%nat.
Proof.
  unfold Path.Ext, Path.final_element.
  destruct (Path.last_index Path.slash p) as [n|].
  - destruct (Path.last_index Path.period (Str.drop (S n) p)) as [k|].
    + pose proof (drop_length_le k (Str.drop (S n) p)).
      pose proof (drop_length_le (S n) p). lia.
    + simpl. lia.
  - destruct (Path.last_index Path.period p) as [k|].
    + apply drop_length_le.
    + simpl. lia.
Qed.

Lemma cut_ext_Ext (p : string) :
  XsList.cut_ext p (Path.Ext p)
  = Some (Str.take (String.length p - String.length (Path.Ext p)) p).
Proof.
  unfold XsList.cut_ext.
  destruct (String.length (Path.Ext p) <=? String.length p)%nat eqn:H;
    [reflexivity|].
  apply Nat.leb_gt in H. pose proof (Ext_length_le p). lia.
Qed.

(** C2, as the code has it: when the fetch of the page fails, the
    assembly returns the error of the fetch together with the record
    seeded with its defaults, which no callback has touched; it returns an
    error and no record when the URL does not parse. *)
Theorem fetch_error_returns_seed :
  (forall rawURL id err reqs,
      Heyzo.ParseIDFromURL rawURL = inr id ->
      visit (length reqs) rawURL = inl err ->
      Heyzo.GetMovieInfoByURL rawURL reqs
      = Done (Some (Heyzo.seed id rawURL), Some err) (reqs ++ [rawURL]))
  /\ (forall rawURL err reqs,
         Heyzo.ParseIDFromURL rawURL = inl err ->
         Heyzo.GetMovieInfoByURL rawURL reqs = Done (None, Some err) reqs)
  /\ (forall u homepage err reqs,
         url_Parse u = inr homepage ->
         visit (length reqs) (url_String homepage) = inl err ->
         exists id,
           XsList.GetActorInfoByURL u reqs
           = Done (Some (XsList.seed id homepage), Some err)
                  (reqs ++ [url_String homepage]))
  /\ (forall u err reqs,
         url_Parse u = inl err ->
         XsList.GetActorInfoByURL u reqs = Done (None, Some err) reqs).
Proof.
  split; [|split; [|split]].
  - intros rawURL id err reqs Hid Hvisit.
    unfold Heyzo.GetMovieInfoByURL. rewrite Hid. unfold bind, Visit.
    cbn [Heyzo.Homepage Heyzo.seed]. rewrite Hvisit. reflexivity.
  - intros rawURL err reqs Hid.
    unfold Heyzo.GetMovieInfoByURL. now rewrite Hid.
  - intros u homepage err reqs Hparse Hvisit.
    unfold XsList.GetActorInfoByURL. rewrite Hparse, cut_ext_Ext.
    match goal with
    | |- context [match ?x with Some _ => _ | None => _ end] =>
        assert (Hid : exists id, x = Some id)
          by (destruct (nonempty _); eexists; reflexivity)
    end.
    destruct Hid as [id ->]. exists id. unfold bind, Visit.
    cbn [XsList.Homepage XsList.seed]. rewrite Hvisit. reflexivity.
  - intros u err reqs Hparse.
    unfold XsList.GetActorInfoByURL. now rewrite Hparse.
Qed.
End FetchError.

(* ================================================================= *)
(** ** Fallback callbacks and overwriting callbacks *)

Ltac case_all :=
  repeat match goal with
         | |- context [if ?b then _ else _] => destruct b
         | |- context [match ?x with Some _ => _ | None => _ end] => destruct x
         end.

Section Overwrite.
Context {E : Env}.
Local Open Scope string_scope.

Lemma is_empty_false (s : string) : s <> "" -> is_empty s = false.
Proof. destruct s; [congruence | reflexivity]. Qed.

End Overwrite.

(* ================================================================= *)
(** ** The provider name of a search result *)

Section SearchProvider.
Context {E : Env}.
Local Open Scope string_scope.

(** Every listing yields one result, whose provider name is its display
    name. *)
Lemma onListing_provider e results reqs results' reqs' :
  XsList.onListing e results reqs = Done results' reqs' ->
  exists r,
    results' = (results ++ [r])%list
    /\ ActorSearchResult.Provider r = ActorSearchResult.Name r.
Proof.
  unfold XsList.onListing.
  destruct (url_Parse (ChildAttr e ".//h3/a" "href")) as [err|homepage];
    [discriminate|].
  destruct (if nonempty (Path.Ext (path_Base (url_Path homepage))) then _ else _)
    as [id|]; [|discriminate].
  unfold ret. intros H. injection H as H _. subst results'.
  eexists. split; reflexivity.
Qed.
End SearchProvider.

(* ================================================================= *)
(** ** Runs on concrete pages *)

Section Runs.
Import Scenario.
Local Open Scope string_scope.

(** C3: on a search page with the listing titled [1 - Jane Doe], the
    result carries [Jane Doe], its display name, as provider name, and
    not [xslist]. *)
Theorem search_result_provider_is_display_name :
  XsList.SearchActor (E := Double.env search_site) "jane" []
  = Done ([search_result], None) [search_url]
  /\ ActorSearchResult.Provider search_result = "Jane Doe"
  /\ ActorSearchResult.Provider search_result <> XsList.name.
Proof.
  split; [vm_compute; reflexivity | split; [reflexivity | discriminate]].
Qed.

(** With the site down, the assembly returns the seeded record together
    with the error of the fetch. *)
Lemma fetch_error_comes_with_record :
  visit (Env := Double.env site_down) 0 movie_url = inl "connection refused"
  /\ Heyzo.GetMovieInfoByURL (E := Double.env site_down) movie_url []
     = Done (Some (Heyzo.seed "1234" movie_url), Some "connection refused")
            [movie_url]
  /\ XsList.GetActorInfoByURL (E := Double.env site_down) actor_url []
     = Done (Some (XsList.seed (E := Double.env site_down) "1" actor_url),
             Some "connection refused")
            [actor_url]
  /\ ~ (forall info err reqs,
          Heyzo.GetMovieInfoByURL (E := Double.env site_down) movie_url []
          = Done (info, Some err) reqs ->
          info = None).
Proof.
  assert (H : Heyzo.GetMovieInfoByURL (E := Double.env site_down) movie_url []
              = Done (Some (Heyzo.seed "1234" movie_url), Some "connection refused")
                     [movie_url])
    by (vm_compute; reflexivity).
  split; [reflexivity | split; [exact H | split]].
  - vm_compute. reflexivity.
  - intros Hclaim. specialize (Hclaim _ _ _ H). discriminate.
Qed.
End Runs.

Section Witnesses.
Import Scenario.
Local Open Scope string_scope.

Lemma manifest_sample_url_witness :
  Heyzo.PreviewVideoURL
    (Heyzo.onManifest (E := Double.env site_up) manifest
       (Heyzo.seed "1234" movie_url))
  = "https://www.heyzo.com/contents/7/8/foo".
Proof.
  apply (proj2 (proj2 (manifest_sample_url (E := Double.env site_up) manifest
                         (Heyzo.seed "1234" movie_url)
                         "/sample/7/8/ts.foo.m3u8" eq_refl))).
  reflexivity.
Defined.

Lemma manifest_url_recorded_witness :
  Heyzo.PreviewVideoHLSURL
    (Heyzo.onManifest (E := Double.env site_up) manifest
       (Heyzo.seed "1234" movie_url))
  = manifest_url.
Proof.
  apply (proj2 (manifest_url_recorded (E := Double.env site_up))
           player_script (Heyzo.seed "1234" movie_url) _ [movie_url]
           manifest_url manifest).
  - vm_compute. reflexivity.
  - reflexivity.
Defined.

Lemma assembly_survives_manifest_failure_witness :
  exists before info reqs,
    handleOnXML (E := Double.env manifest_down) (firstn 7 Heyzo.callbacks)
      movie_page (Heyzo.seed "1234" movie_url) [movie_url]
    = Done before [movie_url]
    /\ Heyzo.GetMovieInfoByURL (E := Double.env manifest_down) movie_url []
       = Done (Some info, None) reqs
    /\ Heyzo.PreviewVideoURL info = Heyzo.PreviewVideoURL before
    /\ Heyzo.PreviewVideoHLSURL info = "".
Proof.
  apply (assembly_survives_manifest_failure (E := Double.env manifest_down)
           movie_url "1234" movie_page).
  - vm_compute. reflexivity.
  - reflexivity.
  - intros n u Hn. destruct n as [|n]; [lia|]. now exists "timeout".
  - repeat constructor. vm_compute. discriminate.
Defined.

Lemma player_noop_without_tokens_witness :
  Heyzo.onPlayer (E := Double.env site_up) (Double.node "var movieId = '55';")
    (Heyzo.seed "1234" movie_url) [movie_url]
  = Done (Heyzo.seed "1234" movie_url) [movie_url].
Proof.
  apply (player_noop_without_tokens (E := Double.env site_up)).
  right. right. left. vm_compute. reflexivity.
Defined.

Lemma thumb_equals_cover_witness :
  Heyzo.ThumbURL movie_record = Heyzo.CoverURL movie_record.
Proof.
  apply (thumb_equals_cover (E := Double.env site_up) movie_url []
           [movie_url; manifest_url] movie_record None).
  vm_compute. reflexivity.
Defined.

Lemma fetch_error_returns_seed_witness :
  Heyzo.GetMovieInfoByURL (E := Double.env site_down) movie_url []
  = Done (Some (Heyzo.seed "1234" movie_url), Some "connection refused")
         [movie_url].
Proof.
  apply (proj1 (fetch_error_returns_seed (E := Double.env site_down))
           movie_url "1234" "connection refused" []).
  - vm_compute. reflexivity.
  - reflexivity.
Defined.
End Witnesses.

(* ================================================================= *)
(** ** What every returned movie record satisfies *)

Section ReturnedRecord.
Context {E : Env}.
Import Heyzo.
Local Open Scope string_scope.

Variable P : MovieInfo -> Prop.
Hypothesis HJSON : forall e i, P i -> P (onJSON e i).
Hypothesis HTitle : forall t i, P i -> P (set_Title t i).
Hypothesis HSummary : forall e i, P i -> P (onSummary e i).
Hypothesis HImage : forall e i, P i -> P (onImage e i).
Hypothesis HField : forall e i, P i -> P (onField e i).
Hypothesis HTags : forall e i, P i -> P (onTags e i).
Hypothesis HScript : forall e i, P i -> P (onScript e i).
Hypothesis HManifest : forall r i, P i -> P (onManifest r i).
Hypothesis HImages : forall v i, P i -> P (set_PreviewImages v i).

Lemma onTitle_keeps : keeps P onTitle.
Proof.
  intros e i reqs i' reqs' Hi. unfold onTitle, ret, panic.
  destruct (is_empty (Title i)).
  - destruct (Str.Fields (Text e)) as [|f fs]; [discriminate|].
    intros H; injection H as H _. rewrite <- H. now apply HTitle.
  - intros H; injection H as H _. now rewrite <- H.
Qed.

Lemma onPlayer_keeps : keeps P onPlayer.
Proof.
  intros e i reqs i' reqs' Hi.
  destruct (onPlayer_cases e i reqs) as [-> | [u ->]].
  - intros H; injection H as H _. now rewrite <- H.
  - unfold Visit_OnResponse. destruct (visit (length reqs) u);
      intros H; injection H as H _; rewrite <- H; [exact Hi | now apply HManifest].
Qed.

Lemma onImages_keeps e i : P i -> P (onImages e i).
Proof.
  unfold onImages. generalize (FindAllStringSubmatch re_image 1 (Text e)).
  intros l; revert i. induction l as [|sub l IH]; intros i Hi; simpl.
  - exact Hi.
  - apply IH. now apply HImages.
Qed.

Lemma callbacks_keep : Forall (fun cb => keeps P (snd cb)) callbacks.
Proof.
  unfold callbacks, pure. repeat constructor; cbn [snd];
    first [ exact onTitle_keeps | exact onPlayer_keeps | apply keeps_pure ];
    first [ exact HJSON | exact HSummary | exact HImage | exact HField
          | exact HTags | exact HScript | exact onImages_keeps ].
Qed.

Lemma returned_record_keeps rawURL reqs reqs' info err :
  (forall id, ParseIDFromURL rawURL = inr id -> P (seed id rawURL)) ->
  GetMovieInfoByURL rawURL reqs = Done (Some info, err) reqs' ->
  P info.
Proof.
  intros Hseed. unfold GetMovieInfoByURL.
  destruct (ParseIDFromURL rawURL) as [e|id]; [discriminate|].
  unfold bind.
  destruct (Visit callbacks (Homepage (seed id rawURL)) (seed id rawURL) reqs)
    as [[i1 e1] reqs1|] eqn:HV; [|discriminate].
  unfold ret. cbn [fst snd]. intros H. injection H as H _ _. subst i1.
  exact (Visit_keeps P callbacks callbacks_keep _ _ _ _ _ _ (Hseed id eq_refl) HV).
Qed.
End ReturnedRecord.

Section ReturnedRecordFacts.
Context {E : Env}.
Import Heyzo.
Local Open Scope string_scope.

Lemma nonempty_true (s : string) : nonempty s = true -> s <> "".
Proof. destruct s; [discriminate | intros _ H; discriminate H]. Qed.

(** The callbacks never write the identifier, the number, the provider
    name or the homepage: every record [GetMovieInfoByURL] returns, with or
    without an error, carries the identifier parsed from the URL, the
    number [HEYZO-] followed by it, the provider name [HEYZO] and the URL
    it was asked for. *)
Theorem movie_identity_fixed rawURL reqs reqs' info err :
  GetMovieInfoByURL rawURL reqs = Done (Some info, err) reqs' ->
  exists id,
    ParseIDFromURL rawURL = inr id
    /\ ID info = id /\ Number info = "HEYZO-" ++ id
    /\ Provider info = "HEYZO" /\ Homepage info = rawURL.
Proof.
  intros Hrun.
  destruct (ParseIDFromURL rawURL) as [e|id] eqn:Hid.
  - unfold GetMovieInfoByURL in Hrun. rewrite Hid in Hrun. discriminate.
  - exists id. split; [reflexivity|].
    assert (H : movie_identity info = movie_identity (seed id rawURL)).
    { refine (returned_record_keeps
                (fun i => movie_identity i = movie_identity (seed id rawURL))
                _ _ _ _ _ _ _ _ _ rawURL reqs reqs' info err _ Hrun).
      - intros e i <-. unfold onJSON. case_all; reflexivity.
      - intros t i <-. reflexivity.
      - intros e i <-. unfold onSummary. case_all; reflexivity.
      - intros e i <-. unfold onImage. case_all; reflexivity.
      - intros e i <-. unfold onField. case_all; reflexivity.
      - intros e i <-. reflexivity.
      - intros e i <-. unfold onScript. case_all; reflexivity.
      - intros r i <-. unfold onManifest. case_all; reflexivity.
      - intros v i <-. reflexivity.
      - intros id' Hid'. rewrite Hid in Hid'. now injection Hid' as <-. }
    unfold movie_identity in H. cbn [seed ID Number Provider Homepage] in H.
    injection H as H1 H2 H3 H4. now repeat split.
Qed.

(** The maker of a returned record is never empty: it is [HEYZO] until a
    JSON-LD script names a provider, and an empty provider is not taken. *)
Theorem maker_never_empty rawURL reqs reqs' info err :
  GetMovieInfoByURL rawURL reqs = Done (Some info, err) reqs' ->
  Maker info <> "".
Proof.
  refine (returned_record_keeps (fun i => Maker i <> "")
            _ _ _ _ _ _ _ _ _ rawURL reqs reqs' info err _).
  - intros e i H. unfold onJSON.
    destruct (json_Unmarshal_ld (Text e)) as [data|]; [|exact H].
    destruct (nonempty (ld_Video_Provider data)) eqn:Hp.
    + apply nonempty_true in Hp.
      destruct (nonempty (ld_Video_Actor data)); exact Hp.
    + destruct (nonempty (ld_Video_Actor data)); exact H.
  - intros t i H. exact H.
  - intros e i H. unfold onSummary. case_all; exact H.
  - intros e i H. unfold onImage. case_all; exact H.
  - intros e i H. unfold onField. case_all; exact H.
  - intros e i H. exact H.
  - intros e i H. unfold onScript. case_all; exact H.
  - intros r i H. unfold onManifest. case_all; exact H.
  - intros v i H. exact H.
  - intros id _. discriminate.
Qed.

End ReturnedRecordFacts.

(* ================================================================= *)
(** ** Panics and requests of the movie assembly *)

Section AssemblyOutcomes.
Context {E : Env}.
Import Heyzo.
Local Open Scope string_scope.

Lemma rev_onto_nonempty (s acc : string) : acc <> "" -> Str.rev_onto s acc <> "".
Proof.
  revert acc. induction s as [|c s IH]; intros acc H; simpl.
  - exact H.
  - apply IH. discriminate.
Qed.

Lemma fields_fuel_nonempty (fuel : nat) : forall cur s,
  Forall (fun f => f <> "") (Str.fields_fuel fuel cur s).
Proof.
  assert (Hflush : forall cur,
             Forall (fun f => f <> "")
                    (match cur with "" => [] | _ => [Str.rev cur] end)%list).
  { intros [|c cur]; constructor; [|constructor].
    unfold Str.rev; simpl. apply rev_onto_nonempty. discriminate. }
  induction fuel as [|fuel IH]; intros cur s; simpl.
  - apply Hflush.
  - destruct (Str.space_prefix Str.space_runes s) as [n|].
    + apply Forall_app. split; [apply Hflush | apply IH].
    + destruct s as [|c s]; [apply Hflush | apply IH].
Qed.

(** [strings.Fields] returns no empty field. *)
Lemma Fields_nonempty (s : string) : Forall (fun f => f <> "") (Str.Fields s).
Proof. apply fields_fuel_nonempty. Qed.

Lemma each_node_onTitle_set nodes : forall i reqs,
  Title i <> "" -> each_node onTitle nodes i reqs = Done i reqs.
Proof.
  induction nodes as [|e nodes IH]; intros i reqs H; simpl.
  - reflexivity.
  - unfold bind, onTitle at 1. rewrite (is_empty_false _ H). unfold ret at 1.
    now apply IH.
Qed.

(** The title callback over the headings: only the first heading counts,
    and only when no title is set. *)
Lemma each_node_onTitle_run nodes i reqs :
  each_node onTitle nodes i reqs
  = if is_empty (Title i)
    then match nodes with
         | [] => Done i reqs
         | e :: _ =>
             match Str.Fields (Text e) with
             | [] => Panicked
             | f :: _ => Done (set_Title f i) reqs
             end
         end
    else Done i reqs.
Proof.
  destruct (is_empty (Title i)) eqn:Hempty.
  - destruct nodes as [|e nodes]; [reflexivity|].
    simpl. unfold bind, onTitle at 1. rewrite Hempty.
    pose proof (Fields_nonempty (Text e)) as Hf.
    destruct (Str.Fields (Text e)) as [|f fs]; [reflexivity|].
    unfold ret at 1. apply each_node_onTitle_set.
    inversion Hf; subst. assumption.
  - apply each_node_onTitle_set. destruct (Title i); [discriminate | discriminate].
Qed.

(** The player callback never panics, and issues at most one request for
    each node. *)
Lemma each_node_onPlayer_total nodes : forall i reqs,
  exists i' nested,
    each_node onPlayer nodes i reqs = Done i' (reqs ++ nested)
    /\ (length nested <= length nodes)%nat.
Proof.
  induction nodes as [|e nodes IH]; intros i reqs; simpl.
  - exists i, []%list. now rewrite app_nil_r.
  - unfold bind.
    assert (H1 : exists i1 n1, onPlayer e i reqs = Done i1 (reqs ++ n1)
                               /\ (length n1 <= 1)%nat).
    { destruct (onPlayer_cases e i reqs) as [H | [u H]]; rewrite H.
      - exists i, []%list. rewrite app_nil_r. split; [reflexivity | simpl; lia].
      - unfold Visit_OnResponse. destruct (visit (length reqs) u).
        + exists i, [u]. split; [reflexivity | simpl; lia].
        + eexists _, [u]. split; [reflexivity | simpl; lia]. }
    destruct H1 as (i1 & n1 & -> & Hn1).
    destruct (IH i1 (reqs ++ n1)%list) as (i' & n2 & -> & Hn2).
    exists i', (n1 ++ n2)%list. rewrite app_assoc. split; [reflexivity|].
    rewrite length_app. simpl. lia.
Qed.


Lemma before_player_panics resp i reqs :
  handleOnXML (firstn 7 callbacks) resp i reqs = Panicked
  <-> each_node onTitle
        (selectNodes resp ("//*[@id=" ++ quoted "movie" ++ "]/h1"))
        (fold_left (fun i e => onJSON e i)
           (selectNodes resp ("//script[@type=" ++ quoted "application/ld+json" ++ "]")) i)
        reqs
      = Panicked.
Proof.
  unfold callbacks, pure. cbn [firstn handleOnXML]. unfold bind.
  rewrite each_node_pure.
  destruct (each_node onTitle _ _ reqs) as [i2 r2|]; [|tauto].
  rewrite !each_node_pure. unfold ret. split; discriminate.
Qed.

(** From the player callback on, nothing panics. *)
Lemma from_player_run resp i reqs :
  exists i' nested,
    handleOnXML (skipn 7 callbacks) resp i reqs = Done i' (reqs ++ nested)
    /\ (length nested
        <= length (selectNodes resp ("//*[@id=" ++ quoted "playerContainer" ++ "]/script")))%nat.
Proof.
  unfold callbacks, pure. cbn [skipn handleOnXML]. unfold bind.
  match goal with
  | |- context [each_node onPlayer ?nodes i reqs] =>
      destruct (each_node_onPlayer_total nodes i reqs) as (i1 & nested & -> & Hlen)
  end.
  rewrite each_node_pure. unfold ret. now eexists _, nested.
Qed.

Lemma callbacks_split :
  callbacks = (firstn 7 callbacks ++ skipn 7 callbacks)%list.
Proof. reflexivity. Qed.

Lemma handleOnXML_callbacks_panics resp i reqs :
  handleOnXML callbacks resp i reqs = Panicked
  <-> handleOnXML (firstn 7 callbacks) resp i reqs = Panicked.
Proof.
  rewrite callbacks_split at 1. rewrite handleOnXML_app.
  destruct (handleOnXML (firstn 7 callbacks) resp i reqs) as [i1 r1|]; [|tauto].
  destruct (from_player_run resp i1 r1) as (i' & nested & -> & _).
  split; discriminate.
Qed.
End AssemblyOutcomes.

Section AssemblyOutcomeTheorems.
Context {E : Env}.
Import Heyzo.
Local Open Scope string_scope.

Lemma GetMovieInfoByURL_visited rawURL id resp reqs :
  ParseIDFromURL rawURL = inr id ->
  visit (length reqs) rawURL = inr resp ->
  GetMovieInfoByURL rawURL reqs
  = match handleOnXML callbacks resp (seed id rawURL) (reqs ++ [rawURL])%list with
    | Done info reqs' => Done (Some info, None) reqs'
    | Panicked => Panicked
    end.
Proof.
  intros Hid Hvisit. unfold GetMovieInfoByURL. rewrite Hid.
  unfold bind, Visit. cbn [Homepage seed]. rewrite Hvisit.
  now destruct (handleOnXML callbacks resp _ _).
Qed.

(** [GetMovieInfoByURL] panics in one case only: the page was fetched, no
    JSON-LD script has given a title, and the first heading of the page
    has no field (it is empty or white space), so that
    [strings.Fields(e.Text)[0]] is out of range. *)
Theorem assembly_panics_iff rawURL reqs :
  GetMovieInfoByURL rawURL reqs = Panicked
  <-> exists id resp e rest,
        ParseIDFromURL rawURL = inr id
        /\ visit (length reqs) rawURL = inr resp
        /\ Title (fold_left (fun i e => onJSON e i)
                    (selectNodes resp
                       ("//script[@type=" ++ quoted "application/ld+json" ++ "]"))
                    (seed id rawURL)) = ""
        /\ selectNodes resp ("//*[@id=" ++ quoted "movie" ++ "]/h1") = (e :: rest)%list
        /\ Str.Fields (Text e) = []%list.
Proof.
  destruct (ParseIDFromURL rawURL) as [err|id] eqn:Hid.
  { unfold GetMovieInfoByURL. rewrite Hid. split; [discriminate|].
    intros (id & resp & e & rest & H & _). discriminate. }
  destruct (visit (length reqs) rawURL) as [err|resp] eqn:Hvisit.
  { unfold GetMovieInfoByURL. rewrite Hid. unfold bind, Visit.
    cbn [Homepage seed]. rewrite Hvisit. split; [discriminate|].
    intros (id' & resp & e & rest & _ & H & _). discriminate. }
  rewrite (GetMovieInfoByURL_visited rawURL id resp reqs Hid Hvisit).
  assert (Hiff : handleOnXML callbacks resp (seed id rawURL) (reqs ++ [rawURL])%list
                 = Panicked
                 <-> exists e rest,
                       Title (fold_left (fun i e => onJSON e i)
                                (selectNodes resp
                                   ("//script[@type=" ++ quoted "application/ld+json" ++ "]"))
                                (seed id rawURL)) = ""
                       /\ selectNodes resp ("//*[@id=" ++ quoted "movie" ++ "]/h1")
                          = (e :: rest)%list
                       /\ Str.Fields (Text e) = []%list).
  { rewrite handleOnXML_callbacks_panics, before_player_panics,
      each_node_onTitle_run.
    destruct (Title _) as [|c t] eqn:Htitle; cbn [is_empty].
    - destruct (selectNodes resp ("//*[@id=" ++ quoted "movie" ++ "]/h1"))
        as [|e rest].
      + split; [discriminate | intros (e & rest & _ & H & _); discriminate].
      + destruct (Str.Fields (Text e)) as [|f fs] eqn:Hf.
        * split; [intros _ | reflexivity]. now exists e, rest.
        * split; [discriminate|].
          intros (e' & rest' & _ & H & Hf'). injection H as <- _.
          rewrite Hf in Hf'. discriminate.
    - split; [discriminate | intros (e & rest & H & _); discriminate]. }
  destruct (handleOnXML callbacks resp (seed id rawURL) (reqs ++ [rawURL])%list)
    as [info reqs'|].
  - split; [discriminate|].
    intros (id' & resp' & e & rest & Hid' & Hvisit' & H).
    injection Hid' as <-. injection Hvisit' as <-.
    assert (Hd : Done info reqs' = Panicked)
      by (apply Hiff; now exists e, rest).
    discriminate Hd.
  - split; [intros _ | reflexivity].
    destruct (proj1 Hiff eq_refl) as (e & rest & H).
    now exists id, resp, e, rest.
Qed.

End AssemblyOutcomeTheorems.

(* ================================================================= *)
(** ** Where the preview-video URL comes from *)

Section PreviewVideo.
Context {E : Env}.
Import Heyzo.
Local Open Scope string_scope.

Lemma video_url_shape_more resp before calls more u :
  video_url_shape resp before calls u ->
  video_url_shape resp before (calls ++ more)%list u.
Proof.
  intros [H | (n & m & r & uri & a & b & c & Hn & Hnth & H)]; [now left|].
  right. exists n, m, r, uri, a, b, c. split; [exact Hn | split; [|exact H]].
  rewrite nth_error_app1; [exact Hnth|].
  apply nth_error_Some. now rewrite Hnth.
Qed.

(** The preview-video URL of a returned record is empty, or it comes from
    the page that was fetched: it is the link of one of its scripts that
    contain [emvideo], or the sample URL made from the manifest that
    answered a later call of [Visit] of the same run. *)
Theorem preview_video_url_shape rawURL reqs reqs' info err :
  GetMovieInfoByURL rawURL reqs = Done (Some info, err) reqs' ->
  PreviewVideoURL info = ""
  \/ exists resp,
       visit (length reqs) rawURL = inr resp
       /\ video_url_shape resp (length reqs) reqs' (PreviewVideoURL info).
Proof.
  intros H.
  destruct (ParseIDFromURL rawURL) as [e|id] eqn:Hid.
  { unfold GetMovieInfoByURL in H. rewrite Hid in H. discriminate. }
  destruct (visit (length reqs) rawURL) as [e|resp] eqn:Hvisit.
  { unfold GetMovieInfoByURL in H. rewrite Hid in H. unfold bind, Visit in H.
    cbn [Homepage seed] in H. rewrite Hvisit in H. unfold ret in H.
    cbn [fst snd] in H. injection H as <- _ _. now left. }
  rewrite (GetMovieInfoByURL_visited rawURL id resp reqs Hid Hvisit) in H.
  destruct (handleOnXML callbacks resp _ _) as [i1 r1|] eqn:Hrun; [|discriminate].
  injection H as <- _ <-.
  set (Q := fun (i : MovieInfo) (calls : list string) =>
              length reqs < length calls
              /\ (PreviewVideoURL i = ""
                  \/ video_url_shape resp (length reqs) calls (PreviewVideoURL i))).
  assert (HQ : Q i1 r1).
  { refine (handleOnXML_keeps_on Q callbacks resp _ _ _ _ _ _ Hrun).
    - assert (Hpure : forall nodes (f : Element -> MovieInfo -> MovieInfo),
                 (forall e i, PreviewVideoURL (f e i) = PreviewVideoURL i) ->
                 keeps_on Q nodes (fun e i => ret (f e i))).
      { intros nodes f Hf. apply keeps_on_pure. intros e i calls _ Hi.
        unfold Q. now rewrite Hf. }
      unfold callbacks, pure.
      repeat apply Forall_cons; try apply Forall_nil; cbn [fst snd].
      + apply Hpure. intros e i. apply onJSON_media.
      + intros e i calls i' calls' _ Hi. unfold onTitle, ret, panic.
        destruct (is_empty (Title i)).
        * destruct (Str.Fields (Text e)) as [|f fs]; [discriminate|].
          intros H; injection H as <- <-. exact Hi.
        * intros H; injection H as <- <-. exact Hi.
      + apply Hpure. intros e i. apply onSummary_media.
      + apply Hpure. intros e i. apply onImage_media.
      + apply Hpure. intros e i. apply onField_media.
      + apply Hpure. intros e i. apply onTags_media.
      + apply keeps_on_pure. intros e i calls Hin [Hlen Hi].
        split; [exact Hlen|].
        assert (Hframe : forall j,
                   PreviewVideoURL
                     (if Str.Contains (Text e) "o = {" then
                        let sub := FindStringSubmatch re_o 1 (Text e) in
                        if (length sub =? 2)%nat then
                          match json_Unmarshal_full (nth 1 sub "") with
                          | Some full => set_Runtime (ParseRuntime full) j
                          | None => j
                          end
                        else j
                      else j)
                   = PreviewVideoURL j).
        { intros j. cbv zeta. case_all; reflexivity. }
        unfold onScript. rewrite Hframe.
        destruct (Str.Contains (Text e) "emvideo") eqn:Hc; [|exact Hi].
        cbv zeta.
        destruct (length (FindStringSubmatch re_emvideo 1 (Text e)) =? 2)%nat
          eqn:Hl; [|exact Hi].
        apply Nat.eqb_eq in Hl.
        right. left. exists e. now repeat split.
      + intros e i calls i' calls' _ [Hlen Hi].
        destruct (onPlayer_cases e i calls) as [-> | [u ->]].
        * intros H; injection H as <- <-. now split.
        * unfold Visit_OnResponse.
          assert (Hlen' : length reqs < length (calls ++ [u])%list).
          { rewrite length_app. cbn [length]. lia. }
          assert (Hi' : PreviewVideoURL i = ""
                        \/ video_url_shape resp (length reqs) (calls ++ [u])%list
                             (PreviewVideoURL i)).
          { destruct Hi as [Hi | Hi]; [now left | right].
            now apply video_url_shape_more. }
          destruct (visit (length calls) u) as [err'|r] eqn:Hv;
            intros H; injection H as <- <-; (split; [exact Hlen'|]);
            [exact Hi'|].
          rewrite onManifest_video.
          destruct (ParseMediaURI (Body r)) as [uri|] eqn:Huri; [|exact Hi'].
          cbv zeta.
          destruct (length (FindStringSubmatch re_sample 3 uri) =? 4)%nat eqn:Hl;
            [|exact Hi'].
          apply Nat.eqb_eq in Hl.
          right. right.
          exists (length calls), u, r, uri,
                 (nth 1 (FindStringSubmatch re_sample 3 uri) ""),
                 (nth 2 (FindStringSubmatch re_sample 3 uri) ""),
                 (nth 3 (FindStringSubmatch re_sample 3 uri) "").
          split; [exact Hlen|].
          split; [now rewrite nth_error_app2, Nat.sub_diag by lia|].
          split; [exact Hv|].
          split; [exact Huri|].
          split; [now apply find_sample_sound | reflexivity].
      + apply Hpure. intros e i. apply onImages_media.
    - split; [rewrite length_app; cbn [length]; lia | now left]. }
  destruct HQ as [_ [Hempty | Hshape]]; [now left | right].
  exists resp. now split.
Qed.
End PreviewVideo.

(* ================================================================= *)
(** ** Pages on which no query selects a node *)

Section Unmatched.
Context {E : Env}.
Local Open Scope string_scope.

Lemma handleOnXML_unmatched {T : Type} (cbs : list (callback T)) resp i reqs :
  Forall (fun cb => selectNodes resp (fst cb) = []%list) cbs ->
  handleOnXML cbs resp i reqs = Done i reqs.
Proof.
  induction 1 as [|[q f] cbs Hq _ IH]; simpl.
  - reflexivity.
  - simpl in Hq. rewrite Hq. simpl. unfold bind, ret. exact IH.
Qed.

(** There is no check that a page gave anything: when none of the queries
    of the callbacks selects a node of the fetched page, the assembly
    returns the record seeded with its defaults and no error, after one
    request.  This holds for the movie record and for the actor record. *)
Theorem unmatched_page_gives_seed :
  (forall rawURL id resp reqs,
      Heyzo.ParseIDFromURL rawURL = inr id ->
      visit (length reqs) rawURL = inr resp ->
      Forall (fun cb => selectNodes resp (fst cb) = []%list) Heyzo.callbacks ->
      Heyzo.GetMovieInfoByURL rawURL reqs
      = Done (Some (Heyzo.seed id rawURL), None) (reqs ++ [rawURL])%list)
  /\ (forall u homepage resp reqs,
         url_Parse u = inr homepage ->
         visit (length reqs) (url_String homepage) = inr resp ->
         Forall (fun cb => selectNodes resp (fst cb) = []%list) XsList.callbacks ->
         exists id,
           XsList.GetActorInfoByURL u reqs
           = Done (Some (XsList.seed id homepage), None)
                  (reqs ++ [url_String homepage])%list).
Proof.
  split.
  - intros rawURL id resp reqs Hid Hvisit Hnone.
    rewrite (GetMovieInfoByURL_visited rawURL id resp reqs Hid Hvisit).
    now rewrite (handleOnXML_unmatched _ _ _ _ Hnone).
  - intros u homepage resp reqs Hparse Hvisit Hnone.
    unfold XsList.GetActorInfoByURL. rewrite Hparse, cut_ext_Ext.
    match goal with
    | |- context [match ?x with Some _ => _ | None => _ end] =>
        assert (Hid : exists id, x = Some id)
          by (destruct (nonempty _); eexists; reflexivity)
    end.
    destruct Hid as [id ->]. exists id. unfold bind, Visit.
    cbn [XsList.Homepage XsList.seed]. rewrite Hvisit.
    now rewrite (handleOnXML_unmatched _ _ _ _ Hnone).
Qed.
End Unmatched.

(* ================================================================= *)
(** ** The actor assembly *)

Section ActorAssembly.
Context {E : Env}.
Import XsList.
Local Open Scope string_scope.

(** The profile callback over the paragraphs it is called on: a panic when
    one of them is not an HTML node, the loop over all their children
    otherwise. *)
Lemma each_node_onProfile nodes : forall i reqs,
  each_node onProfile nodes i reqs
  = match all_children nodes with
    | Some ns => Done (fold_left onTextNode ns i) reqs
    | None => Panicked
    end.
Proof.
  induction nodes as [|e nodes IH]; intros i reqs; cbn [each_node all_children fold_right].
  - reflexivity.
  - unfold bind, onProfile at 1. fold (all_children nodes).
    destruct (ChildNodes e) as [ns|]; [|reflexivity].
    unfold ret at 1. rewrite IH.
    destruct (all_children nodes) as [rest|]; [|reflexivity].
    now rewrite fold_left_app.
Qed.

Lemma all_children_none nodes :
  all_children nodes = None <-> Exists (fun e => ChildNodes e = None) nodes.
Proof.
  induction nodes as [|e nodes IH]; cbn [all_children fold_right].
  - split; [discriminate | intros H; inversion H].
  - fold (all_children nodes). split.
    + destruct (ChildNodes e) as [ns|] eqn:He; [|intros _; now left].
      destruct (all_children nodes) as [rest|]; [discriminate|].
      intros _. right. now apply IH.
    + intros H. inversion H as [? ? He | ? ? Hrest]; subst.
      * now rewrite He.
      * apply IH in Hrest. rewrite Hrest. now destruct (ChildNodes e).
Qed.

(** The callbacks of the actor page: only the profile callback can panic,
    and none calls [Visit]. *)
Lemma actor_callbacks_run resp i reqs :
  handleOnXML callbacks resp i reqs
  = match all_children
            (selectNodes resp ("//*[@id=" ++ quoted "layout" ++ "]/div/p[1]")) with
    | Some ns =>
        Done
          (fold_left (fun i e => onNationality e i)
             (selectNodes resp ("//span[@itemprop=" ++ quoted "nationality" ++ "]"))
          (fold_left (fun i e => onHeight e i)
             (selectNodes resp ("//span[@itemprop=" ++ quoted "height" ++ "]"))
          (fold_left onTextNode ns
          (fold_left (fun i e => onGallery e i)
             (selectNodes resp ("//*[@id=" ++ quoted "gallery" ++ "]/a"))
          (fold_left (fun i e => onAlias e i)
             (selectNodes resp ("//*[@id=" ++ quoted "sss1" ++ "]/p/span"))
          (fold_left (fun i e => onName e i)
             (selectNodes resp ("//*[@id=" ++ quoted "sss1" ++ "]/header/h1/span"))
             i))))))
          reqs
    | None => Panicked
    end.
Proof.
  unfold callbacks, pure. cbn [handleOnXML]. unfold bind.
  do 3 (rewrite each_node_pure; cbv beta iota).
  rewrite each_node_onProfile.
  destruct (all_children _) as [ns|]; [|reflexivity].
  do 2 (rewrite each_node_pure; cbv beta iota).
  reflexivity.
Qed.

(** The assembly of an actor record, once the URL is parsed. *)
Lemma GetActorInfoByURL_parsed u homepage reqs :
  url_Parse u = inr homepage ->
  GetActorInfoByURL u reqs
  = match visit (length reqs) (url_String homepage) with
    | inl err =>
        Done (Some (seed (actor_id_of (url_Path homepage)) homepage), Some err)
             (reqs ++ [url_String homepage])%list
    | inr resp =>
        match handleOnXML callbacks resp
                (seed (actor_id_of (url_Path homepage)) homepage)
                (reqs ++ [url_String homepage])%list with
        | Done info reqs' => Done (Some info, None) reqs'
        | Panicked => Panicked
        end
    end.
Proof.
  intros Hparse. unfold GetActorInfoByURL. rewrite Hparse, cut_ext_Ext.
  unfold actor_id_of.
  destruct (nonempty (Path.Ext (url_Path homepage))); cbn [option_map];
    unfold bind, Visit; cbn [Homepage seed];
    destruct (visit (length reqs) (url_String homepage)) as [err|resp];
    try reflexivity;
    now destruct (handleOnXML callbacks resp _ _).
Qed.

(** [GetActorInfoByURL] panics in one case only: the page was fetched and
    one of the profile paragraphs it selects is not an HTML node, so that
    the type assertion on [e.DOM] fails; the slice that cuts the extension
    off the path is always in range.  When it returns, it has called
    [Visit] at most once. *)
Theorem actor_assembly_panics_iff u reqs :
  (GetActorInfoByURL u reqs = Panicked
   <-> exists homepage resp,
         url_Parse u = inr homepage
         /\ visit (length reqs) (url_String homepage) = inr resp
         /\ Exists (fun e => ChildNodes e = None)
                   (selectNodes resp ("//*[@id=" ++ quoted "layout" ++ "]/div/p[1]")))
  /\ (forall r reqs',
         GetActorInfoByURL u reqs = Done r reqs' ->
         reqs' = reqs \/ exists h, reqs' = (reqs ++ [h])%list).
Proof.
  destruct (url_Parse u) as [err|homepage] eqn:Hparse.
  { unfold GetActorInfoByURL. rewrite Hparse. unfold ret. split.
    - split; [discriminate | intros (h & resp & H & _); discriminate].
    - intros r reqs' H. injection H as _ <-. now left. }
  rewrite (GetActorInfoByURL_parsed u homepage reqs Hparse).
  destruct (visit (length reqs) (url_String homepage)) as [err|resp] eqn:Hvisit.
  { split.
    - split; [discriminate | intros (h & resp & H & Hv & _)].
      injection H as <-. rewrite Hvisit in Hv. discriminate.
    - intros r reqs' H. injection H as _ <-. right. now eexists. }
  rewrite actor_callbacks_run.
  destruct (all_children _) as [ns|] eqn:Hns.
  - split.
    + split; [discriminate | intros (h & resp' & H & Hv & Hbad)].
      injection H as <-. rewrite Hvisit in Hv. injection Hv as <-.
      apply all_children_none in Hbad. rewrite Hns in Hbad. discriminate.
    + intros r reqs' H. injection H as _ <-. right. now eexists.
  - split; [|discriminate].
    split; [intros _ | reflexivity].
    exists homepage, resp. split; [reflexivity | split; [exact Hvisit|]].
    now apply all_children_none.
Qed.

Lemma onTextNode_frame {A : Type} (proj : ActorInfo -> A) :
  (forall v i, proj (set_Birthday v i) = proj i) ->
  (forall v i, proj (set_Measurements v i) = proj i) ->
  (forall v i, proj (set_CupSize v i) = proj i) ->
  (forall v i, proj (set_DebutDate v i) = proj i) ->
  (forall v i, proj (set_BloodType v i) = proj i) ->
  (forall v i, proj (set_Height v i) = proj i) ->
  (forall v i, proj (set_Nationality v i) = proj i) ->
  forall ns i, proj (fold_left onTextNode ns i) = proj i.
Proof.
  intros H1 H2 H3 H4 H5 H6 H7 ns.
  induction ns as [|n l IH]; intros i; simpl; [reflexivity|].
  rewrite IH. unfold onTextNode.
  destruct (Type_ n); try reflexivity.
  destruct (Str.SplitN2 (Str.TrimSpace (Data n)) ":") as [|a [|b [|c l']]];
    try reflexivity.
  case_all; auto.
Qed.

Lemma onAlias_fold nodes : forall i,
  Aliases (fold_left (fun i e => onAlias e i) nodes i)
  = (Aliases i ++ map Text nodes)%list.
Proof.
  induction nodes as [|e nodes IH]; intros i; simpl.
  - now rewrite app_nil_r.
  - rewrite IH. simpl. now rewrite <- app_assoc.
Qed.

Lemma onGallery_one e i :
  Images (onGallery e i)
  = (Images i ++ (if gallery_kept e then [Attr e "href"] else []))%list.
Proof.
  unfold onGallery, gallery_kept.
  destruct (Attr e "class" =? "profile_img"); cbn [negb andb];
    [now rewrite app_nil_r|].
  destruct ((ParseInt (Attr e "data-width") =? 0)%Z
            || (ParseInt (Attr e "data-height") =? 0)%Z); cbn [negb];
    [now rewrite app_nil_r | reflexivity].
Qed.

Lemma onGallery_fold nodes : forall i,
  Images (fold_left (fun i e => onGallery e i) nodes i)
  = (Images i ++ map (fun e => Attr e "href") (filter gallery_kept nodes))%list.
Proof.
  induction nodes as [|e nodes IH]; intros i; cbn [fold_left filter].
  - now rewrite app_nil_r.
  - rewrite IH, onGallery_one.
    destruct (gallery_kept e); cbn [map]; rewrite <- app_assoc; reflexivity.
Qed.

(** The aliases of a record assembled without error are the texts of the
    alias nodes of the page, in document order, and its images are the
    links of the gallery, in document order, without the profile image
    and without the links whose width or height reads as zero. *)
Theorem actor_aliases_and_images u reqs reqs' info :
  GetActorInfoByURL u reqs = Done (Some info, None) reqs' ->
  exists homepage resp,
    url_Parse u = inr homepage
    /\ visit (length reqs) (url_String homepage) = inr resp
    /\ Aliases info
       = map Text (selectNodes resp ("//*[@id=" ++ quoted "sss1" ++ "]/p/span"))
    /\ Images info
       = map (fun e => Attr e "href")
           (filter gallery_kept
              (selectNodes resp ("//*[@id=" ++ quoted "gallery" ++ "]/a"))).
Proof.
  destruct (url_Parse u) as [err|homepage] eqn:Hparse.
  { unfold GetActorInfoByURL. rewrite Hparse. discriminate. }
  rewrite (GetActorInfoByURL_parsed u homepage reqs Hparse).
  destruct (visit (length reqs) (url_String homepage)) as [err|resp] eqn:Hvisit;
    [discriminate|].
  rewrite actor_callbacks_run.
  destruct (all_children _) as [ns|]; [|discriminate].
  intros H. injection H as H _. subst info.
  exists homepage, resp. split; [reflexivity | split; [exact Hvisit | split]].
  - rewrite (fold_left_frame Aliases onNationality) by reflexivity.
    rewrite (fold_left_frame Aliases onHeight) by reflexivity.
    rewrite (onTextNode_frame Aliases) by reflexivity.
    rewrite (fold_left_frame Aliases onGallery)
      by (intros e i; unfold onGallery; case_all; reflexivity).
    rewrite onAlias_fold.
    now rewrite (fold_left_frame Aliases onName) by reflexivity.
  - rewrite (fold_left_frame Images onNationality) by reflexivity.
    rewrite (fold_left_frame Images onHeight) by reflexivity.
    rewrite (onTextNode_frame Images) by reflexivity.
    rewrite onGallery_fold.
    rewrite (fold_left_frame Images onAlias) by reflexivity.
    now rewrite (fold_left_frame Images onName) by reflexivity.
Qed.

Lemma actor_identity u reqs reqs' info err :
  GetActorInfoByURL u reqs = Done (Some info, err) reqs' ->
  exists homepage,
    url_Parse u = inr homepage
    /\ Provider info = "xslist"
    /\ Homepage info = url_String homepage
    /\ ID info = actor_id_of (url_Path homepage)
    /\ (Path.Ext (url_Path homepage) = "" -> ID info = "").
Proof.
  destruct (url_Parse u) as [e|homepage] eqn:Hparse.
  { unfold GetActorInfoByURL. rewrite Hparse. discriminate. }
  rewrite (GetActorInfoByURL_parsed u homepage reqs Hparse).
  intros H. exists homepage. split; [reflexivity|].
  set (proj := fun i : ActorInfo => (Provider i, Homepage i, ID i)).
  assert (Hid : proj info = proj (seed (actor_id_of (url_Path homepage)) homepage)).
  { destruct (visit (length reqs) (url_String homepage)) as [e|resp].
    - injection H as H _ _. now subst info.
    - rewrite actor_callbacks_run in H.
      destruct (all_children _) as [ns|]; [|discriminate].
      injection H as H _ _. subst info.
      rewrite (fold_left_frame proj onNationality) by reflexivity.
      rewrite (fold_left_frame proj onHeight) by reflexivity.
      rewrite (onTextNode_frame proj) by reflexivity.
      rewrite (fold_left_frame proj onGallery)
        by (intros e i; unfold onGallery; case_all; reflexivity).
      rewrite (fold_left_frame proj onAlias) by reflexivity.
      now rewrite (fold_left_frame proj onName) by reflexivity. }
  unfold proj in Hid. cbn [seed Provider Homepage ID] in Hid.
  injection Hid as H1 H2 H3. repeat split; try assumption.
  intros Hext. rewrite H3. unfold actor_id_of. now rewrite Hext.
Qed.

(** The callbacks never write the identifier, the provider name or the
    homepage of an actor record: a returned record carries the provider
    name [xslist], the parsed URL written back as homepage, and as
    identifier the base name of the path without its extension; a path
    without extension gives the empty identifier. *)
Theorem actor_identity_fixed u reqs reqs' info err :
  GetActorInfoByURL u reqs = Done (Some info, err) reqs' ->
  exists homepage,
    url_Parse u = inr homepage
    /\ Provider info = "xslist"
    /\ Homepage info = url_String homepage
    /\ ID info = actor_id_of (url_Path homepage)
    /\ (Path.Ext (url_Path homepage) = "" -> ID info = "").
Proof. apply actor_identity. Qed.
End ActorAssembly.

(* ================================================================= *)
(** ** The search *)

Section Search.
Context {E : Env}.
Import XsList.
Local Open Scope string_scope.

Lemma take_all (p : string) : Str.take (String.length p) p = p.
Proof. induction p as [|c p IH]; simpl; [reflexivity | now rewrite IH]. Qed.

Lemma take_drop_suffix (k : nat) : forall p,
  Str.take (String.length p - String.length (Str.drop k p)) p ++ Str.drop k p = p.
Proof.
  induction k as [|k IH]; intros [|c p]; try reflexivity.
  - cbn [Str.drop]. now rewrite Nat.sub_diag.
  - cbn [Str.drop]. pose proof (drop_length_le k p) as Hle.
    cbn [String.length].
    replace (S (String.length p) - String.length (Str.drop k p))
      with (S (String.length p - String.length (Str.drop k p))) by lia.
    cbn [Str.take append]. now rewrite IH.
Qed.

Lemma drop_drop (n : nat) : forall m p,
  Str.drop n (Str.drop m p) = Str.drop (m + n) p.
Proof.
  intros m; revert n. induction m as [|m IH]; intros n p.
  - reflexivity.
  - destruct p as [|c p]; cbn [Str.drop plus].
    + now destruct n.
    + apply IH.
Qed.

(** [path.Ext] returns a suffix of the path. *)
Lemma take_Ext (p : string) :
  Str.take (String.length p - String.length (Path.Ext p)) p ++ Path.Ext p = p.
Proof.
  unfold Path.Ext, Path.final_element.
  destruct (Path.last_index Path.slash p) as [n|].
  - destruct (Path.last_index Path.period (Str.drop (S n) p)) as [k|].
    + rewrite drop_drop. apply take_drop_suffix.
    + cbn [String.length]. now rewrite Nat.sub_0_r, take_all, append_empty_r.
  - destruct (Path.last_index Path.period p) as [k|].
    + apply take_drop_suffix.
    + cbn [String.length]. now rewrite Nat.sub_0_r, take_all, append_empty_r.
Qed.

(** One listing: a panic when its link does not parse, one more result
    otherwise. *)
Lemma onListing_cases e acc reqs :
  (exists err, url_Parse (ChildAttr e ".//h3/a" "href") = inl err
               /\ onListing e acc reqs = Panicked)
  \/ (exists r, onListing e acc reqs = Done (acc ++ [r])%list reqs
                /\ listing_gives e r).
Proof.
  unfold onListing.
  destruct (url_Parse (ChildAttr e ".//h3/a" "href")) as [err|homepage] eqn:Hparse.
  - left. now exists err.
  - right. rewrite cut_ext_Ext.
    set (b := path_Base (url_Path homepage)).
    assert (Hid : exists id,
               (if nonempty (Path.Ext b)
                then Some (Str.take (String.length b - String.length (Path.Ext b)) b)
                else Some b) = Some id
               /\ id ++ Path.Ext b = b).
    { destruct (Path.Ext b) as [|c x] eqn:Hext; cbn [nonempty is_empty negb].
      - exists b. now rewrite append_empty_r.
      - eexists. split; [reflexivity|]. rewrite <- Hext. apply take_Ext. }
    destruct Hid as (id & -> & Hid). unfold ret.
    eexists. split; [reflexivity|].
    exists homepage. cbn. unfold Str.SplitN2.
    repeat split; try assumption.
    + intros Hcut. now rewrite Hcut.
    + intros a c Hcut. now rewrite Hcut.
Qed.

Lemma each_node_onListing nodes : forall acc reqs,
  (each_node onListing nodes acc reqs = Panicked
   /\ Exists (fun e => exists err,
                url_Parse (ChildAttr e ".//h3/a" "href") = inl err) nodes)
  \/ (exists rs, each_node onListing nodes acc reqs = Done (acc ++ rs)%list reqs
                 /\ Forall2 listing_gives nodes rs).
Proof.
  induction nodes as [|e nodes IH]; intros acc reqs; simpl.
  - right. exists []%list. rewrite app_nil_r. split; [reflexivity | constructor].
  - unfold bind.
    destruct (onListing_cases e acc reqs) as [(err & Hbad & ->) | (r & -> & Hr)].
    + left. split; [reflexivity|]. left. now exists err.
    + destruct (IH (acc ++ [r])%list reqs) as [[-> Hbad] | (rs & -> & Hrs)].
      * left. split; [reflexivity | now right].
      * right. exists (r :: rs)%list. rewrite <- app_assoc.
        split; [reflexivity | now constructor].
Qed.

Lemma listings_parse nodes rs :
  Forall2 listing_gives nodes rs ->
  ~ Exists (fun e => exists err,
              url_Parse (ChildAttr e ".//h3/a" "href") = inl err) nodes.
Proof.
  induction 1 as [|e r nodes rs (homepage & Hparse & _) _ IH]; intros Hbad.
  - inversion Hbad.
  - inversion Hbad as [? ? (err & Herr) | ? ? Hrest]; subst.
    + rewrite Hparse in Herr. discriminate.
    + now apply IH.
Qed.

(** When the search page is fetched, the search panics exactly when the
    link of some listing does not parse: [url.Parse] then returns a nil
    URL and its error is dropped. *)
Theorem search_panics_iff keyword reqs resp :
  visit (length reqs) (searchURL (url_QueryEscape keyword)) = inr resp ->
  (SearchActor keyword reqs = Panicked
   <-> Exists (fun e => exists err,
                 url_Parse (ChildAttr e ".//h3/a" "href") = inl err)
              (selectNodes resp "//ul/li")).
Proof.
  intros Hvisit. unfold SearchActor, Visit. rewrite Hvisit.
  cbn [handleOnXML]. unfold bind.
  destruct (each_node_onListing (selectNodes resp "//ul/li") []%list
              (reqs ++ [searchURL (url_QueryEscape keyword)])%list)
    as [[-> Hbad] | (rs & -> & Hrs)].
  - tauto.
  - unfold ret. split; [discriminate|].
    intros Hbad. exfalso. exact (listings_parse _ _ Hrs Hbad).
Qed.

(** A search that returns has issued one request; if the fetch failed it
    returns no result and the error; otherwise it returns no error and
    one result for each listing of the page, in document order. *)
Theorem search_results_follow_listings keyword reqs results err reqs' :
  SearchActor keyword reqs = Done (results, err) reqs' ->
  reqs' = (reqs ++ [searchURL (url_QueryEscape keyword)])%list
  /\ match visit (length reqs) (searchURL (url_QueryEscape keyword)) with
     | inl e => results = []%list /\ err = Some e
     | inr resp =>
         err = None /\ Forall2 listing_gives (selectNodes resp "//ul/li") results
     end.
Proof.
  unfold SearchActor, Visit.
  destruct (visit (length reqs) (searchURL (url_QueryEscape keyword)))
    as [e|resp].
  - intros H. injection H as <- <- <-. now repeat split.
  - cbn [handleOnXML]. unfold bind.
    destruct (each_node_onListing (selectNodes resp "//ul/li") []%list
                (reqs ++ [searchURL (url_QueryEscape keyword)])%list)
      as [[-> Hbad] | (rs & -> & Hrs)]; [discriminate|].
    unfold ret. intros H. injection H as <- <- <-. now repeat split.
Qed.
End Search.

(* ================================================================= *)
(** ** The debut date *)

Section AnchorMembership.
Local Open Scope string_scope.

Lemma in_run_Bol b s m rest caps :
  In (m, rest, caps) (run Bol b s)
  <-> b = true /\ m = "" /\ rest = s /\ caps = []%list.
Proof.
  simpl. destruct b; simpl; split.
  - intros [H|[]]. now inversion H.
  - intros (_ & -> & -> & ->). now left.
  - intros [].
  - intros (H & _). discriminate.
Qed.

Lemma in_run_Eol b s m rest caps :
  In (m, rest, caps) (run Eol b s)
  <-> s = "" /\ m = "" /\ rest = "" /\ caps = []%list.
Proof.
  simpl. destruct s as [|c s]; simpl; split.
  - intros [H|[]]. now inversion H.
  - intros (_ & -> & -> & ->). now left.
  - intros [].
  - intros (H & _). discriminate.
Qed.
End AnchorMembership.

Ltac run_inv H :=
  lazymatch type of H with
  | In _ (run (lit _) _ _) =>
      apply in_run_lit in H; destruct H as (? & ? & ?); subst
  | In _ (run (Plus _ _) _ _) =>
      apply in_run_Plus in H; destruct H as (? & ? & ?); subst
  | In _ (run Eps _ _) =>
      apply in_run_Eps in H; destruct H as (? & ? & ?); subst
  | In _ (run Bol _ _) =>
      apply in_run_Bol in H; destruct H as (? & ? & ? & ?); subst
  | In _ (run Eol _ _) =>
      apply in_run_Eol in H; destruct H as (? & ? & ? & ?); subst
  | In _ (run (Cap _ _) _ _) =>
      let c := fresh "c" in
      apply in_run_Cap in H; destruct H as (c & H & ?); subst; run_inv H
  | In _ (run (Cat _ _) _ _) =>
      let H1 := fresh "H" in
      apply in_run_Cat in H;
      destruct H as (? & ? & ? & ? & ? & H1 & H & ? & ?); subst;
      run_inv H1; run_inv H
  end.

Ltac run_build :=
  lazymatch goal with
  | |- In _ (run (lit _) _ _) =>
      apply in_run_lit; repeat split; reflexivity
  | |- In _ (run (Plus _ _) _ _) =>
      apply in_run_Plus; refine (conj _ (conj eq_refl eq_refl)); assumption
  | |- In _ (run Eps _ _) =>
      apply in_run_Eps; repeat split; reflexivity
  | |- In _ (run Bol _ _) =>
      apply in_run_Bol; repeat split; reflexivity
  | |- In _ (run Eol _ _) =>
      apply in_run_Eol; repeat split; reflexivity
  | |- In _ (run (Cap _ _) _ _) =>
      apply in_run_Cap; eexists; split; [run_build | reflexivity]
  | |- In _ (run (Cat _ _) _ _) =>
      apply in_run_Cat; do 5 eexists;
      split; [run_build | split; [run_build | split; reflexivity]]
  end.

Section DebutDate.
Context {E : Env}.
Import XsList.
Local Open Scope string_scope.

Lemma run_of_all p t : run_of p t = true -> Str.all p t = true.
Proof. unfold run_of. intros H. now apply andb_prop in H. Qed.

(** A run of a class is delimited by the first byte outside the class. *)
Lemma class_run_unique (p : ascii -> bool) (c : ascii) :
  p c = false ->
  forall y y' r r',
    Str.all p y = true -> Str.all p y' = true ->
    y ++ String c r = y' ++ String c r' -> y = y' /\ r = r'.
Proof.
  intros Hc. induction y as [|d y IH]; intros [|d' y'] r r' Hy Hy' Heq;
    simpl in *.
  - now injection Heq as <-.
  - injection Heq as <- _. apply andb_prop in Hy' as [Hd _]. congruence.
  - injection Heq as -> _. apply andb_prop in Hy as [Hd _]. congruence.
  - injection Heq as <- Heq. apply andb_prop in Hy as [_ Hy].
    apply andb_prop in Hy' as [_ Hy'].
    destruct (IH y' r r' Hy Hy' Heq) as [-> ->]. now split.
Qed.

Lemma debut_unique y m y' m' :
  run_of space_or_digit y = true -> run_of space_or_digit m = true ->
  run_of space_or_digit y' = true -> run_of space_or_digit m' = true ->
  y ++ "年" ++ m ++ "月" = y' ++ "年" ++ m' ++ "月" ->
  y = y' /\ m = m'.
Proof.
  intros Hy Hm Hy' Hm' Heq. cbn [append] in Heq.
  apply class_run_unique with (p := space_or_digit) in Heq;
    [| reflexivity | now apply run_of_all | now apply run_of_all].
  destruct Heq as [-> Heq]. split; [reflexivity|].
  injection Heq as Heq.
  apply class_run_unique with (p := space_or_digit) in Heq;
    [| reflexivity | now apply run_of_all | now apply run_of_all].
  tauto.
Qed.

Lemma re_debut_sound bot s m0 rest caps :
  In (m0, rest, caps) (run re_debut bot s) ->
  exists y m,
    run_of space_or_digit y = true /\ run_of space_or_digit m = true
    /\ s = y ++ "年" ++ m ++ "月"
    /\ caps = [(1, y); (2, m)]%list.
Proof.
  unfold re_debut, cat. cbv zeta. cbn [fold_right]. intros H. run_inv H.
  match goal with
  | Hy : run_of _ ?y = true, Hm : run_of _ ?m = true |- _ => exists y, m
  end.
  repeat split; assumption || reflexivity.
Qed.

Lemma re_debut_complete y m :
  run_of space_or_digit y = true -> run_of space_or_digit m = true ->
  exists m0 caps,
    In (m0, "", caps) (run re_debut true (y ++ "年" ++ m ++ "月")).
Proof.
  intros Hy Hm. unfold re_debut, cat. cbv zeta. cbn [fold_right].
  do 2 eexists. run_build.
Qed.

(** [parseDebutDate]: a text made of a year, the sign for year, a month
    and the sign for month, the year and the month being non-empty strings
    of digits and white space, gives the first day of that month; every
    other text is left to [parser.ParseDate]. *)
Theorem parseDebutDate_grammar (s : string) :
  (forall y m,
      run_of space_or_digit y = true -> run_of space_or_digit m = true ->
      s = y ++ "年" ++ m ++ "月" ->
      parseDebutDate s = time_Date (ParseInt y) (ParseInt m))
  /\ ((forall y m,
          run_of space_or_digit y = true -> run_of space_or_digit m = true ->
          s <> y ++ "年" ++ m ++ "月") ->
      parseDebutDate s = ParseDate s).
Proof.
  assert (Hs : search re_debut true s
               = match run re_debut true s with
                 | x :: _ => Some x
                 | [] => None
                 end%list).
  { destruct s as [|c s]; [reflexivity|].
    cbn [search]. destruct (run re_debut true (String c s)); [|reflexivity].
    apply search_bol_inside. }
  unfold parseDebutDate, FindStringSubmatch. rewrite Hs.
  destruct (run re_debut true s) as [|[[m0 rest] caps] l] eqn:Hrun.
  - split; [|reflexivity].
    intros y m Hy Hm ->.
    destruct (re_debut_complete y m Hy Hm) as (m0 & caps & Hin).
    rewrite Hrun in Hin. destruct Hin.
  - assert (Hin : In (m0, rest, caps) (run re_debut true s))
      by (rewrite Hrun; now left).
    apply re_debut_sound in Hin as (y' & m' & Hy' & Hm' & Hshape & ->).
    split.
    + intros y m Hy Hm Heq. rewrite Heq in Hshape.
      destruct (debut_unique y m y' m' Hy Hm Hy' Hm' Hshape) as [-> ->].
      reflexivity.
    + intros Hno. exfalso. exact (Hno y' m' Hy' Hm' Hshape).
Qed.
End DebutDate.

(* ================================================================= *)
(** ** Tags and preview images of the movie record *)

Section TagsAndImages.
Context {E : Env}.
Import Heyzo.
Local Open Scope string_scope.

Lemma visited_without_error rawURL reqs reqs' info :
  GetMovieInfoByURL rawURL reqs = Done (Some info, None) reqs' ->
  exists id resp,
    ParseIDFromURL rawURL = inr id
    /\ visit (length reqs) rawURL = inr resp
    /\ handleOnXML callbacks resp (seed id rawURL) (reqs ++ [rawURL])%list
       = Done info reqs'.
Proof.
  intros H.
  destruct (ParseIDFromURL rawURL) as [err|id] eqn:Hid.
  { unfold GetMovieInfoByURL in H. rewrite Hid in H. discriminate. }
  destruct (visit (length reqs) rawURL) as [err|resp] eqn:Hvisit.
  { unfold GetMovieInfoByURL in H. rewrite Hid in H. unfold bind, Visit in H.
    cbn [Homepage seed] in H. rewrite Hvisit in H. discriminate. }
  rewrite (GetMovieInfoByURL_visited rawURL id resp reqs Hid Hvisit) in H.
  exists id, resp. split; [reflexivity | split; [reflexivity|]].
  destruct (handleOnXML callbacks resp _ _); [|discriminate].
  now injection H as <- <-.
Qed.

Lemma last_cons {A : Type} (l : list A) : forall x d, last (x :: l) d = last l x.
Proof.
  induction l as [|y l IH]; intros x d; [reflexivity|].
  change (last (x :: y :: l) d) with (last (y :: l) d).
  now rewrite !IH.
Qed.

Lemma onTags_fold nodes : forall i,
  Tags (fold_left (fun i e => onTags e i) nodes i)
  = last (map (fun e => ChildTexts e ".//li/a") nodes) (Tags i).
Proof.
  induction nodes as [|e nodes IH]; intros i; [reflexivity|].
  cbn [fold_left map]. rewrite IH, last_cons. reflexivity.
Qed.

(** The tags of a record assembled without error are the link texts of
    the last tag list of the page, in document order and with their
    duplicates; a page without tag list gives no tag. *)
Theorem tags_of_last_list rawURL reqs reqs' info :
  GetMovieInfoByURL rawURL reqs = Done (Some info, None) reqs' ->
  exists resp,
    visit (length reqs) rawURL = inr resp
    /\ Tags info
       = last (map (fun e => ChildTexts e ".//li/a")
                 (selectNodes resp ("//ul[@class=" ++ quoted "tag-keyword-list" ++ "]")))
              []%list.
Proof.
  intros H. apply visited_without_error in H as (id & resp & Hid & Hvisit & Hrun).
  exists resp. split; [exact Hvisit|].
  replace callbacks
    with (firstn 5 callbacks
          ++ [nth 5 callbacks ("", fun _ i => ret i)]
          ++ skipn 6 callbacks)%list in Hrun by reflexivity.
  rewrite handleOnXML_app in Hrun.
  destruct (handleOnXML (firstn 5 callbacks) resp _ _) as [i5 r5|] eqn:H5;
    [|discriminate].
  assert (Hnone : Tags i5 = []%list).
  { refine (handleOnXML_keeps (fun i => Tags i = []%list) _ _ _ _ _ _ _ _ H5);
      [|reflexivity].
    unfold callbacks, pure. cbn [firstn]. repeat constructor; cbn [snd].
    - apply keeps_pure. intros e i <-. unfold onJSON. case_all; reflexivity.
    - apply onTitle_keeps. intros t i Hi. exact Hi.
    - apply keeps_pure. intros e i <-. unfold onSummary. case_all; reflexivity.
    - apply keeps_pure. intros e i <-. unfold onImage. case_all; reflexivity.
    - apply keeps_pure. intros e i <-. unfold onField. case_all; reflexivity. }
  rewrite handleOnXML_app in Hrun.
  unfold callbacks at 1, pure in Hrun. cbn [nth handleOnXML] in Hrun.
  unfold bind in Hrun. rewrite each_node_pure in Hrun. unfold ret at 1 in Hrun.
  refine (handleOnXML_keeps
            (fun i => Tags i = last (map (fun e => ChildTexts e ".//li/a") _) []%list)
            _ _ _ _ _ _ _ _ Hrun).
  - unfold callbacks, pure. cbn [skipn]. repeat constructor; cbn [snd].
    + apply keeps_pure. intros e i <-. unfold onScript. case_all; reflexivity.
    + apply onPlayer_keeps. intros r i <-. unfold onManifest. case_all; reflexivity.
    + apply keeps_pure. intros e i Hi. apply onImages_keeps; [|exact Hi].
      intros v j Hj. exact Hj.
  - rewrite onTags_fold, Hnone. reflexivity.
Qed.

Lemma onImages_list e i :
  PreviewImages (onImages e i) = (PreviewImages i ++ script_images e)%list.
Proof.
  unfold onImages, script_images.
  generalize (FindAllStringSubmatch re_image 1 (Text e)).
  intros l; revert i. induction l as [|sub l IH]; intros i; cbn [fold_left map].
  - now rewrite app_nil_r.
  - rewrite IH. cbn [PreviewImages set_PreviewImages]. now rewrite <- app_assoc.
Qed.

Lemma onImages_fold nodes : forall i,
  PreviewImages (fold_left (fun i e => onImages e i) nodes i)
  = (PreviewImages i ++ flat_map script_images nodes)%list.
Proof.
  induction nodes as [|e nodes IH]; intros i; cbn [fold_left flat_map].
  - now rewrite app_nil_r.
  - now rewrite IH, onImages_list, <- app_assoc.
Qed.

Lemma preview_images_list rawURL reqs reqs' info :
  GetMovieInfoByURL rawURL reqs = Done (Some info, None) reqs' ->
  exists resp,
    visit (length reqs) rawURL = inr resp
    /\ PreviewImages info
       = flat_map script_images
           (selectNodes resp
              ("//div[@class=" ++ quoted "sample-images yoxview" ++ "]/script")).
Proof.
  intros H. apply visited_without_error in H as (id & resp & Hid & Hvisit & Hrun).
  exists resp. split; [exact Hvisit|].
  replace callbacks
    with (firstn 8 callbacks ++ [nth 8 callbacks ("", fun _ i => ret i)])%list
    in Hrun by reflexivity.
  rewrite handleOnXML_app in Hrun.
  destruct (handleOnXML (firstn 8 callbacks) resp _ _) as [i8 r8|] eqn:H8;
    [|discriminate].
  assert (Hnone : PreviewImages i8 = []%list).
  { refine (handleOnXML_keeps (fun i => PreviewImages i = []%list)
              _ _ _ _ _ _ _ _ H8); [|reflexivity].
    unfold callbacks, pure. cbn [firstn]. repeat constructor; cbn [snd].
    - apply keeps_pure. intros e i <-. unfold onJSON. case_all; reflexivity.
    - apply onTitle_keeps. intros t i Hi. exact Hi.
    - apply keeps_pure. intros e i <-. unfold onSummary. case_all; reflexivity.
    - apply keeps_pure. intros e i <-. unfold onImage. case_all; reflexivity.
    - apply keeps_pure. intros e i <-. unfold onField. case_all; reflexivity.
    - apply keeps_pure. intros e i <-. reflexivity.
    - apply keeps_pure. intros e i <-. unfold onScript. case_all; reflexivity.
    - apply onPlayer_keeps. intros r i <-. unfold onManifest. case_all; reflexivity. }
  unfold callbacks, pure in Hrun. cbn [nth handleOnXML] in Hrun.
  unfold bind in Hrun. rewrite each_node_pure in Hrun. unfold ret in Hrun.
  injection Hrun as <- _. now rewrite onImages_fold, Hnone.
Qed.

(** The preview images of a record assembled without error are the
    images of the scripts of sample images, script after script in
    document order, and within a script in the order of the text. *)
Theorem preview_images_in_order rawURL reqs reqs' info :
  GetMovieInfoByURL rawURL reqs = Done (Some info, None) reqs' ->
  exists resp,
    visit (length reqs) rawURL = inr resp
    /\ PreviewImages info
       = flat_map script_images
           (selectNodes resp
              ("//div[@class=" ++ quoted "sample-images yoxview" ++ "]/script")).
Proof. apply preview_images_list. Qed.
End TagsAndImages.

Section ImagePattern.
Context {E : Env}.
Import Heyzo.
Local Open Scope string_scope.

(** Every slice [FindAllStringSubmatch] returns is that of a match. *)
Lemma find_all_sound r n fuel : forall bot s,
  Forall (fun sub => exists x b' t, In x (run r b' t) /\ sub = submatches n x)
         (find_all fuel r n bot s).
Proof.
  induction fuel as [|fuel IH]; intros bot s; cbn [find_all].
  - constructor.
  - destruct (search r bot s) as [[[m rest] caps]|] eqn:Hs; [|constructor].
    constructor.
    + apply search_some in Hs as (pre & t & b' & _ & Hin).
      now exists (m, rest, caps), b', t.
    + destruct (is_empty m); [destruct rest as [|c rest']|];
        first [constructor | apply IH].
Qed.

Lemma re_image_sound bot t m rest caps :
  In (m, rest, caps) (run re_image bot t) ->
  exists p, nth 1 (submatches 1 (m, rest, caps)) "" = "/contents/" ++ p.
Proof.
  unfold re_image, cat. cbn [fold_right]. intros H. run_inv H.
  cbn. eexists. reflexivity.
Qed.

Lemma script_images_under_contents e u :
  In u (script_images e) -> exists p, u = AbsoluteURL e ("/contents/" ++ p).
Proof.
  unfold script_images, FindAllStringSubmatch. intros H.
  apply in_map_iff in H as (sub & <- & Hsub).
  pose proof (find_all_sound re_image 1 (S (String.length (Text e))) true (Text e))
    as Hall.
  rewrite Forall_forall in Hall.
  destruct (Hall sub Hsub) as ([[m rest] caps] & b' & t & Hin & ->).
  destruct (re_image_sound b' t m rest caps Hin) as [p ->].
  now exists p.
Qed.

(** Every preview image of a record assembled without error is a path
    under [/contents/], taken from a script of sample images of the page
    and resolved against the page. *)
Theorem preview_images_under_contents rawURL reqs reqs' info u :
  GetMovieInfoByURL rawURL reqs = Done (Some info, None) reqs' ->
  In u (PreviewImages info) ->
  exists resp e p,
    visit (length reqs) rawURL = inr resp
    /\ In e (selectNodes resp
               ("//div[@class=" ++ quoted "sample-images yoxview" ++ "]/script"))
    /\ u = AbsoluteURL e ("/contents/" ++ p).
Proof.
  intros Hrun Hu.
  destruct (preview_images_list rawURL reqs reqs' info Hrun)
    as (resp & Hvisit & Himages).
  rewrite Himages in Hu. apply in_flat_map in Hu as (e & He & Hu).
  destruct (script_images_under_contents e u Hu) as [p ->].
  now exists resp, e, p.
Qed.
End ImagePattern.

(* ================================================================= *)
(** ** From an identifier to the actor page and back *)

Section ActorByID.
Context {E : Env}.
Import XsList.
Local Open Scope string_scope.

Lemma last_index_lt c s : forall n,
  Path.last_index c s = Some n -> (n < String.length s)%nat.
Proof.
  induction s as [|x s IH]; intros n; simpl; [discriminate|].
  destruct (Path.last_index c s) as [k|].
  - intros H. injection H as <-. specialize (IH k eq_refl). lia.
  - destruct (Ascii.eqb x c); [|discriminate].
    intros H. injection H as <-. lia.
Qed.

Lemma last_index_app c a b :
  Path.last_index c (a ++ b)
  = match Path.last_index c b with
    | Some n => Some (String.length a + n)%nat
    | None => Path.last_index c a
    end.
Proof.
  induction a as [|x a IH]; simpl.
  - now destruct (Path.last_index c b).
  - rewrite IH. now destruct (Path.last_index c b).
Qed.

Lemma drop_app_le n : forall a b,
  (n <= String.length a)%nat -> Str.drop n (a ++ b) = Str.drop n a ++ b.
Proof.
  induction n as [|n IH]; intros a b Hn.
  - now destruct a, b.
  - destruct a as [|x a]; simpl in *; [lia|]. apply IH. lia.
Qed.

(** The extension of a path that ends in [.html] is [.html], whatever
    dots and slashes come before. *)
Lemma Ext_html (x : string) : Path.Ext (x ++ ".html") = ".html".
Proof.
  assert (Hdot : forall y, Path.last_index Path.period (y ++ ".html")
                           = Some (String.length y + 0)%nat)
    by (intros y; now rewrite last_index_app).
  unfold Path.Ext, Path.final_element. rewrite last_index_app.
  change (Path.last_index Path.slash ".html") with (@None nat).
  destruct (Path.last_index Path.slash x) as [n|] eqn:Hn.
  - apply last_index_lt in Hn.
    rewrite drop_app_le by lia. rewrite Hdot, Nat.add_0_r. apply drop_app.
  - rewrite Hdot, Nat.add_0_r. apply drop_app.
Qed.

(** [GetActorInfoByID]: when the URL built from the identifier parses to
    the path [/zh/model/<id>.html], the identifier of the returned record
    is the base name of [/zh/model/<id>]: the extension [.html] that the
    URL template adds is cut off again, also when the identifier itself
    contains dots. *)
Theorem actor_id_round_trip id homepage reqs reqs' info err :
  url_Parse (actorURL id) = inr homepage ->
  url_Path homepage = "/zh/model/" ++ id ++ ".html" ->
  GetActorInfoByID id reqs = Done (Some info, err) reqs' ->
  ID info = path_Base ("/zh/model/" ++ id)
  /\ Provider info = "xslist".
Proof.
  intros Hparse Hpath Hrun. unfold GetActorInfoByID in Hrun.
  destruct (actor_identity _ _ _ _ _ Hrun) as (h & Hh & Hprov & _ & Hid & _).
  rewrite Hparse in Hh. injection Hh as <-. split; [|exact Hprov].
  rewrite Hid, Hpath. unfold actor_id_of.
  replace ("/zh/model/" ++ id ++ ".html") with (("/zh/model/" ++ id) ++ ".html")
    by apply append_assoc.
  rewrite Ext_html. cbn [nonempty is_empty negb].
  replace (String.length (("/zh/model/" ++ id) ++ ".html") - String.length ".html")%nat
    with (String.length ("/zh/model/" ++ id)).
  - now rewrite take_app.
  - clear. generalize ("/zh/model/" ++ id). intros x.
    induction x as [|c x IH]; [reflexivity|].
    cbn [append String.length]. rewrite IH.
    assert (5 <= String.length (x ++ ".html"))%nat.
    { clear. induction x; simpl; lia. }
    change (String.length ".html") with 5. lia.
Qed.
End ActorByID.

(* ================================================================= *)
(** ** The title of the movie record *)

Section TitleOfRecord.
Context {E : Env}.
Import Heyzo.
Local Open Scope string_scope.

Lemma onJSON_title e i :
  Title (onJSON e i)
  = match json_Unmarshal_ld (Text e) with
    | Some data => ld_Name data
    | None => Title i
    end.
Proof.
  unfold onJSON. destruct (json_Unmarshal_ld (Text e)) as [data|]; [|reflexivity].
  case_all; reflexivity.
Qed.

Lemma onJSON_fold_title nodes : forall i,
  Title (fold_left (fun i e => onJSON e i) nodes i)
  = last (map ld_Name (decoded_scripts nodes)) (Title i).
Proof.
  induction nodes as [|e nodes IH]; intros i; [reflexivity|].
  cbn [fold_left decoded_scripts flat_map]. rewrite IH, onJSON_title.
  fold (decoded_scripts nodes).
  destruct (json_Unmarshal_ld (Text e)) as [data|]; [|reflexivity].
  cbn [app map]. now rewrite last_cons.
Qed.

(** The title of a record assembled without error is the name in the last
    JSON-LD script that decodes; when there is none, or when that name is
    empty, it is the first white-space separated field of the first
    heading of the page, and empty when the page has no heading. *)
Theorem title_of_record rawURL reqs reqs' info :
  GetMovieInfoByURL rawURL reqs = Done (Some info, None) reqs' ->
  exists resp,
    visit (length reqs) rawURL = inr resp
    /\ Title info
       = let name :=
           last (map ld_Name
                   (decoded_scripts
                      (selectNodes resp
                         ("//script[@type=" ++ quoted "application/ld+json" ++ "]"))))
                "" in
         if is_empty name
         then match selectNodes resp ("//*[@id=" ++ quoted "movie" ++ "]/h1") with
              | e :: _ => hd "" (Str.Fields (Text e))
              | [] => ""
              end%list
         else name.
Proof.
  intros H. apply visited_without_error in H as (id & resp & Hid & Hvisit & Hrun).
  exists resp. split; [exact Hvisit|].
  replace callbacks with (firstn 2 callbacks ++ skipn 2 callbacks)%list in Hrun
    by reflexivity.
  rewrite handleOnXML_app in Hrun.
  unfold callbacks at 1, pure in Hrun. cbn [firstn handleOnXML] in Hrun.
  unfold bind in Hrun. rewrite each_node_pure, each_node_onTitle_run in Hrun.
  rewrite onJSON_fold_title in Hrun. cbn [Title seed] in Hrun. cbv zeta.
  set (name := last (map ld_Name (decoded_scripts _)) "") in *.
  set (i1 := fold_left _ _ (seed id rawURL)) in *.
  assert (Hname : Title i1 = name) by apply onJSON_fold_title.
  assert (Hkeep : forall i2 r2 v,
             Title i2 = v ->
             handleOnXML (skipn 2 callbacks) resp i2 r2 = Done info reqs' ->
             Title info = v).
  { intros i2 r2 v Hv Hafter.
    refine (handleOnXML_keeps (fun i => Title i = v) _ _ _ _ _ _ _ Hv Hafter).
    unfold callbacks, pure. cbn [skipn]. repeat constructor; cbn [snd].
    - apply keeps_pure. intros e i <-. unfold onSummary. case_all; reflexivity.
    - apply keeps_pure. intros e i <-. unfold onImage. case_all; reflexivity.
    - apply keeps_pure. intros e i <-. unfold onField. case_all; reflexivity.
    - apply keeps_pure. intros e i <-. reflexivity.
    - apply keeps_pure. intros e i <-. unfold onScript. case_all; reflexivity.
    - apply onPlayer_keeps. intros r i <-. unfold onManifest. case_all; reflexivity.
    - apply keeps_pure. intros e i Hi. apply onImages_keeps; [|exact Hi].
      intros w j Hj. exact Hj. }
  destruct (is_empty name) eqn:Hempty.
  - destruct (selectNodes resp ("//*[@id=" ++ quoted "movie" ++ "]/h1"))
      as [|e rest].
    + unfold ret at 1 in Hrun. apply (Hkeep _ _ _ Hname) in Hrun.
      rewrite Hrun. now destruct name.
    + destruct (Str.Fields (Text e)) as [|f fs]; [discriminate|].
      unfold ret at 1 in Hrun. exact (Hkeep (set_Title f i1) _ f eq_refl Hrun).
  - unfold ret at 1 in Hrun. exact (Hkeep _ _ _ Hname Hrun).
Qed.
End TitleOfRecord.

(* ================================================================= *)
(** ** Fallback and overwrite: the fields more than one callback writes *)

Section Folds.
Context {E : Env}.
Local Open Scope string_scope.

Lemma handleOnXML_pure_cons {T : Type} q (f : Element -> T -> T) cbs resp i reqs :
  handleOnXML ((q, fun e i => ret (f e i)) :: cbs) resp i reqs
  = handleOnXML cbs resp (fold_left (fun i e => f e i) (selectNodes resp q) i) reqs.
Proof.
  cbn [handleOnXML]. unfold bind. now rewrite each_node_pure.
Qed.

Lemma last_app_default {A : Type} (l1 l2 : list A) d :
  last (l1 ++ l2)%list d = last l2 (last l1 d).
Proof.
  revert d. induction l1 as [|x l1 IH]; intros d; [reflexivity|].
  change ((x :: l1) ++ l2)%list with (x :: (l1 ++ l2))%list.
  now rewrite !last_cons, IH.
Qed.

Lemma first_nonempty_cons_empty l : first_nonempty ("" :: l) = first_nonempty l.
Proof. reflexivity. Qed.

Lemma first_nonempty_cons s l : is_empty s = false -> first_nonempty (s :: l) = s.
Proof.
  intros H. unfold first_nonempty. cbn [filter]. unfold nonempty. now rewrite H.
Qed.

Lemma is_empty_true s : is_empty s = true -> s = "".
Proof. destruct s; [reflexivity | discriminate]. Qed.

End Folds.

Section MovieFields.
Context {E : Env}.
Import Heyzo.
Local Open Scope string_scope.

Lemma onJSON_fold_field {A : Type} (proj : MovieInfo -> A) (f : LdJson -> A) :
  (forall e i,
      proj (onJSON e i)
      = match json_Unmarshal_ld (Text e) with
        | Some data => f data
        | None => proj i
        end) ->
  forall nodes i,
    proj (fold_left (fun i e => onJSON e i) nodes i)
    = last (map f (decoded_scripts nodes)) (proj i).
Proof.
  intros Hf nodes. induction nodes as [|e nodes IH]; intros i; [reflexivity|].
  cbn [fold_left decoded_scripts flat_map]. rewrite IH, Hf.
  fold (decoded_scripts nodes).
  destruct (json_Unmarshal_ld (Text e)) as [data|]; [|reflexivity].
  cbn [app map]. now rewrite last_cons.
Qed.

Lemma onJSON_fold_cover nodes : forall i,
  CoverURL (fold_left (fun i e => onJSON e i) nodes i)
  = last (decoded_covers nodes) (CoverURL i).
Proof.
  induction nodes as [|e nodes IH]; intros i; [reflexivity|].
  cbn [fold_left decoded_covers flat_map]. rewrite IH.
  fold (decoded_covers nodes). unfold onJSON.
  destruct (json_Unmarshal_ld (Text e)) as [data|]; [|reflexivity].
  cbn [app]. rewrite last_cons. f_equal. case_all; reflexivity.
Qed.

Lemma onSummary_fold nodes : forall i,
  Summary (fold_left (fun i e => onSummary e i) nodes i)
  = first_nonempty (Summary i :: map (fun e => Str.TrimSpace (Text e)) nodes).
Proof.
  induction nodes as [|e nodes IH]; intros i; cbn [fold_left map].
  - destruct (is_empty (Summary i)) eqn:Hs.
    + now rewrite (is_empty_true _ Hs).
    + now rewrite first_nonempty_cons.
  - rewrite IH. unfold onSummary.
    destruct (is_empty (Summary i)) eqn:Hs.
    + now rewrite (is_empty_true _ Hs).
    + now rewrite !first_nonempty_cons.
Qed.

Lemma onImage_fold nodes : forall i,
  CoverURL (fold_left (fun i e => onImage e i) nodes i)
  = first_nonempty
      (CoverURL i :: map (fun e => AbsoluteURL e (Attr e "content")) nodes).
Proof.
  induction nodes as [|e nodes IH]; intros i; cbn [fold_left map].
  - destruct (is_empty (CoverURL i)) eqn:Hs.
    + now rewrite (is_empty_true _ Hs).
    + now rewrite first_nonempty_cons.
  - rewrite IH. unfold onImage.
    destruct (is_empty (CoverURL i)) eqn:Hs.
    + now rewrite (is_empty_true _ Hs).
    + now rewrite !first_nonempty_cons.
Qed.

Lemma onField_fold_date nodes : forall i,
  ReleaseDate (fold_left (fun i e => onField e i) nodes i)
  = last (map (fun e => ParseDate (ChildText e ".//td[2]"))
            (rows_labelled "公開日" nodes))
         (ReleaseDate i).
Proof.
  induction nodes as [|e nodes IH]; intros i; [reflexivity|].
  cbn [fold_left rows_labelled filter]. rewrite IH. fold (rows_labelled "公開日" nodes).
  unfold onField.
  destruct (ChildText e ".//td[1]" =? "公開日").
  - cbn [map]. now rewrite last_cons.
  - case_all; reflexivity.
Qed.

Lemma onField_fold_score nodes : forall i,
  Score (fold_left (fun i e => onField e i) nodes i)
  = last (map (fun e => ParseScore
                          (ChildText e (".//span[@itemprop=" ++ quoted "ratingValue" ++ "]")))
            (rows_labelled "評価" nodes))
         (Score i).
Proof.
  induction nodes as [|e nodes IH]; intros i; [reflexivity|].
  cbn [fold_left rows_labelled filter]. rewrite IH. fold (rows_labelled "評価" nodes).
  unfold onField.
  destruct (String.eqb_spec (ChildText e ".//td[1]") "評価") as [Heq | Hne].
  - rewrite Heq. cbn [map]. now rewrite last_cons.
  - case_all; reflexivity.
Qed.


Lemma onScript_fold_runtime nodes : forall i,
  Runtime (fold_left (fun i e => onScript e i) nodes i)
  = last (script_runtimes nodes) (Runtime i).
Proof.
  induction nodes as [|e nodes IH]; intros i; [reflexivity|].
  cbn [fold_left script_runtimes flat_map]. rewrite IH.
  fold (script_runtimes nodes). rewrite last_app_default. f_equal.
  unfold onScript. cbv zeta. case_all; reflexivity.
Qed.

Ltac through proj f :=
  rewrite (fold_left_frame proj f)
    by (intros ? ?; unfold onScript, onTags, onField, onImage, onSummary;
        case_all; reflexivity).

Lemma assembled_movie_fields rawURL reqs reqs' info :
  GetMovieInfoByURL rawURL reqs = Done (Some info, None) reqs' ->
  exists resp,
    visit (length reqs) rawURL = inr resp
    /\ let scripts :=
         selectNodes resp ("//script[@type=" ++ quoted "application/ld+json" ++ "]") in
       let rows :=
         selectNodes resp ("//table[@class=" ++ quoted "movieInfo" ++ "]/tbody/tr") in
       Title info
       = (let name := last (map ld_Name (decoded_scripts scripts)) "" in
          if is_empty name
          then match selectNodes resp ("//*[@id=" ++ quoted "movie" ++ "]/h1") with
               | e :: _ => hd "" (Str.Fields (Text e))
               | [] => ""
               end%list
          else name)
       /\ Summary info
          = first_nonempty
              (last (map ld_Description (decoded_scripts scripts)) ""
               :: map (fun e => Str.TrimSpace (Text e))
                    (selectNodes resp ("//p[@class=" ++ quoted "memo" ++ "]")))
       /\ CoverURL info
          = first_nonempty
              (last (decoded_covers scripts) ""
               :: map (fun e => AbsoluteURL e (Attr e "content"))
                    (selectNodes resp ("//meta[@property=" ++ quoted "og:image" ++ "]")))
       /\ ReleaseDate info
          = last (map (fun e => ParseDate (ChildText e ".//td[2]"))
                    (rows_labelled "公開日" rows))
                 (last (map (fun d => ParseDate (ld_ReleasedEvent_StartDate d))
                          (decoded_scripts scripts))
                       time_zero)
       /\ Score info
          = last (map (fun e =>
                         ParseScore
                           (ChildText e (".//span[@itemprop=" ++ quoted "ratingValue" ++ "]")))
                    (rows_labelled "評価" rows))
                 (last (map (fun d => ParseScore (ld_AggregateRating_RatingValue d))
                          (decoded_scripts scripts))
                       zero_Float)
       /\ Runtime info
          = last (script_runtimes
                    (selectNodes resp ("//script[@type=" ++ quoted "text/javascript" ++ "]")))
                 (last (map (fun d => ParseRuntime (ld_Video_Duration d))
                          (decoded_scripts scripts))
                       0%Z).
Proof.
  intros H. apply visited_without_error in H as (id & resp & Hid & Hvisit & Hrun).
  exists resp. split; [exact Hvisit|]. cbv zeta.
  set (rest := fun i : MovieInfo =>
                 (Summary i, CoverURL i, ReleaseDate i, Score i, Runtime i)).
  set (proj := fun i : MovieInfo => (Title i, rest i)).
  replace callbacks
    with (firstn 2 callbacks ++ firstn 5 (skipn 2 callbacks) ++ skipn 7 callbacks)%list
    in Hrun by reflexivity.
  rewrite handleOnXML_app in Hrun.
  destruct (handleOnXML (firstn 2 callbacks) resp _ _) as [i2 r2|] eqn:H2;
    [|discriminate].
  set (i1 := fold_left (fun i e => onJSON e i)
               (selectNodes resp ("//script[@type=" ++ quoted "application/ld+json" ++ "]"))
               (seed id rawURL)).
  unfold callbacks, pure in H2. cbn [firstn] in H2.
  rewrite (handleOnXML_pure_cons (E := E) _ onJSON) in H2. fold i1 in H2.
  assert (Hrest : rest i2 = rest i1).
  { refine (handleOnXML_keeps (fun i => rest i = rest i1) _ _ _ _ _ _ _ eq_refl H2).
    repeat constructor; cbn [snd].
    apply onTitle_keeps. intros t i Hi. exact Hi. }
  assert (Htitle :
            Title i2
            = (let name := Title i1 in
               if is_empty name
               then match selectNodes resp ("//*[@id=" ++ quoted "movie" ++ "]/h1") with
                    | e :: _ => hd "" (Str.Fields (Text e))
                    | [] => ""
                    end%list
               else name)).
  { cbn [handleOnXML] in H2. unfold bind in H2.
    rewrite each_node_onTitle_run in H2. cbv zeta.
    destruct (is_empty (Title i1)) eqn:Hempty.
    - destruct (selectNodes resp ("//*[@id=" ++ quoted "movie" ++ "]/h1"))
        as [|e others].
      + unfold ret in H2. injection H2 as <- _. now apply is_empty_true.
      + destruct (Str.Fields (Text e)) as [|f fs]; [discriminate|].
        unfold ret in H2. injection H2 as <- _. reflexivity.
    - unfold ret in H2. injection H2 as <- _. reflexivity. }
  clear H2.
  rewrite handleOnXML_app in Hrun.
  unfold callbacks at 1, pure in Hrun. cbn [skipn firstn] in Hrun.
  rewrite (handleOnXML_pure_cons (E := E) _ onSummary),
    (handleOnXML_pure_cons (E := E) _ onImage),
    (handleOnXML_pure_cons (E := E) _ onField),
    (handleOnXML_pure_cons (E := E) _ onTags),
    (handleOnXML_pure_cons (E := E) _ onScript) in Hrun.
  cbn [handleOnXML] in Hrun. unfold ret at 1 in Hrun.
  match type of Hrun with
  | handleOnXML _ _ ?i _ = _ => set (i7 := i) in Hrun
  end.
  assert (Hinfo : proj info = proj i7).
  { refine (handleOnXML_keeps (fun i => proj i = proj i7) _ _ _ _ _ _ _ eq_refl Hrun).
    unfold callbacks, pure. cbn [skipn]. repeat constructor; cbn [snd].
    - apply onPlayer_keeps. intros r i <-. unfold onManifest, proj, rest.
      case_all; reflexivity.
    - apply keeps_pure. intros e i Hi. apply onImages_keeps; [|exact Hi].
      intros v j Hj. exact Hj. }
  unfold proj, rest in Hinfo, Hrest.
  injection Hinfo as -> -> -> -> -> ->. injection Hrest as Hs Hc Hd Hsc Hr.
  unfold i7. repeat split.
  - through Title onScript. through Title onTags. through Title onField.
    through Title onImage. through Title onSummary.
    rewrite Htitle. unfold i1.
    now rewrite (onJSON_fold_field Title ld_Name)
      by (intros e i; unfold onJSON; case_all; reflexivity).
  - through Summary onScript. through Summary onTags. through Summary onField.
    through Summary onImage.
    rewrite onSummary_fold, Hs. unfold i1.
    now rewrite (onJSON_fold_field Summary ld_Description)
      by (intros e i; unfold onJSON; case_all; reflexivity).
  - through CoverURL onScript. through CoverURL onTags. through CoverURL onField.
    rewrite onImage_fold. through CoverURL onSummary.
    rewrite Hc. unfold i1. now rewrite onJSON_fold_cover.
  - through ReleaseDate onScript. through ReleaseDate onTags.
    rewrite onField_fold_date.
    through ReleaseDate onImage. through ReleaseDate onSummary.
    rewrite Hd. unfold i1.
    now rewrite (onJSON_fold_field ReleaseDate
                   (fun d => ParseDate (ld_ReleasedEvent_StartDate d)))
      by (intros e i; unfold onJSON; case_all; reflexivity).
  - through Score onScript. through Score onTags.
    rewrite onField_fold_score.
    through Score onImage. through Score onSummary.
    rewrite Hsc. unfold i1.
    now rewrite (onJSON_fold_field Score
                   (fun d => ParseScore (ld_AggregateRating_RatingValue d)))
      by (intros e i; unfold onJSON; case_all; reflexivity).
  - rewrite onScript_fold_runtime.
    through Runtime onTags. through Runtime onField.
    through Runtime onImage. through Runtime onSummary.
    rewrite Hr. unfold i1.
    now rewrite (onJSON_fold_field Runtime
                   (fun d => ParseRuntime (ld_Video_Duration d)))
      by (intros e i; unfold onJSON; case_all; reflexivity).
Qed.

End MovieFields.

Section ActorFields.
Context {E : Env}.
Import XsList.
Local Open Scope string_scope.

Lemma entry_values_cons label n ns :
  entry_values label (n :: ns)
  = (entry_values label [n] ++ entry_values label ns)%list.
Proof.
  unfold entry_values. cbn [flat_map]. now rewrite app_nil_r.
Qed.

Lemma onTextNode_height i n :
  Height (onTextNode i n)
  = last (map (fun v => ParseInt (Str.TrimRight v "cm")) (entry_values "身高" [n]))
         (Height i).
Proof.
  unfold onTextNode, entry_values, profile_entry. cbn [flat_map].
  destruct (Type_ n); try reflexivity.
  destruct (Str.SplitN2 (Str.TrimSpace (Data n)) ":") as [|a [|b [|c l]]];
    try reflexivity.
  cbv zeta.
  destruct (is_empty (Str.TrimSpace b) || (Str.TrimSpace b =? "n/a"));
    [reflexivity|].
  destruct (String.eqb_spec a "身高") as [-> | Hne].
  - reflexivity.
  - case_all; reflexivity.
Qed.

Lemma onTextNode_nationality i n :
  Nationality (onTextNode i n) = last (entry_values "国籍" [n]) (Nationality i).
Proof.
  unfold onTextNode, entry_values, profile_entry. cbn [flat_map].
  destruct (Type_ n); try reflexivity.
  destruct (Str.SplitN2 (Str.TrimSpace (Data n)) ":") as [|a [|b [|c l]]];
    try reflexivity.
  cbv zeta.
  destruct (is_empty (Str.TrimSpace b) || (Str.TrimSpace b =? "n/a"));
    [reflexivity|].
  destruct (String.eqb_spec a "国籍") as [-> | Hne].
  - reflexivity.
  - case_all; reflexivity.
Qed.

Lemma onTextNode_fold_height ns : forall i,
  Height (fold_left onTextNode ns i)
  = last (map (fun v => ParseInt (Str.TrimRight v "cm")) (entry_values "身高" ns))
         (Height i).
Proof.
  induction ns as [|n ns IH]; intros i; [reflexivity|].
  cbn [fold_left]. rewrite IH, onTextNode_height, (entry_values_cons _ n ns).
  now rewrite map_app, last_app_default.
Qed.

Lemma onTextNode_fold_nationality ns : forall i,
  Nationality (fold_left onTextNode ns i)
  = last (entry_values "国籍" ns) (Nationality i).
Proof.
  induction ns as [|n ns IH]; intros i; [reflexivity|].
  cbn [fold_left]. rewrite IH, onTextNode_nationality, (entry_values_cons _ n ns).
  now rewrite last_app_default.
Qed.

Lemma onHeight_fold nodes : forall i,
  Height (fold_left (fun i e => onHeight e i) nodes i)
  = last (map (fun e => ParseInt (Str.TrimRight (Text e) "cm")) nodes) (Height i).
Proof.
  induction nodes as [|e nodes IH]; intros i; [reflexivity|].
  cbn [fold_left map]. now rewrite IH, last_cons.
Qed.

Lemma onNationality_fold nodes : forall i,
  Nationality (fold_left (fun i e => onNationality e i) nodes i)
  = last (map (fun e => Str.ReplaceAll (Text e) "n/a" "") nodes) (Nationality i).
Proof.
  induction nodes as [|e nodes IH]; intros i; [reflexivity|].
  cbn [fold_left map]. now rewrite IH, last_cons.
Qed.

Lemma assembled_actor_fields u reqs reqs' info :
  GetActorInfoByURL u reqs = Done (Some info, None) reqs' ->
  exists homepage resp children,
    url_Parse u = inr homepage
    /\ visit (length reqs) (url_String homepage) = inr resp
    /\ all_children
         (selectNodes resp ("//*[@id=" ++ quoted "layout" ++ "]/div/p[1]"))
       = Some children
    /\ Height info
       = last (map (fun e => ParseInt (Str.TrimRight (Text e) "cm"))
                 (selectNodes resp ("//span[@itemprop=" ++ quoted "height" ++ "]")))
              (last (map (fun v => ParseInt (Str.TrimRight v "cm"))
                       (entry_values "身高" children))
                    0%Z)
    /\ Nationality info
       = last (map (fun e => Str.ReplaceAll (Text e) "n/a" "")
                 (selectNodes resp ("//span[@itemprop=" ++ quoted "nationality" ++ "]")))
              (last (entry_values "国籍" children) "").
Proof.
  destruct (url_Parse u) as [err|homepage] eqn:Hparse.
  { unfold GetActorInfoByURL. rewrite Hparse. discriminate. }
  rewrite (GetActorInfoByURL_parsed u homepage reqs Hparse).
  destruct (visit (length reqs) (url_String homepage)) as [err|resp] eqn:Hvisit;
    [discriminate|].
  rewrite actor_callbacks_run.
  destruct (all_children _) as [ns|] eqn:Hns; [|discriminate].
  intros H. injection H as H _. subst info.
  exists homepage, resp, ns.
  split; [reflexivity | split; [exact Hvisit | split; [exact Hns | split]]].
  - rewrite (fold_left_frame Height onNationality) by reflexivity.
    rewrite onHeight_fold, onTextNode_fold_height.
    rewrite (fold_left_frame Height onGallery)
      by (intros e i; unfold onGallery; case_all; reflexivity).
    rewrite (fold_left_frame Height onAlias) by reflexivity.
    now rewrite (fold_left_frame Height onName) by reflexivity.
  - rewrite onNationality_fold.
    rewrite (fold_left_frame Nationality onHeight) by reflexivity.
    rewrite onTextNode_fold_nationality.
    rewrite (fold_left_frame Nationality onGallery)
      by (intros e i; unfold onGallery; case_all; reflexivity).
    rewrite (fold_left_frame Nationality onAlias) by reflexivity.
    now rewrite (fold_left_frame Nationality onName) by reflexivity.
Qed.
End ActorFields.

Section FallbackOrOverwrite.
Context {E : Env}.
Local Open Scope string_scope.

(** C1, as the code has it.  Three callbacks test their field and leave a
    value that is not empty as it is: the heading for the title, the memo
    for the summary, the [og:image] tag for the cover.  So in a record
    assembled without error the title, the summary and the cover are
    those of the last JSON-LD script that decodes when they are not
    empty, and otherwise those of the first heading, of the first memo
    with text and of the first [og:image] tag with a link.  The other
    callbacks assign without a test, and the last one that runs wins: the
    release date and the score are those of the last [公開日] and [評価]
    row of the details table, and those of the last JSON-LD script that
    decodes only when the table has no such row; the runtime is that of
    the last script that assigns a decodable object to [o], and that of
    the JSON-LD script only when there is none; the height and the
    nationality of an actor are those of the last [itemprop] node, and
    those of the last entry [身高] and [国籍] of the free text only when
    the page has no such node. *)
Theorem fallback_or_overwrite :
  (forall e i reqs, Heyzo.Title i <> "" -> Heyzo.onTitle e i reqs = Done i reqs)
  /\ (forall e i, Heyzo.Summary i <> "" -> Heyzo.onSummary e i = i)
  /\ (forall e i, Heyzo.CoverURL i <> "" -> Heyzo.onImage e i = i)
  /\ (forall rawURL reqs reqs' info,
         Heyzo.GetMovieInfoByURL rawURL reqs = Done (Some info, None) reqs' ->
         exists resp,
           visit (length reqs) rawURL = inr resp
           /\ let scripts :=
                selectNodes resp
                  ("//script[@type=" ++ quoted "application/ld+json" ++ "]") in
              let rows :=
                selectNodes resp
                  ("//table[@class=" ++ quoted "movieInfo" ++ "]/tbody/tr") in
              Heyzo.Title info
              = (let name := last (map ld_Name (decoded_scripts scripts)) "" in
                 if is_empty name
                 then match selectNodes resp ("//*[@id=" ++ quoted "movie" ++ "]/h1") with
                      | e :: _ => hd "" (Str.Fields (Text e))
                      | [] => ""
                      end%list
                 else name)
              /\ Heyzo.Summary info
                 = first_nonempty
                     (last (map ld_Description (decoded_scripts scripts)) ""
                      :: map (fun e => Str.TrimSpace (Text e))
                           (selectNodes resp ("//p[@class=" ++ quoted "memo" ++ "]")))
              /\ Heyzo.CoverURL info
                 = first_nonempty
                     (last (decoded_covers scripts) ""
                      :: map (fun e => AbsoluteURL e (Attr e "content"))
                           (selectNodes resp
                              ("//meta[@property=" ++ quoted "og:image" ++ "]")))
              /\ Heyzo.ReleaseDate info
                 = last (map (fun e => ParseDate (ChildText e ".//td[2]"))
                           (rows_labelled "公開日" rows))
                        (last (map (fun d => ParseDate (ld_ReleasedEvent_StartDate d))
                                 (decoded_scripts scripts))
                              time_zero)
              /\ Heyzo.Score info
                 = last (map (fun e =>
                                ParseScore
                                  (ChildText e
                                     (".//span[@itemprop=" ++ quoted "ratingValue" ++ "]")))
                           (rows_labelled "評価" rows))
                        (last (map (fun d =>
                                      ParseScore (ld_AggregateRating_RatingValue d))
                                 (decoded_scripts scripts))
                              zero_Float)
              /\ Heyzo.Runtime info
                 = last (script_runtimes
                           (selectNodes resp
                              ("//script[@type=" ++ quoted "text/javascript" ++ "]")))
                        (last (map (fun d => ParseRuntime (ld_Video_Duration d))
                                 (decoded_scripts scripts))
                              0%Z))
  /\ (forall u reqs reqs' info,
         XsList.GetActorInfoByURL u reqs = Done (Some info, None) reqs' ->
         exists homepage resp children,
           url_Parse u = inr homepage
           /\ visit (length reqs) (url_String homepage) = inr resp
           /\ all_children
                (selectNodes resp ("//*[@id=" ++ quoted "layout" ++ "]/div/p[1]"))
              = Some children
           /\ XsList.Height info
              = last (map (fun e => ParseInt (Str.TrimRight (Text e) "cm"))
                        (selectNodes resp
                           ("//span[@itemprop=" ++ quoted "height" ++ "]")))
                     (last (map (fun v => ParseInt (Str.TrimRight v "cm"))
                              (entry_values "身高" children))
                           0%Z)
           /\ XsList.Nationality info
              = last (map (fun e => Str.ReplaceAll (Text e) "n/a" "")
                        (selectNodes resp
                           ("//span[@itemprop=" ++ quoted "nationality" ++ "]")))
                     (last (entry_values "国籍" children) "")).
Proof.
  split; [|split; [|split; [|split]]].
  - intros e i reqs H. unfold Heyzo.onTitle. now rewrite (is_empty_false _ H).
  - intros e i H. unfold Heyzo.onSummary. now rewrite (is_empty_false _ H).
  - intros e i H. unfold Heyzo.onImage. now rewrite (is_empty_false _ H).
  - apply assembled_movie_fields.
  - apply assembled_actor_fields.
Qed.
End FallbackOrOverwrite.

Section FieldRuns.
Import Scenario.
Local Open Scope string_scope.

(** The JSON-LD script of the page decodes and gives 2020-01-01 as release
    date, the details table gives 2021-01-02, and the record holds the
    date of the table, which ran later; the free text of the actor page
    gives 160 as height, the [itemprop] node gives 150, and the record
    holds the height of the node, which ran later. *)
Lemma later_extractor_replaces :
  option_map ld_ReleasedEvent_StartDate
    (json_Unmarshal_ld (Env := Double.env site_up)
       (Text (Env := Double.env site_up) ld_script))
  = Some "2020-01-01"
  /\ Heyzo.ReleaseDate
       (Heyzo.onJSON (E := Double.env site_up) ld_script (Heyzo.seed "1234" movie_url))
     = "2020-01-01"
  /\ Heyzo.GetMovieInfoByURL (E := Double.env site_up) movie_url []
     = Done (Some movie_record, None) [movie_url; manifest_url]
  /\ Heyzo.ReleaseDate movie_record = "2021-01-02"
  /\ Heyzo.ReleaseDate movie_record
     <> Heyzo.ReleaseDate
          (Heyzo.onJSON (E := Double.env site_up) ld_script (Heyzo.seed "1234" movie_url))
  /\ match XsList.onProfile (E := Double.env actor_site) profile
             (XsList.seed (E := Double.env actor_site) "1" actor_url) [actor_url] with
     | Done i _ => XsList.Height i = 160%Z
     | Panicked => False
     end
  /\ XsList.GetActorInfoByURL (E := Double.env actor_site) actor_url []
     = Done (Some actor_record, None) [actor_url]
  /\ XsList.Height actor_record = 150%Z.
Proof.
  repeat split; try (vm_compute; reflexivity).
  vm_compute. discriminate.
Qed.

Lemma fallback_or_overwrite_witness :
  (exists resp : @Response (Double.env site_up),
      visit 0 movie_url = inr resp
      /\ Heyzo.ReleaseDate movie_record
         = last (map (fun e => ParseDate (ChildText e ".//td[2]"))
                   (rows_labelled "公開日"
                      (selectNodes resp
                         ("//table[@class=" ++ quoted "movieInfo" ++ "]/tbody/tr"))))
                (last (map (fun d => ParseDate (ld_ReleasedEvent_StartDate d))
                         (decoded_scripts
                            (selectNodes resp
                               ("//script[@type=" ++ quoted "application/ld+json" ++ "]"))))
                      time_zero))
  /\ (exists (homepage : @URL (Double.env actor_site))
             (resp : @Response (Double.env actor_site)) children,
         url_Parse actor_url = inr homepage
         /\ visit 0 (url_String homepage) = inr resp
         /\ all_children
              (selectNodes resp ("//*[@id=" ++ quoted "layout" ++ "]/div/p[1]"))
            = Some children
         /\ XsList.Height actor_record
            = last (map (fun e => ParseInt (Env := Double.env actor_site)
                                   (Str.TrimRight (Text e) "cm"))
                      (selectNodes resp
                         ("//span[@itemprop=" ++ quoted "height" ++ "]")))
                   (last (map (fun v => ParseInt (Env := Double.env actor_site)
                                          (Str.TrimRight v "cm"))
                            (entry_values "身高" children))
                         0%Z)).
Proof.
  split.
  - destruct (proj1 (proj2 (proj2 (proj2
                (fallback_or_overwrite (E := Double.env site_up)))))
                movie_url [] [movie_url; manifest_url] movie_record)
      as (resp & Hv & _ & _ & _ & Hd & _).
    + vm_compute. reflexivity.
    + exists resp. split; [exact Hv | exact Hd].
  - destruct (proj2 (proj2 (proj2 (proj2
                (fallback_or_overwrite (E := Double.env actor_site)))))
                actor_url [] [actor_url] actor_record)
      as (homepage & resp & children & Hp & Hv & Hc & Hh & _).
    + vm_compute. reflexivity.
    + exists homepage, resp, children. now repeat split.
Defined.
End FieldRuns.

(* ================================================================= *)
(** ** More runs on concrete pages *)

Section MovieRuns.
Import Scenario Pages.
Import Heyzo.
Local Open Scope string_scope.

Lemma movie_identity_fixed_witness :
  exists id,
    ParseIDFromURL (E := Double.env Scenario.site_up) Scenario.movie_url = inr id
    /\ ID Scenario.movie_record = id
    /\ Number Scenario.movie_record = "HEYZO-" ++ id
    /\ Provider Scenario.movie_record = "HEYZO"
    /\ Homepage Scenario.movie_record = Scenario.movie_url.
Proof.
  apply (movie_identity_fixed (E := Double.env Scenario.site_up)
           Scenario.movie_url []
           [Scenario.movie_url; Scenario.manifest_url] Scenario.movie_record None).
  vm_compute. reflexivity.
Defined.


Lemma maker_never_empty_witness : Maker Scenario.movie_record <> "".
Proof.
  apply (maker_never_empty (E := Double.env Scenario.site_up)
           Scenario.movie_url []
           [Scenario.movie_url; Scenario.manifest_url] Scenario.movie_record None).
  vm_compute. reflexivity.
Defined.


Lemma preview_video_url_shape_witness :
  PreviewVideoURL Scenario.movie_record = ""
  \/ exists resp : @Response (Double.env Scenario.site_up),
       visit 0 Scenario.movie_url = inr resp
       /\ video_url_shape resp 0 [Scenario.movie_url; Scenario.manifest_url]
            (PreviewVideoURL Scenario.movie_record).
Proof.
  apply (preview_video_url_shape (E := Double.env Scenario.site_up)
           Scenario.movie_url [] [Scenario.movie_url; Scenario.manifest_url]
           Scenario.movie_record None).
  vm_compute. reflexivity.
Defined.

Lemma assembly_panics_iff_witness :
  GetMovieInfoByURL (E := Double.env blank_heading_site) movie_url [] = Panicked.
Proof.
  apply (proj2 (assembly_panics_iff (E := Double.env blank_heading_site)
                  movie_url [])).
  exists "1234", blank_heading_page, (Double.node "  "), []%list.
  repeat split; vm_compute; reflexivity.
Defined.


Lemma unmatched_page_gives_seed_witness :
  GetMovieInfoByURL (E := Double.env empty_site) movie_url []
  = Done (Some (seed "1234" movie_url), None) [movie_url].
Proof.
  apply (proj1 (unmatched_page_gives_seed (E := Double.env empty_site))
           movie_url "1234" empty_page []).
  - vm_compute. reflexivity.
  - reflexivity.
  - repeat constructor.
Defined.

Lemma tags_of_last_list_witness :
  exists resp,
    visit (Env := Double.env site_up) 0 movie_url = inr resp
    /\ Tags movie_record
       = last (map (fun e => ChildTexts e ".//li/a")
                 (selectNodes resp ("//ul[@class=" ++ quoted "tag-keyword-list" ++ "]")))
              []%list.
Proof.
  apply (tags_of_last_list (E := Double.env site_up) movie_url []
           [movie_url; manifest_url] movie_record).
  vm_compute. reflexivity.
Defined.

Lemma preview_images_in_order_witness :
  exists resp,
    visit (Env := Double.env images_site) 0 movie_url = inr resp
    /\ PreviewImages images_record
       = flat_map script_images
           (selectNodes resp
              ("//div[@class=" ++ quoted "sample-images yoxview" ++ "]/script")).
Proof.
  apply (preview_images_in_order (E := Double.env images_site) movie_url []
           [movie_url] images_record).
  vm_compute. reflexivity.
Defined.

Lemma preview_images_under_contents_witness :
  exists resp e p,
    visit (Env := Double.env images_site) 0 movie_url = inr resp
    /\ In e (selectNodes resp
               ("//div[@class=" ++ quoted "sample-images yoxview" ++ "]/script"))
    /\ "https://www.heyzo.com/contents/3000/1234/gallery/002.jpg"
       = AbsoluteURL e ("/contents/" ++ p).
Proof.
  apply (preview_images_under_contents (E := Double.env images_site) movie_url []
           [movie_url] images_record).
  - vm_compute. reflexivity.
  - right. left. reflexivity.
Defined.

Lemma title_of_record_witness :
  exists resp,
    visit (Env := Double.env images_site) 0 movie_url = inr resp
    /\ Title images_record
       = let name :=
           last (map ld_Name
                   (decoded_scripts
                      (selectNodes resp
                         ("//script[@type=" ++ quoted "application/ld+json" ++ "]"))))
                "" in
         if is_empty name
         then match selectNodes resp ("//*[@id=" ++ quoted "movie" ++ "]/h1") with
              | e :: _ => hd "" (Str.Fields (Text e))
              | [] => ""
              end%list
         else name.
Proof.
  apply (title_of_record (E := Double.env images_site) movie_url []
           [movie_url] images_record).
  vm_compute. reflexivity.
Defined.
End MovieRuns.

Section ActorRuns.
Import Scenario Pages.
Import XsList.
Local Open Scope string_scope.

Lemma actor_assembly_panics_iff_witness :
  GetActorInfoByURL (E := Double.env xml_actor_site) actor_url [] = Panicked
  /\ ([actor_url] = []%list \/ exists h, [actor_url] = ([] ++ [h])%list).
Proof.
  split.
  - apply (proj2 (proj1 (actor_assembly_panics_iff
                           (E := Double.env xml_actor_site) actor_url []))).
    exists actor_url, xml_actor_page.
    split; [reflexivity | split; [reflexivity|]].
    left. reflexivity.
  - apply (proj2 (actor_assembly_panics_iff
                    (E := Double.env gallery_site) actor_url [])
             (Some gallery_record, None)).
    vm_compute. reflexivity.
Defined.

Lemma actor_aliases_and_images_witness :
  exists (homepage : @URL (Double.env gallery_site))
         (resp : @Response (Double.env gallery_site)),
    url_Parse actor_url = inr homepage
    /\ visit 0 (url_String homepage) = inr resp
    /\ Aliases gallery_record
       = map Text (selectNodes resp ("//*[@id=" ++ quoted "sss1" ++ "]/p/span"))
    /\ Images gallery_record
       = map (fun e => Attr e "href")
           (filter gallery_kept
              (selectNodes resp ("//*[@id=" ++ quoted "gallery" ++ "]/a"))).
Proof.
  apply (actor_aliases_and_images (E := Double.env gallery_site) actor_url []
           [actor_url] gallery_record).
  vm_compute. reflexivity.
Defined.

Lemma actor_identity_fixed_witness :
  exists homepage : @URL (Double.env gallery_site),
    url_Parse actor_url = inr homepage
    /\ Provider gallery_record = "xslist"
    /\ Homepage gallery_record = url_String homepage
    /\ ID gallery_record
       = actor_id_of (E := Double.env gallery_site) (url_Path homepage)
    /\ (Path.Ext (url_Path homepage) = "" -> ID gallery_record = "").
Proof.
  apply (actor_identity_fixed (E := Double.env gallery_site) actor_url []
           [actor_url] gallery_record None).
  vm_compute. reflexivity.
Defined.

Lemma actor_id_round_trip_witness :
  ID gallery_record = path_Base (Env := Double.env gallery_site) "/zh/model/1"
  /\ Provider gallery_record = "xslist".
Proof.
  apply (actor_id_round_trip (E := Double.env gallery_site) "1" actor_url []
           [actor_url] gallery_record None).
  - reflexivity.
  - reflexivity.
  - vm_compute. reflexivity.
Defined.

Lemma search_panics_iff_witness :
  SearchActor (E := Double.env broken_search_site) "jane" [] = Panicked.
Proof.
  apply (proj2 (search_panics_iff (E := Double.env broken_search_site)
                  "jane" [] broken_search_page eq_refl)).
  right. left. exists "missing protocol scheme". reflexivity.
Defined.

Lemma search_results_follow_listings_witness :
  [search_url] = ([] ++ [searchURL (url_QueryEscape (Env := Double.env search_site) "jane")])%list
  /\ match visit (Env := Double.env search_site) 0
             (searchURL (url_QueryEscape (Env := Double.env search_site) "jane")) with
     | inl e => [search_result] = []%list /\ @None string = Some e
     | inr resp =>
         @None string = None
         /\ Forall2 listing_gives (selectNodes resp "//ul/li") [search_result]
     end.
Proof.
  apply (search_results_follow_listings (E := Double.env search_site) "jane" []
           [search_result] None [search_url]).
  vm_compute. reflexivity.
Defined.

Lemma parseDebutDate_grammar_witness :
  parseDebutDate (E := Double.env actor_site) "2015年 3月"
  = time_Date (ParseInt (Env := Double.env actor_site) "2015")
              (ParseInt (Env := Double.env actor_site) " 3").
Proof.
  apply (proj1 (parseDebutDate_grammar (E := Double.env actor_site) "2015年 3月")
           "2015" " 3"); reflexivity.
Defined.
End ActorRuns.
